(** * smartcharge-dev: the charge planning engine of [src/server/logic.ts]

    A shallow embedding of the planner, the plan reconciler, the statistics
    engine and the trip state machine of class [Logic], with the properties
    the specification states about them.

    Conventions of the embedding.
    - A JavaScript [Date] is its [getTime()] value, an integer number of
      milliseconds ([Z]); a nullable date is an [option Z].  All date
      arithmetic of the source stays on integers far below 2^53, where the
      double arithmetic of JavaScript is exact.
    - The values [-Infinity], [Infinity] and [NaN] that [nstart], [nstop] and
      the comparator of [cleanupPlan] compute with are kept ([JS.num]).
    - An array of plan segments is a [list]; the segments of one array are
      distinct objects, so the in-place updates of the source become
      functional updates of list elements.
    - What the source reads from the database is an explicit argument.
    - The numbers of the planner and of the statistics engine are read as
      exact rationals; the threshold simulation is given a second time on
      binary64 numbers ([Doubles]), where its comparisons are those of the
      source. *)

From Stdlib Require Import ZArith List Bool Lia String QArith Qround Qminmax.
From Stdlib Require Import Sorted Permutation Lqa PrimFloat.
Import ListNotations.
Open Scope Z_scope.

(* ================================================================== *)
(** * Definitions *)
(* ================================================================== *)

(** ** JavaScript numbers, as far as [cleanupPlan] uses them *)

Module JS.

Inductive num : Type :=
| NaN
| NegInf
| Fin (z : Z)
| PosInf.

(** [a - b] *)
Definition sub (a b : num) : num :=
  match a, b with
  | NaN, _ | _, NaN => NaN
  | Fin x, Fin y => Fin (x - y)
  | PosInf, PosInf | NegInf, NegInf => NaN
  | PosInf, _ | _, NegInf => PosInf
  | NegInf, _ | _, PosInf => NegInf
  end.

(** [a + b] *)
Definition add (a b : num) : num :=
  match a, b with
  | NaN, _ | _, NaN => NaN
  | Fin x, Fin y => Fin (x + y)
  | PosInf, NegInf | NegInf, PosInf => NaN
  | PosInf, _ | _, PosInf => PosInf
  | NegInf, _ | _, NegInf => NegInf
  end.

(** [a < b]; false as soon as one side is [NaN] *)
Definition ltb (a b : num) : bool :=
  match a, b with
  | NaN, _ | _, NaN => false
  | Fin x, Fin y => x <? y
  | NegInf, NegInf | PosInf, PosInf => false
  | NegInf, _ | _, PosInf => true
  | PosInf, _ | _, NegInf => false
  end.

(** [a <= b] *)
Definition leb (a b : num) : bool :=
  match a, b with
  | NaN, _ | _, NaN => false
  | Fin x, Fin y => x <=? y
  | NegInf, _ | _, PosInf => true
  | PosInf, _ | _, NegInf => false
  end.

(** [a > b] and [a >= b] *)
Definition gtb (a b : num) : bool := ltb b a.
Definition geb (a b : num) : bool := leb b a.

(** [Math.min(a, b)] *)
Definition min (a b : num) : num :=
  match a, b with
  | NaN, _ | _, NaN => NaN
  | _, _ => if leb a b then a else b
  end.

(** Truthiness of a number: [NaN] and [0] are falsy. *)
Definition truthy (a : num) : bool :=
  match a with
  | NaN => false
  | Fin z => negb (z =? 0)
  | _ => true
  end.

(** [a || b] on numbers *)
Definition or (a b : num) : num := if truthy a then a else b.

(** [new Date(x)] for a finite [x]; a non-finite argument gives an invalid
    date, which [nstart] and [nstop] read like [null]. *)
Definition newDate (a : num) : option Z :=
  match a with
  | Fin z => Some z
  | _ => None
  end.

End JS.

(** ** Plan segments and the reconciler [cleanupPlan] *)

Module Plan.

(** [enum ChargeType] of [gql/vehicle-type] *)
Inductive ChargeType : Type :=
| calibrate
| minimum
| trip
| routine
| prefered
| fill.

Definition ChargeType_eqb (a b : ChargeType) : bool :=
  match a, b with
  | calibrate, calibrate | minimum, minimum | trip, trip
  | routine, routine | prefered, prefered | fill, fill => true
  | _, _ => false
  end.

(** [class ChargePlan] *)
Record ChargePlan : Type := mkChargePlan {
  chargeStart : option Z;
  chargeStop : option Z;
  level : Z;
  chargeType : ChargeType;
  comment : string
}.

Definition set_chargeStart (a : ChargePlan) (v : option Z) : ChargePlan :=
  mkChargePlan v (chargeStop a) (level a) (chargeType a) (comment a).

Definition set_chargeStop (a : ChargePlan) (v : option Z) : ChargePlan :=
  mkChargePlan (chargeStart a) v (level a) (chargeType a) (comment a).

Definition set_level (a : ChargePlan) (v : Z) : ChargePlan :=
  mkChargePlan (chargeStart a) (chargeStop a) v (chargeType a) (comment a).

(** [(n && n.getTime()) || -Infinity]: [null] and the epoch itself (time 0,
    falsy) both read as [-Infinity]. *)
Definition nstart (n : option Z) : JS.num :=
  match n with
  | None => JS.NegInf
  | Some t => JS.or (JS.Fin t) JS.NegInf
  end.

(** [(n && n.getTime()) || Infinity] *)
Definition nstop (n : option Z) : JS.num :=
  match n with
  | None => JS.PosInf
  | Some t => JS.or (JS.Fin t) JS.PosInf
  end.

Definition chargePrio (t : ChargeType) : Z :=
  match t with
  | calibrate => 0
  | minimum => 1
  | trip => 2
  | routine => 3
  | prefered => 4
  | fill => 5
  end.

(** The comparator handed to [plan.sort]. *)
Definition compare (a b : ChargePlan) : JS.num :=
  JS.or (JS.sub (nstart (chargeStart a)) (nstart (chargeStart b)))
    (JS.or (JS.sub (nstop (chargeStop b)) (nstop (chargeStop a)))
       (JS.Fin (chargePrio (chargeType a) - chargePrio (chargeType b)))).

(** [plan.sort(compare)]: [Array.prototype.sort] is a stable sort; with a
    consistent comparator every stable sort returns the same array, here
    computed by insertion.  [a] stays in front of [b] unless
    [compare a b > 0]. *)
Fixpoint insert (a : ChargePlan) (l : list ChargePlan) : list ChargePlan :=
  match l with
  | [] => [a]
  | b :: l' =>
      if JS.gtb (compare a b) (JS.Fin 0) then b :: insert a l' else a :: l
  end.

Definition sort (plan : list ChargePlan) : list ChargePlan :=
  fold_right insert [] plan.

(** The loop of [consolidate()], entered at index [i] with [a = plan[i]] and
    [rest = plan[i+1..]]; the elements in front of [i] are final.  A merge
    removes [b] and stays at [i]; the other branches move on to [i+1]. *)
Fixpoint consolidate_from (a : ChargePlan) (rest : list ChargePlan)
  : list ChargePlan :=
  match rest with
  | [] => [a]
  | b :: rest' =>
      if JS.leb (nstart (chargeStart b)) (nstop (chargeStop a)) then
        if ChargeType_eqb (chargeType a) (chargeType b)
           || JS.leb (nstop (chargeStop b)) (nstop (chargeStop a))
        then
          (* Merge them *)
          let a1 :=
            if JS.gtb (nstop (chargeStop b)) (nstop (chargeStop a))
            then set_chargeStop a (chargeStop b) else a in
          consolidate_from (set_level a1 (Z.max (level a1) (level b))) rest'
        else if level b <=? level a then
          (* Push the next segment forward *)
          a :: consolidate_from (set_chargeStart b (chargeStop a)) rest'
        else
          (* Cut off the current segment *)
          set_chargeStop a (chargeStart b) :: consolidate_from b rest'
      else a :: consolidate_from b rest'
  end.

Definition consolidate (plan : list ChargePlan) : list ChargePlan :=
  match plan with
  | [] => []
  | a :: rest => consolidate_from a rest
  end.

(** [shift] of the second pass, for neighbours [a] and [b]. *)
Definition shiftOf (a b : ChargePlan) : JS.num :=
  JS.min
    (JS.sub (nstart (chargeStart b)) (nstop (chargeStop a)))
    (JS.add (JS.sub (nstart (chargeStart a)) (nstop (chargeStop a)))
       (JS.Fin 3600000)).

Definition shiftable (a b : ChargePlan) : bool :=
  JS.gtb (shiftOf a b) (JS.Fin 0)
  && JS.geb (JS.add (nstop (chargeStop a)) (shiftOf a b))
       (nstart (chargeStart b)).

Definition shifted (a b : ChargePlan) : ChargePlan :=
  set_chargeStart (set_chargeStop a (chargeStart b))
    (JS.newDate (JS.add (nstart (chargeStart a)) (shiftOf a b))).

(** The second pass.  Step [i] writes [plan[i]] only and reads [plan[i+1]]
    before step [i+1] touches it; the boolean is the flag [shifted]. *)
Fixpoint shiftPass (plan : list ChargePlan) : list ChargePlan * bool :=
  match plan with
  | a :: ((b :: _) as tl) =>
      let '(tl', s) := shiftPass tl in
      if shiftable a b then (shifted a b :: tl', true) else (a :: tl', s)
  | _ => (plan, false)
  end.

Definition cleanupPlan (plan : list ChargePlan) : list ChargePlan :=
  let p1 := consolidate (sort plan) in
  let '(p2, s) := shiftPass p1 in
  if s then consolidate p2 else p2.

(** *** Vocabulary of the statements about [cleanupPlan] *)

(** A nullable start or stop as the specification reads it: [null] is
    [-Infinity] for a start and [Infinity] for a stop, a date is its time. *)
Definition startOf (a : ChargePlan) : JS.num :=
  match chargeStart a with
  | None => JS.NegInf
  | Some t => JS.Fin t
  end.

Definition stopOf (a : ChargePlan) : JS.num :=
  match chargeStop a with
  | None => JS.PosInf
  | Some t => JS.Fin t
  end.

(** Ordered by [chargeStart] ascending. *)
Fixpoint orderedByStart (plan : list ChargePlan) : bool :=
  match plan with
  | a :: ((b :: _) as tl) => JS.leb (startOf a) (startOf b) && orderedByStart tl
  | _ => true
  end.

(** [segments[i].chargeStop <= segments[i+1].chargeStart] for every [i]. *)
Fixpoint nonOverlapping (plan : list ChargePlan) : bool :=
  match plan with
  | a :: ((b :: _) as tl) => JS.leb (stopOf a) (startOf b) && nonOverlapping tl
  | _ => true
  end.

(** The greatest level of a plan (of an empty plan: 0). *)
Definition maxLevel (plan : list ChargePlan) : Z :=
  fold_right (fun a m => Z.max (level a) m) 0 plan.

(** Every segment of [plan] has one of the levels [L]. *)
Definition levelsWithin (L : list Z) (plan : list ChargePlan) : Prop :=
  Forall (fun s => In (level s) L) plan.




(** [a] may stay in front of [b] in the sorted plan. *)
Definition precedes (a b : ChargePlan) : bool :=
  negb (JS.gtb (compare a b) (JS.Fin 0)).

(** The segments behind the one [consolidate()] is at, whose stop reads
    [stopA], cannot make it adopt a [null] start as its stop: either all of
    them have a start, or the next one reads as starting "now", stops no later
    than [stopA] (and is merged), and the same holds for the rest. *)
Inductive tame (stopA : JS.num) : list ChargePlan -> Prop :=
| tame_set (rest : list ChargePlan) :
    Forall (fun c => chargeStart c <> None) rest -> tame stopA rest
| tame_null (b : ChargePlan) (rest : list ChargePlan) :
    nstart (chargeStart b) = JS.NegInf ->
    JS.leb (nstop (chargeStop b)) stopA = true ->
    tame stopA rest -> tame stopA (b :: rest).

(** All segments behind the first have a start. *)
Definition tailSet (plan : list ChargePlan) : Prop :=
  match plan with
  | [] => True
  | _ :: tl => Forall (fun c => chargeStart c <> None) tl
  end.

(** No segment stops before it starts. *)
Definition forwardInTime (plan : list ChargePlan) : bool :=
  forallb (fun a => JS.leb (startOf a) (stopOf a)) plan.

(** What a merge never changes: the type and the comment of a segment. *)
Definition tagOf (a : ChargePlan) : ChargeType * string :=
  (chargeType a, comment a).

(** The calibration segment in front of two hourly segments. *)
Definition planWithOpenEnd : list ChargePlan :=
  [ mkChargePlan (Some 1572768000000) (Some 1572771600000) 70 routine
      "routine charge";
    mkChargePlan None None 100 calibrate "Charge calibration";
    mkChargePlan (Some 1572775200000) (Some 1572778800000) 90 fill "low price" ].

(** A segment lasts an hour or more: [nstart + 3600e3 <= nstop].  A segment
    without a start or without a stop does. *)
Definition lastsAnHour (a : ChargePlan) : bool :=
  JS.leb (JS.add (nstart (chargeStart a)) (JS.Fin 3600000))
    (nstop (chargeStop a)).

(** Two segments of the same charge type, or two segments that are apart:
    one stops before the other starts. *)
Definition compatible (a b : ChargePlan) : bool :=
  ChargeType_eqb (chargeType a) (chargeType b)
  || JS.ltb (nstop (chargeStop a)) (nstart (chargeStart b))
  || JS.ltb (nstop (chargeStop b)) (nstart (chargeStart a)).


(** Segments of different charge types neither overlap nor touch. *)
Definition typesApart (plan : list ChargePlan) : bool :=
  forallb (fun a => forallb (compatible a) plan) plan.


(** A segment stops after it starts. *)
Definition stopsLater (a : ChargePlan) : bool :=
  JS.ltb (nstart (chargeStart a)) (nstop (chargeStop a)).


(** *** Concrete plans *)

(** Milliseconds of 2019-11-03, [h]:[m] UTC. *)
Definition at_ (h m : Z) : Z := 1572739200000 + h * 3600000 + m * 60000.

Definition seg (start stop lvl : Z) (t : ChargeType) (c : string)
  : ChargePlan :=
  mkChargePlan (Some start) (Some stop) lvl t c.

(** A routine hour, a fill segment that outlasts it and a trip segment that
    outlasts both. *)
Definition planPushedPast : list ChargePlan :=
  [ seg (at_ 8 0) (at_ 9 0) 90 routine "routine charge";
    seg (at_ 8 10) (at_ 10 0) 50 fill "low price";
    seg (at_ 8 20) (at_ 11 0) 60 trip "upcoming trip" ].

(** Three half-hour segments in three consecutive hours. *)
Definition planThreeHalfHours : list ChargePlan :=
  [ seg (at_ 7 0) (at_ 7 30) 60 fill "low price";
    seg (at_ 8 0) (at_ 8 30) 70 routine "routine charge";
    seg (at_ 9 0) (at_ 10 0) 80 trip "upcoming trip" ].

(** The shift scenario of the specification (boundary scenario 6). *)
Definition planShiftScenario : list ChargePlan :=
  [ seg (at_ 7 0) (at_ 7 30) 60 fill "low price";
    seg (at_ 8 0) (at_ 9 0) 70 routine "routine charge" ].


(** Three half-hour segments of one type. *)
Definition planHalfHoursOneType : list ChargePlan :=
  [ seg (at_ 7 0) (at_ 7 30) 60 fill "low price";
    seg (at_ 8 0) (at_ 8 30) 70 fill "low price";
    seg (at_ 9 0) (at_ 10 0) 80 fill "low price" ].

(** Three overlapping segments of more than an hour, of two types. *)
Definition planLongMixed : list ChargePlan :=
  [ seg (at_ 2 0) (at_ 4 0) 60 trip "upcoming trip";
    seg (at_ 3 0) (at_ 4 40) 60 trip "upcoming trip";
    seg (at_ 2 40) (at_ 4 20) 50 routine "routine charge" ].

(** Two segments, the first of which stops when it starts. *)
Definition planZeroLength : list ChargePlan :=
  [ seg (at_ 8 0) (at_ 8 0) 50 trip "upcoming trip";
    seg (at_ 8 20) (at_ 8 40) 50 routine "routine charge" ].

End Plan.

(** ** Charge curve and [chargeDuration] *)

Module Curve.

(** A row of [charge_curve] joined with its [charge]: the seconds it took to
    gain the percent at [level], for one vehicle at one location. *)
Record ChargeCurveRow : Type := mkChargeCurveRow {
  vehicle_uuid : string;
  location_uuid : string;
  level : Z;
  duration : Z
}.

Definition rowsOf (rows : list ChargeCurveRow) (vehicleUUID locationUUID : string)
  : list ChargeCurveRow :=
  filter (fun r => String.eqb (vehicle_uuid r) vehicleUUID
                   && String.eqb (location_uuid r) locationUUID) rows.

(** Modelled from the spec: [getChargeCurve] of [db-interface], which is not
    part of the sources at hand.  [curve[l]] is the stored [duration] for
    level [l], with fallback to 100 if missing. *)
Definition getChargeCurve (rows : list ChargeCurveRow)
  (vehicleUUID locationUUID : string) (l : Z) : Z :=
  match find (fun r => level r =? l) (rowsOf rows vehicleUUID locationUUID) with
  | Some r => duration r
  | None => 100
  end.

(** The [for] loop of [chargeDuration], at [level] with [sum]; it runs
    [fuel] more iterations at most. *)
Fixpoint chargeDuration_loop (fuel : nat) (chargeCurve : Z -> Z)
  (level to : Z) (sum : Q) : Q :=
  match fuel with
  | O => sum
  | S fuel' =>
      if level <=? to then
        chargeDuration_loop fuel' chargeCurve (level + 1) to
          (sum + inject_Z (chargeCurve (Z.min 100 level))
                 * (if level <? to then 1 else 0.75))%Q
      else sum
  end.

(** [chargeDuration(vehicleUUID, locationUUID, from, to)], in milliseconds.
    Levels are integers, so [Math.ceil(level)] is [level] and the loop ends
    after [to - from + 1] iterations. *)
Definition chargeDuration (rows : list ChargeCurveRow)
  (vehicleUUID locationUUID : string) (from to : Z) : Q :=
  (chargeDuration_loop (Z.to_nat (to - from + 1))
     (getChargeCurve rows vehicleUUID locationUUID) from to 0 * 1000)%Q.

(** The sum of the specification:
    [sum over l = from..to of curve[l] * (l < to ? 1.0 : 0.75) * 1000]. *)
Definition levelsFromTo (from to : Z) : list Z :=
  map (fun k => from + Z.of_nat k) (seq 0 (Z.to_nat (to - from + 1))).

Definition specDuration (curve : Z -> Z) (from to : Z) : Q :=
  fold_right Qplus 0%Q
    (map (fun l => (inject_Z (curve l) * (if l <? to then 1 else 0.75) * 1000)%Q)
       (levelsFromTo from to)).

(** A curve learnt for 50..52 %, one minute per percent. *)
Definition rowsOneMinute : list ChargeCurveRow :=
  [ mkChargeCurveRow "v1" "home" 50 60;
    mkChargeCurveRow "v1" "home" 51 60;
    mkChargeCurveRow "v1" "home" 52 60;
    mkChargeCurveRow "v1" "home" 100 90 ].

End Curve.

(** ** Rows of the relational store *)

Module Schema.

(** [scheduled_trip] of a vehicle ([class Schedule]) *)
Record Schedule : Type := mkSchedule {
  trip_level : Z;
  trip_time : Z
}.

(** The columns of [vehicle] the planner and the trip state machine read. *)
Record DBVehicle : Type := mkDBVehicle {
  vehicle_uuid : string;
  location_uuid : option string;
  level : Z;
  odometer : Z;
  minimum_charge : Z;
  maximum_charge : Z;
  anxiety_level : Z;
  scheduled_trip : option Schedule;
  connected : bool;
  trip_id : option Z;
  charge_plan : option (list Plan.ChargePlan)
}.

Record DBLocation : Type := mkDBLocation {
  loc_uuid : string;
  loc_price_code : string
}.

Record DBPriceList : Type := mkDBPriceList {
  price_code : string;
  ts : Z;
  price : Z
}.

Record DBCurrentStats : Type := mkDBCurrentStats {
  stats_id : Z;
  stats_vehicle_uuid : string;
  stats_location_uuid : string;
  price_list_ts : option Z;
  level_charge_time : option Z;
  weekly_avg7_price : Z;
  weekly_avg21_price : Z;
  threshold : Z
}.

(** [price_list p JOIN location l ON (l.price_code = p.price_code)
    WHERE location_uuid = $1]; [location_uuid] is the key of [location]. *)
Definition my_price_list (locations : list DBLocation)
  (price_list : list DBPriceList) (locationUUID : string) : list DBPriceList :=
  match find (fun l => String.eqb (loc_uuid l) locationUUID) locations with
  | Some l =>
      filter (fun p => String.eqb (price_code p) (loc_price_code l)) price_list
  | None => []
  end.

End Schema.

(** ** The planner: [generateChargePlan] and [refreshVehicleChargePlan] *)

Module Planner.

Import Plan Schema.

(** Numbers of the planner are rationals: the doubles of the source, read
    exactly. *)

(** Truthiness of a nullable number: [null], [undefined] and [0] are falsy. *)
Definition truthyQ (x : option Q) : bool :=
  match x with
  | Some q => negb (Qeq_bool q 0)
  | None => false
  end.

Definition truthyZ (x : option Z) : bool :=
  match x with
  | Some z => negb (z =? 0)
  | None => false
  end.

Definition Qltb (a b : Q) : bool := negb (Qle_bool b a).

(** [Math.round(x)] *)
Definition round (x : Q) : Z := Qfloor (x + (1 # 2)).

(** The time of [new Date(x)]: [x] cut to an integer. *)
Definition dateOf (x : Q) : Z :=
  if Qle_bool 0 x then Qfloor x else Qceiling x.

Definition TRIP_TOPUP_MARGIN : Z := 15 * 60000.

(** What [refreshVehicleChargePlan] reads besides the vehicle row: the
    clock ([Date.now()] and [NOW()], one instant for the whole replan), the
    tables, the row [currentStats] returns and the row of the prediction
    query ([charge], and [before] in epoch seconds). *)
Record Env : Type := mkEnv {
  now : Z;
  charge_curve : list Curve.ChargeCurveRow;
  locations : list DBLocation;
  price_list : list DBPriceList;
  stats : option DBCurrentStats;
  guess_charge : option Q;
  guess_before : option Q
}.

Definition chargeDuration (env : Env) (v : DBVehicle) (loc : string)
  (from to : Z) : Q :=
  Curve.chargeDuration (charge_curve env) (vehicle_uuid v) loc from to.

(** [ORDER BY price].  The database is free in the order of rows of equal
    price; here they stay in table order. *)
Fixpoint insertByPrice (p : DBPriceList) (l : list DBPriceList)
  : list DBPriceList :=
  match l with
  | [] => [p]
  | q :: l' => if price q <? price p then q :: insertByPrice p l' else p :: l
  end.

(** The price map of [generateChargePlan]: [ts >= NOW() - interval '1 hour'
    AND ts < $2 ORDER BY price], with [$2 = new Date(before)]. *)
Definition priceMap (env : Env) (loc : string) (before : Q)
  : list DBPriceList :=
  fold_right insertByPrice []
    (filter (fun p => (now env - 3600000 <=? ts p) && (ts p <? dateOf before))
       (my_price_list (locations env) (price_list env) loc)).

(** [maxPrice && price.price > maxPrice] *)
Definition overMaxPrice (maxPrice : option Q) (p : DBPriceList) : bool :=
  truthyQ maxPrice
  && match maxPrice with
     | Some m => Qltb m (inject_Z (price p))
     | None => false
     end.

(** The loop over the price map, with [timeLeft]. *)
Fixpoint planPrices (nowMs : Z) (before : Q) (maxPrice : option Q)
  (batteryLevel : Z) (chargeType : ChargeType) (comment : string)
  (prices : list DBPriceList) (timeLeft : Q) : list ChargePlan :=
  match prices with
  | [] => []
  | p :: rest =>
      if Qle_bool timeLeft 0 then []
      else if overMaxPrice maxPrice p then []
      else
        let start := if ts p <? nowMs then nowMs else ts p in
        let fullHour := ts p + 3600000 in
        let end_ :=
          Qmin (Qmin (inject_Z start + timeLeft) before) (inject_Z fullHour) in
        let chargeStart := if ts p <? start then ts p else start in
        mkChargePlan (Some chargeStart) (Some (dateOf end_)) batteryLevel
          chargeType comment
        :: planPrices nowMs before maxPrice batteryLevel chargeType comment
             rest (timeLeft - (end_ - inject_Z start))
  end.

Definition generateChargePlan (env : Env) (v : DBVehicle) (loc : string)
  (batteryLevel : Z) (chargeType : ChargeType) (comment : string)
  (before maxPrice : option Q) : list ChargePlan :=
  let timeNeeded := chargeDuration env v loc (level v) batteryLevel in
  (* before = before || 10e13 *)
  let before :=
    match before with
    | Some b => if truthyQ before then b else inject_Z (10 ^ 14)
    | None => inject_Z (10 ^ 14)
    end in
  if Qltb 0 timeNeeded then
    match priceMap env loc before with
    | [] =>
        (* no prices? then just charge *)
        [ mkChargePlan None (Some (dateOf (inject_Z (now env) + timeNeeded)))
            batteryLevel routine comment ]
    | prices =>
        planPrices (now env) before maxPrice batteryLevel chargeType comment
          prices timeNeeded
    end
  else [].

(** [before || 10e13], the limit [generateChargePlan] plans up to. *)
Definition horizon (before : option Q) : Q :=
  match before with
  | Some b => if truthyQ before then b else inject_Z (10 ^ 14)
  | None => inject_Z (10 ^ 14)
  end.

(** The plan [refreshVehicleChargePlan] starts from: the segments of the
    stored plan without a start, as long as the level is below
    [minimum_charge + 1].  [ChargePlanToJS] rebuilds the dates of a stored
    segment and leaves its content as it is. *)
Definition ChargePlanToJS (f : ChargePlan) : ChargePlan := f.

Definition seedPlan (v : DBVehicle) : list ChargePlan :=
  match charge_plan v with
  | Some cp =>
      map ChargePlanToJS
        (filter (fun f =>
                   match chargeStart f with None => true | Some _ => false end
                   && (level v <? minimum_charge v + 1)) cp)
  | None => []
  end.

(** [SELECT MAX(level) ... WHERE a.vehicle_uuid = $1 AND a.location_uuid = $2] *)
Definition max_level (env : Env) (v : DBVehicle) (loc : string) : option Z :=
  fold_right
    (fun r m => match m with
                | Some x => Some (Z.max (Curve.level r) x)
                | None => Some (Curve.level r)
                end)
    None (Curve.rowsOf (charge_curve env) (vehicle_uuid v) loc).

(** [vehicle.level < vehicle.maximum_charge && (maxLevel || 0) < 100] *)
Definition needsCalibration (env : Env) (v : DBVehicle) (loc : string) : bool :=
  (level v <? maximum_charge v)
  && ((if truthyZ (max_level env v loc)
       then match max_level env v loc with Some m => m | None => 0 end
       else 0) <? 100).

Definition calibrationSegment : ChargePlan :=
  mkChargePlan None None 100 calibrate "Charge calibration".

Definition emergencySegment (env : Env) (v : DBVehicle) (loc : string)
  : ChargePlan :=
  let timeNeeded := chargeDuration env v loc (level v) (minimum_charge v) in
  mkChargePlan None (Some (dateOf (inject_Z (now env) + timeNeeded)))
    (minimum_charge v) minimum "emergency charge".

(** The block "Emergency charge up to minimum level", on the plan so far. *)
Definition emergencyStep (env : Env) (v : DBVehicle) (loc : string)
  (plan : list ChargePlan) : list ChargePlan :=
  if level v <? minimum_charge v then [emergencySegment env v loc] else plan.

(** The block [if (vehicle.level <= vehicle.maximum_charge)]: routine and
    preferred charging, or the learning segment.  Returns the segments it
    pushes and [disconnectTime]. *)
Definition routineStep (env : Env) (v : DBVehicle) (loc : string)
  : list ChargePlan * Q :=
  if level v <=? maximum_charge v then
    let learningSegment :=
      mkChargePlan None None (maximum_charge v) fill "learning" in
    match stats env with
    | None => ([learningSegment], 0%Q)
    | Some st =>
        if negb (truthyZ (level_charge_time st)) then ([learningSegment], 0%Q)
        else
          match guess_before env, guess_charge env with
          | Some gb, Some gc =>
              if negb (truthyQ (Some gb)) || negb (truthyQ (Some gc))
              then ([learningSegment], 0%Q)
              else
                let minimumLevel :=
                  Z.min (maximum_charge v)
                    (round (inject_Z (minimum_charge v) + gc + 5)) in
                let before := (gb * 1000)%Q in
                let p :=
                  generateChargePlan env v loc minimumLevel routine
                    "routine charge" (Some before) None in
                let q :=
                  if negb (anxiety_level v =? 0) then
                    let anxietyLevel :=
                      if 1 <? anxiety_level v then maximum_charge v
                      else round (inject_Z minimumLevel
                                  + inject_Z (maximum_charge v - minimumLevel) / 2) in
                    generateChargePlan env v loc anxietyLevel prefered
                      "charge setting" (Some before) None
                  else [] in
                (p ++ q, before)
          | _, _ => ([learningSegment], 0%Q)
          end
    end
  else ([], 0%Q).

(** The block "Trip charging", given [disconnectTime] so far. *)
Definition tripStep (env : Env) (v : DBVehicle) (loc : string)
  (disconnectTime : Q) : list ChargePlan * Q :=
  match scheduled_trip v with
  | None => ([], disconnectTime)
  | Some sched =>
      if trip_time sched + 3600000 <? now env then
        (* remove trip 1 hour after the fact *)
        ([], disconnectTime)
      else if trip_time sched - 36 * 3600000 <? now env then
        let departLevel := trip_level sched in
        let prepareLevel :=
          Z.max (level v) (Z.min departLevel (maximum_charge v)) in
        let topupTime :=
          if prepareLevel <? departLevel
          then chargeDuration env v loc prepareLevel departLevel else 0%Q in
        let topupStart :=
          (inject_Z (trip_time sched) - inject_Z TRIP_TOPUP_MARGIN - topupTime)%Q in
        let p :=
          generateChargePlan env v loc prepareLevel Plan.trip "upcoming trip"
            (Some topupStart) None in
        let topup :=
          if Qltb 0 topupTime
          then [ mkChargePlan (Some (dateOf topupStart)) None departLevel
                   Plan.trip "topping up before trip" ]
          else [] in
        (p ++ topup, Qmax disconnectTime topupStart)
      else ([], disconnectTime)
  end.

(** The block "Low price fill charging". *)
Definition thresholdPrice (st : DBCurrentStats) : Q :=
  let averagePrice :=
    (inject_Z (weekly_avg7_price st)
     + (inject_Z (weekly_avg7_price st) - inject_Z (weekly_avg21_price st)) / 2)%Q in
  (averagePrice * inject_Z (threshold st) / 100)%Q.

Definition fillStep (env : Env) (v : DBVehicle) (loc : string)
  (disconnectTime : Q) : list ChargePlan :=
  match stats env with
  | Some st =>
      generateChargePlan env v loc (maximum_charge v) fill "low price"
        (Some disconnectTime) (Some (thresholdPrice st))
  | None => []
  end.

(** The sub-plans pushed after the emergency block: routine and preferred
    (or learning), trip, low-price fill. *)
Definition laterSubPlans (env : Env) (v : DBVehicle) (loc : string)
  : list ChargePlan :=
  let '(routinePart, disconnectTime) := routineStep env v loc in
  let '(tripPart, disconnectTime) := tripStep env v loc disconnectTime in
  routinePart ++ tripPart ++ fillStep env v loc disconnectTime.

(** The plan handed to [cleanupPlan]. *)
Definition accumulatedPlan (env : Env) (v : DBVehicle) (loc : string)
  : list ChargePlan :=
  let plan := seedPlan v in
  if needsCalibration env v loc then [calibrationSegment]
  else emergencyStep env v loc plan ++ laterSubPlans env v loc.

(** [refreshVehicleChargePlan(vehicle)]: [None] at an unknown location, where
    the stored plan is not written; otherwise the value written to
    [vehicle.charge_plan]. *)
Definition refreshVehicleChargePlan (env : Env) (v : DBVehicle)
  : option (option (list ChargePlan)) :=
  match location_uuid v with
  | None => None
  | Some loc =>
      let plan := accumulatedPlan env v loc in
      let plan := match plan with [] => plan | _ => cleanupPlan plan end in
      Some (match plan with [] => None | _ => Some plan end)
  end.

(** The planner is still learning: no statistics, no charge time in them,
    or no prediction ([!stats || !stats.level_charge_time], then
    [!guess.before || !guess.charge]). *)
Definition isLearning (env : Env) : bool :=
  match stats env with
  | None => true
  | Some st =>
      negb (truthyZ (level_charge_time st))
      || negb (truthyQ (guess_before env))
      || negb (truthyQ (guess_charge env))
  end.

Definition learningSegment (v : DBVehicle) : ChargePlan :=
  mkChargePlan None None (maximum_charge v) fill "learning".

(** *** Concrete replans *)

(** A curve for "v1" at "home" that reaches 100 %. *)
Definition curveCalibrated : list Curve.ChargeCurveRow :=
  [ Curve.mkChargeCurveRow "v1" "home" 50 60;
    Curve.mkChargeCurveRow "v1" "home" 100 90 ].

(** A curve that stops at 85 %. *)
Definition curveUncalibrated : list Curve.ChargeCurveRow :=
  [ Curve.mkChargeCurveRow "v1" "home" 84 60;
    Curve.mkChargeCurveRow "v1" "home" 85 65 ].

Definition statsLearning : DBCurrentStats :=
  mkDBCurrentStats 1 "v1" "home" None None 0 0 100.

(** 08:00, no prices, statistics without a charge time yet. *)
Definition envNoPrices : Env :=
  mkEnv (at_ 8 0) curveCalibrated [mkDBLocation "home" "SE3"] []
    (Some statsLearning) None None.

Definition envUncalibrated : Env :=
  mkEnv (at_ 8 0) curveUncalibrated [mkDBLocation "home" "SE3"] []
    (Some statsLearning) None None.

(** 08:00, three hourly prices from 08:00 on. *)
Definition envPrices : Env :=
  mkEnv (at_ 8 0) curveCalibrated [mkDBLocation "home" "SE3"]
    [ mkDBPriceList "SE3" (at_ 8 0) 52000;
      mkDBPriceList "SE3" (at_ 9 0) 31000;
      mkDBPriceList "SE3" (at_ 10 0) 47000 ]
    (Some statsLearning) None None.

(** The emergency segment of an earlier replan, still in the stored plan. *)
Definition staleEmergency : ChargePlan :=
  mkChargePlan None (Some (at_ 7 45)) 50 minimum "emergency charge".

(** At home with 20 %, minimum 50 %, maximum 90 %. *)
Definition vehicleLow : DBVehicle :=
  mkDBVehicle "v1" (Some "home"%string) 20 120000 50 90 0 None true None
    (Some [staleEmergency]).

(** At home with 80 %, maximum 90 % (boundary scenario 4). *)
Definition vehicleAt80 : DBVehicle :=
  mkDBVehicle "v1" (Some "home"%string) 80 120000 50 90 0 None true None None.

End Planner.

(** ** The statistics engine: [createNewStats] and [currentStats] *)

Module Stats.

Import Schema.

(** *** The threshold simulation of [createNewStats]

    Numbers are rationals, the doubles of the source read exactly.  The
    simulation is modelled for a [level_charge_time] that is a number other
    than 0; with [null] or 0 the source computes with [NaN] and selects no
    candidate (see [createNewStats] below). *)

Record HistoryHour : Type := mkHistoryHour {
  hour : Z;
  fraction : Q;
  hour_price : Q;
  hour_threshold : Q
}.

(** [needed] is [null] for the last connection of the vehicle; in arithmetic
    [null] counts as 0. *)
Record HistoryMap : Type := mkHistoryMap {
  connected_id : Z;
  start_level : Z;
  needed : option Z;
  offsite : bool;
  hours : list HistoryHour
}.

Definition neededQ (e : HistoryMap) : Q :=
  match needed e with
  | Some n => inject_Z n
  | None => 0%Q
  end.

(** A row of the history query. *)
Record HistoryRow : Type := mkHistoryRow {
  row_connected_id : Z;
  row_location_uuid : string;
  row_start_level : Z;
  row_needed : option Z;
  row_hour : Z;
  row_fraction : Q;
  row_price : Q;
  row_threshold : Q
}.

(** The loop [for (const h of history)]: rows grouped by [connected_id], with
    the group under construction in front of [done] (latest first); hours of
    another location are left out. *)
Definition pushRow (locationUUID : string) (acc : list HistoryMap)
  (h : HistoryRow) : list HistoryMap :=
  let here := String.eqb (row_location_uuid h) locationUUID in
  let hourOf :=
    mkHistoryHour (row_hour h) (row_fraction h) (row_price h) (row_threshold h) in
  let acc :=
    match acc with
    | last :: _ =>
        if connected_id last =? row_connected_id h then acc
        else mkHistoryMap (row_connected_id h) (row_start_level h)
               (row_needed h) (negb here) [] :: acc
    | [] =>
        [mkHistoryMap (row_connected_id h) (row_start_level h) (row_needed h)
           (negb here) []]
    end in
  match acc with
  | last :: done =>
      if here
      then mkHistoryMap (connected_id last) (start_level last) (needed last)
             (offsite last) (hours last ++ [hourOf]) :: done
      else acc
  | [] => acc
  end.

Definition buildHistoryMap (locationUUID : string) (history : list HistoryRow)
  : list HistoryMap :=
  rev (fold_left (pushRow locationUUID) history []).

Definition Qltb (a b : Q) : bool := negb (Qle_bool b a).

(** [thresholdList]: the thresholds of all hours, later connections first,
    without repetitions, ascending. *)
Fixpoint insertQ (x : Q) (l : list Q) : list Q :=
  match l with
  | [] => [x]
  | y :: l' => if Qltb y x then y :: insertQ x l' else x :: l
  end.

Fixpoint uniqueQ (seen l : list Q) : list Q :=
  match l with
  | [] => []
  | x :: l' =>
      if existsb (Qeq_bool x) seen then uniqueQ seen l'
      else x :: uniqueQ (x :: seen) l'
  end.

Definition thresholdList (historyMap : list HistoryMap) : list Q :=
  fold_right insertQ []
    (uniqueQ []
       (fold_left (fun p c => map hour_threshold (hours c) ++ p) historyMap [])).

(** The variables of one simulation run.  [failed] records that the loop
    over the history was left by [break]. *)
Record Sim : Type := mkSim {
  lvl : Q;
  totalCharged : Q;
  totalCost : Q;
  failed : bool
}.

Definition initSim : Sim := mkSim 0%Q 0%Q 0%Q false.

Definition set_lvl (s : Sim) (l : Q) : Sim :=
  mkSim l (totalCharged s) (totalCost s) (failed s).

Section Simulation.

Variables (minimum_charge maximum_charge : Z) (level_charge_time : Q).

(** The candidate threshold *)
Variable t : Q.

Definition neededLevel (e : HistoryMap) : Q :=
  Qmin (inject_Z maximum_charge)
    (Qmax (inject_Z minimum_charge)
       (inject_Z minimum_charge + neededQ e * (11 # 10))%Q).

(** One turn of the [while] loop, for hour [h]. *)
Definition chargeHour (e : HistoryMap) (s : Sim) (h : HistoryHour) : Sim :=
  let charge :=
    if Qle_bool (hour_threshold h) t then (inject_Z maximum_charge - lvl s)%Q
    else if Qltb (lvl s) (neededLevel e) then (neededLevel e - lvl s)%Q
    else 0%Q in
  if Qltb 0%Q charge then
    let chargeTime :=
      Qmin (3600 * fraction h)%Q (charge * level_charge_time)%Q in
    let newLevel :=
      Qmin (inject_Z maximum_charge)
        (lvl s + chargeTime / level_charge_time)%Q in
    mkSim newLevel (totalCharged s + (newLevel - lvl s))%Q
      (totalCost s + chargeTime / 3600 * hour_price h)%Q (failed s)
  else s.

(** [hours.sort((a, b) => a.threshold - b.threshold)], a stable sort: hours
    of equal threshold stay in the order they have.  [h] stays in front of
    [g] unless the threshold of [g] is lower. *)
Fixpoint insertByThreshold (h : HistoryHour) (l : list HistoryHour)
  : list HistoryHour :=
  match l with
  | [] => [h]
  | g :: l' =>
      if Qltb (hour_threshold g) (hour_threshold h)
      then g :: insertByThreshold h l' else h :: l
  end.

Definition sortByThreshold (l : list HistoryHour) : list HistoryHour :=
  fold_right insertByThreshold [] l.

(** The [while (hours.length > 0)] loop: hours are taken in time order as
    long as the level is below [minimum_charge]; at the first turn with the
    level at [minimum_charge] or above the remaining hours are sorted by
    threshold once, and taken in that order from then on. *)
Fixpoint chargeHours (e : HistoryMap) (hs : list HistoryHour) (s : Sim) : Sim :=
  match hs with
  | [] => s
  | h :: rest =>
      if Qle_bool (inject_Z minimum_charge) (lvl s)
      then fold_left (chargeHour e) (sortByThreshold hs) s
      else chargeHours e rest (chargeHour e s h)
  end.

(** The condition of the [break]: the decremented level is below the level
    the connection really started with and below half of [minimum_charge]. *)
Definition belowTheLine (e : HistoryMap) (l : Q) : bool :=
  Qltb l (inject_Z (start_level e))
  && Qltb l (inject_Z minimum_charge / 2)%Q.

(** The loop over [historyMap], from entry [e :: rest] on, with [prev] the
    entry in front of it ([None] at [i = 0]). *)
Fixpoint simulate (prev : option HistoryMap) (entries : list HistoryMap)
  (s : Sim) : Sim :=
  match entries with
  | [] => s
  | e :: rest =>
      if failed s then s
      else
        let reset :=
          match prev with
          | None => true
          | Some p => offsite p
          end in
        if reset then
          (* We charged somewhere else on the way, so reset simulated battery lvl *)
          simulate (Some e) rest
            (chargeHours e (hours e) (set_lvl s (inject_Z (start_level e))))
        else
          let l :=
            (lvl s - match prev with Some p => neededQ p | None => 0 end)%Q in
          if belowTheLine e l then
            (* half of minimum charge is where I draw the line *)
            mkSim (-1)%Q (totalCharged s) (totalCost s) true
          else simulate (Some e) rest (chargeHours e (hours e) (set_lvl s l))
  end.

End Simulation.

(** [totalCost / totalCharged] as a double: a number, an infinity or [NaN]. *)
Inductive ratio : Type :=
| RNaN
| RNegInf
| RFin (q : Q)
| RPosInf.

Definition divide (a b : Q) : ratio :=
  if Qeq_bool b 0%Q then
    if Qeq_bool a 0%Q then RNaN else if Qltb a 0%Q then RNegInf else RPosInf
  else RFin (a / b)%Q.

Definition ratio_ltb (a b : ratio) : bool :=
  match a, b with
  | RNaN, _ | _, RNaN => false
  | RFin x, RFin y => Qltb x y
  | RNegInf, RNegInf | RPosInf, RPosInf => false
  | RNegInf, _ | _, RPosInf => true
  | RPosInf, _ | _, RNegInf => false
  end.

(** The body of [for (const t of thresholdList)] on [(bestCost, threshold)]. *)
Definition consider (minimum_charge maximum_charge : Z) (level_charge_time : Q)
  (historyMap : list HistoryMap) (best : ratio * Q) (t : Q) : ratio * Q :=
  let s :=
    simulate minimum_charge maximum_charge level_charge_time t None
      historyMap initSim in
  let f := divide (totalCost s) (totalCharged s) in
  if Qltb (inject_Z minimum_charge) (lvl s) && ratio_ltb f (fst best)
  then (f, t) else best.

(** The threshold [createNewStats] ends with, from [threshold = 1]. *)
Definition selectThreshold (minimum_charge maximum_charge : Z)
  (level_charge_time : Q) (historyMap : list HistoryMap) : Q :=
  snd (fold_left
         (consider minimum_charge maximum_charge level_charge_time historyMap)
         (thresholdList historyMap) (RPosInf, 1%Q)).

(** *** The store and [currentStats] *)

Record Store : Type := mkStore {
  locations : list DBLocation;
  price_list : list DBPriceList;
  current_stats : list DBCurrentStats
}.

(** [SELECT MAX(ts) FROM price_list p JOIN location l ON (l.price_code =
    p.price_code) WHERE l.location_uuid = ...]; [NULL] without a price point. *)
Definition latest_price_ts (st : Store) (locationUUID : string) : option Z :=
  fold_right
    (fun p m => match m with
                | Some x => Some (Z.max (ts p) x)
                | None => Some (ts p)
                end)
    None (my_price_list (locations st) (price_list st) locationUUID).

Definition isFor (vehicleUUID locationUUID : string) (r : DBCurrentStats)
  : bool :=
  String.eqb (stats_vehicle_uuid r) vehicleUUID
  && String.eqb (stats_location_uuid r) locationUUID.

(** [FROM current_stats s WHERE vehicle_uuid=$1 AND location_uuid=$2 ORDER BY
    stats_id DESC LIMIT 1] *)
Definition newestStats (rows : list DBCurrentStats)
  (vehicleUUID locationUUID : string) : option DBCurrentStats :=
  fold_right
    (fun r best =>
       if isFor vehicleUUID locationUUID r then
         match best with
         | Some b => if stats_id b <? stats_id r then Some r else Some b
         | None => Some r
         end
       else best)
    None rows.

(** The column [fresh]: [s.price_list_ts = (SELECT MAX(ts) ...)], which is
    [NULL], hence falsy, as soon as one side is [NULL]. *)
Definition fresh (st : Store) (r : DBCurrentStats) : bool :=
  match price_list_ts r, latest_price_ts st (stats_location_uuid r) with
  | Some a, Some b => a =? b
  | _, _ => false
  end.

(** What the other queries of [createNewStats] return: the median charge
    time, the price averages, the history rows and the charge levels of the
    vehicle. *)
Record StatsQueries : Type := mkStatsQueries {
  q_level_charge_time : option Q;
  q_avg7 : option Q;
  q_avg21 : option Q;
  q_history : list HistoryRow;
  q_minimum_charge : Z;
  q_maximum_charge : Z
}.

(** [Math.round(x)], with [Math.round(null) = 0] *)
Definition roundOpt (x : option Q) : Z :=
  match x with
  | Some q => Qfloor (q + (1 # 2))
  | None => 0
  end.

(** [stats_id] is a serial column: a new row gets an id above all ids of
    the table. *)
Definition next_stats_id (rows : list DBCurrentStats) : Z :=
  fold_right (fun r m => Z.max (stats_id r) m) 0 rows + 1.

(** [createNewStats(vehicle_uuid, location_uuid)]: the threshold is the
    selected one if there is a history (without a usable
    [level_charge_time] every simulated level is [NaN] and no candidate is
    selected, the threshold stays 1); the row is inserted and returned. *)
Definition createNewStats (st : Store) (q : StatsQueries)
  (vehicleUUID locationUUID : string) : Store * DBCurrentStats :=
  let historyMap := buildHistoryMap locationUUID (q_history q) in
  let threshold :=
    match historyMap, q_level_charge_time q with
    | _ :: _, Some lct =>
        if Qeq_bool lct 0 then 1%Q
        else selectThreshold (q_minimum_charge q) (q_maximum_charge q) lct
               historyMap
    | _, _ => 1%Q
    end in
  let row :=
    mkDBCurrentStats (next_stats_id (current_stats st)) vehicleUUID locationUUID
      (latest_price_ts st locationUUID)
      (Some (roundOpt (q_level_charge_time q)))
      (roundOpt (q_avg7 q)) (roundOpt (q_avg21 q))
      (roundOpt (Some (threshold * 100)%Q)) in
  (mkStore (locations st) (price_list st) (current_stats st ++ [row]), row).

(** [currentStats(vehicle_uuid, location_uuid)] *)
Definition currentStats (st : Store) (q : StatsQueries)
  (vehicleUUID locationUUID : string) : Store * DBCurrentStats :=
  match newestStats (current_stats st) vehicleUUID locationUUID with
  | Some r =>
      if fresh st r then (st, r)
      else createNewStats st q vehicleUUID locationUUID
  | None => createNewStats st q vehicleUUID locationUUID
  end.

(** *** Concrete histories and stores *)




End Stats.

(** ** The threshold simulation in the numbers of the source

    The simulation of [createNewStats] once more, this time on binary64
    numbers, the [number] of JavaScript: every sum, product, quotient and
    comparison is the one the source computes.  The rational reading of
    [Stats] is the same loop with exact arithmetic. *)

Module Doubles.

(** [Math.min(a, b)] and [Math.max(a, b)]: [NaN] as soon as one side is
    [NaN]; [-0] is below [+0]. *)
Definition min (a b : float) : float :=
  if is_nan a || is_nan b then nan
  else if (a <? b)%float then a
  else if (b <? a)%float then b
  else match classify a with FloatClass.NZero => a | _ => b end.

Definition max (a b : float) : float :=
  if is_nan a || is_nan b then nan
  else if (b <? a)%float then a
  else if (a <? b)%float then b
  else match classify a with FloatClass.PZero => a | _ => b end.

Record HistoryHour : Type := mkHistoryHour {
  hour : Z;
  fraction : float;
  price : float;
  threshold : float
}.

(** [needed] is [null] for the last connection of the vehicle. *)
Record HistoryMap : Type := mkHistoryMap {
  connected_id : Z;
  start_level : float;
  needed : option float;
  offsite : bool;
  hours : list HistoryHour
}.

(** [needed] in arithmetic, where [null] counts as 0. *)
Definition neededNum (e : HistoryMap) : float :=
  match needed e with
  | Some n => n
  | None => 0%float
  end.

(** A row of the history query. *)
Record HistoryRow : Type := mkHistoryRow {
  row_connected_id : Z;
  row_location_uuid : string;
  row_start_level : float;
  row_needed : option float;
  row_hour : Z;
  row_fraction : float;
  row_price : float;
  row_threshold : float
}.

(** The loop [for (const h of history)], as in [Stats.pushRow]. *)
Definition pushRow (locationUUID : string) (acc : list HistoryMap)
  (h : HistoryRow) : list HistoryMap :=
  let here := String.eqb (row_location_uuid h) locationUUID in
  let hourOf :=
    mkHistoryHour (row_hour h) (row_fraction h) (row_price h) (row_threshold h) in
  let acc :=
    match acc with
    | last :: _ =>
        if connected_id last =? row_connected_id h then acc
        else mkHistoryMap (row_connected_id h) (row_start_level h)
               (row_needed h) (negb here) [] :: acc
    | [] =>
        [mkHistoryMap (row_connected_id h) (row_start_level h) (row_needed h)
           (negb here) []]
    end in
  match acc with
  | last :: done =>
      if here
      then mkHistoryMap (connected_id last) (start_level last) (needed last)
             (offsite last) (hours last ++ [hourOf]) :: done
      else acc
  | [] => acc
  end.

Definition buildHistoryMap (locationUUID : string) (history : list HistoryRow)
  : list HistoryMap :=
  rev (fold_left (pushRow locationUUID) history []).

(** [.filter((v, i, a) => a.indexOf(v) === i)]: the first occurrence of every
    value; [indexOf] compares with [===], so a [NaN] is not kept at all. *)
Fixpoint firstOccurrences (seen l : list float) : list float :=
  match l with
  | [] => []
  | x :: l' =>
      if existsb (fun y => (y =? x)%float) seen then firstOccurrences seen l'
      else if (x =? x)%float then x :: firstOccurrences (x :: seen) l'
      else firstOccurrences seen l'
  end.

(** [.sort((a, b) => Number(a) - Number(b))]: [x] stays in front of [y]
    unless [x - y > 0]. *)
Fixpoint insertNumber (x : float) (l : list float) : list float :=
  match l with
  | [] => [x]
  | y :: l' => if (0 <? x - y)%float then y :: insertNumber x l' else x :: l
  end.

Definition thresholdList (historyMap : list HistoryMap) : list float :=
  fold_right insertNumber []
    (firstOccurrences []
       (fold_left (fun p c => map threshold (hours c) ++ p) historyMap [])).

(** The variables of one simulation run.  [failed] records that the loop
    over the history was left by [break]. *)
Record Sim : Type := mkSim {
  lvl : float;
  totalCharged : float;
  totalCost : float;
  failed : bool
}.

Definition initSim : Sim := mkSim 0 0 0 false.

Definition set_lvl (s : Sim) (l : float) : Sim :=
  mkSim l (totalCharged s) (totalCost s) (failed s).

Section Simulation.

(** [charge_levels.minimum_charge], [charge_levels.maximum_charge] and
    [level_charge_time]; a [level_charge_time] of [null] counts as 0 in the
    two expressions that use it. *)
Variables (minimum_charge maximum_charge level_charge_time : float).

(** The candidate threshold *)
Variable t : float.

(** [historyMap[i].needed * 1.1], with the binary64 number nearest to 1.1 *)
Definition neededLevel (e : HistoryMap) : float :=
  min maximum_charge
    (max minimum_charge
       (minimum_charge + neededNum e * 0x1.199999999999ap+0)%float).

(** One turn of the [while] loop, for hour [h]. *)
Definition chargeHour (e : HistoryMap) (s : Sim) (h : HistoryHour) : Sim :=
  let charge :=
    if (threshold h <=? t)%float then (maximum_charge - lvl s)%float
    else if (lvl s <? neededLevel e)%float then (neededLevel e - lvl s)%float
    else 0%float in
  if (0 <? charge)%float then
    let chargeTime :=
      min (3600 * fraction h)%float (charge * level_charge_time)%float in
    let newLevel :=
      min maximum_charge (lvl s + chargeTime / level_charge_time)%float in
    mkSim newLevel (totalCharged s + (newLevel - lvl s))%float
      (totalCost s + chargeTime / 3600 * price h)%float (failed s)
  else s.

(** [hours.sort((a, b) => a.threshold - b.threshold)], a stable sort. *)
Fixpoint insertByThreshold (h : HistoryHour) (l : list HistoryHour)
  : list HistoryHour :=
  match l with
  | [] => [h]
  | g :: l' =>
      if (0 <? threshold h - threshold g)%float
      then g :: insertByThreshold h l' else h :: l
  end.

Definition sortByThreshold (l : list HistoryHour) : list HistoryHour :=
  fold_right insertByThreshold [] l.

(** The [while (hours.length > 0)] loop: at the first turn with the level at
    [minimum_charge] or above the remaining hours are sorted by threshold
    once. *)
Fixpoint chargeHours (e : HistoryMap) (hs : list HistoryHour) (s : Sim) : Sim :=
  match hs with
  | [] => s
  | h :: rest =>
      if (minimum_charge <=? lvl s)%float
      then fold_left (chargeHour e) (sortByThreshold hs) s
      else chargeHours e rest (chargeHour e s h)
  end.

(** The loop over [historyMap], from entry [e :: rest] on, with [prev] the
    entry in front of it ([None] at [i = 0]). *)
Fixpoint simulate (prev : option HistoryMap) (entries : list HistoryMap)
  (s : Sim) : Sim :=
  match entries with
  | [] => s
  | e :: rest =>
      if failed s then s
      else
        let reset :=
          match prev with
          | None => true
          | Some p => offsite p
          end in
        if reset then
          (* We charged somewhere else on the way, so reset simulated battery lvl *)
          simulate (Some e) rest (chargeHours e (hours e) (set_lvl s (start_level e)))
        else
          let l :=
            (lvl s - match prev with Some p => neededNum p | None => 0 end)%float in
          if (l <? start_level e)%float && (l <? minimum_charge / 2)%float then
            (* half of minimum charge is where I draw the line *)
            mkSim (-1) (totalCharged s) (totalCost s) true
          else simulate (Some e) rest (chargeHours e (hours e) (set_lvl s l))
  end.

End Simulation.

(** The body of [for (const t of thresholdList)] on [(bestCost, threshold)]. *)
Definition consider (minimum_charge maximum_charge level_charge_time : float)
  (historyMap : list HistoryMap) (best : float * float) (t : float)
  : float * float :=
  let s :=
    simulate minimum_charge maximum_charge level_charge_time t None
      historyMap initSim in
  let f := (totalCost s / totalCharged s)%float in
  if (minimum_charge <? lvl s)%float && (f <? fst best)%float
  then (f, t) else best.

(** The threshold [createNewStats] ends with, from [threshold = 1] and
    [bestCost = Number.POSITIVE_INFINITY]. *)
Definition selectThreshold
  (minimum_charge maximum_charge level_charge_time : float)
  (historyMap : list HistoryMap) : float :=
  snd (fold_left
         (consider minimum_charge maximum_charge level_charge_time historyMap)
         (thresholdList historyMap) (infinity, 1%float)).

(** *** Concrete histories *)

(** The rows of two connections at "home", one full hour each at half of
    the average price: the first starts at 50 % and is followed by a drive
    of 85 %, the second starts at 2 %. *)
Definition rowsDip : list HistoryRow :=
  [ mkHistoryRow 1 "home" 50 (Some 85%float) (Plan.at_ 20 0) 1 10 0.5;
    mkHistoryRow 2 "home" 2 None (Plan.at_ 22 0) 1 10 0.5 ].

(** The same with a second connection that starts at 30 %. *)
Definition rowsFail : list HistoryRow :=
  [ mkHistoryRow 1 "home" 50 (Some 85%float) (Plan.at_ 20 0) 1 10 0.5;
    mkHistoryRow 2 "home" 30 None (Plan.at_ 22 0) 1 10 0.5 ].

(** The first connection of both, as the grouping loop builds it. *)
Definition firstConnection : HistoryMap :=
  mkHistoryMap 1 50 (Some 85%float) false
    [ mkHistoryHour (Plan.at_ 20 0) 1 10 0.5 ].

End Doubles.

(** ** The trip state machine of [updateVehicleData] *)

Module Trips.

(** A row of [trip] (without the outside temperature at the start). *)
Record DBTrip : Type := mkDBTrip {
  trip_id : Z;
  start_ts : Z;
  start_level : Z;
  start_location_uuid : option string;
  start_odometer : Z;
  end_ts : Z;
  end_level : Z;
  end_location_uuid : option string;
  distance : Z
}.

(** The table [trip], keyed by [trip_id]. *)
Definition TripTable : Type := Z -> option DBTrip.

Definition emptyTrips : TripTable := fun _ => None.

Definition putTrip (t : TripTable) (r : DBTrip) : TripTable :=
  fun id => if id =? trip_id r then Some r else t id.

Definition deleteTrip (t : TripTable) (tid : Z) : TripTable :=
  fun id => if id =? tid then None else t id.

(** What the trip state machine reads and writes: the columns
    [location_uuid] and [trip_id] of the vehicle row, the table [trip] and
    the sequence behind its serial key. *)
Record State : Type := mkState {
  vehicle_location_uuid : option string;
  vehicle_trip_id : option Z;
  trips : TripTable;
  trip_seq : Z
}.

(** A telemetry sample, as far as the trip state machine reads it:
    [data.level], [data.odometer], [data.driving], whether [data.connected]
    is set, and the location [lookupKnownLocation] finds. *)
Record Sample : Type := mkSample {
  now : Z;
  level : Z;
  odometer : Z;
  driving : bool;
  connected : bool;
  currentLocationUUID : option string
}.

Definition option_string_eqb (a b : option string) : bool :=
  match a, b with
  | Some x, Some y => String.eqb x y
  | None, None => true
  | _, _ => false
  end.

Definition isSome {A : Type} (o : option A) : bool :=
  match o with
  | Some _ => true
  | None => false
  end.

(** The trip of the sample: a new row if [vehicle.trip_id] is [null], else
    the row of [vehicle.trip_id]; with the table and the sequence after the
    [INSERT].  [None]: the row is not in the table and [pg.one] throws. *)
Definition openTrip (st : State) (data : Sample)
  : option (DBTrip * TripTable * Z) :=
  match vehicle_trip_id st with
  | None =>
      let tr :=
        mkDBTrip (trip_seq st + 1) (now data) (level data)
          (vehicle_location_uuid st) (odometer data) (now data) (level data)
          (currentLocationUUID data) 0 in
      Some (tr, putTrip (trips st) tr, trip_seq st + 1)
  | Some tid =>
      match trips st tid with
      | Some tr => Some (tr, trips st, trip_seq st)
      | None => None
      end
  end.

(** "Update trip record": the row [UPDATE trip ... RETURNING *] gives back,
    or the row as it was when no metre was travelled. *)
Definition recordDistance (data : Sample) (tr : DBTrip) : DBTrip :=
  let distance_ := odometer data - start_odometer tr in
  let traveled := distance_ - distance tr in
  if 0 <? traveled
  then mkDBTrip (trip_id tr) (start_ts tr) (start_level tr)
         (start_location_uuid tr) (start_odometer tr) (now data) (level data)
         (currentLocationUUID data) distance_
  else tr.

(** The vehicle update and the block "moved, driving or on a trip" of
    [updateVehicleData]; the blocks in between (connection, charge) and
    behind (event map, replan) neither read nor write these columns and this
    table.  The boolean is what the block does to [doPricePlan]. *)
Definition updateVehicleData (st : State) (data : Sample)
  : option (State * bool) :=
  let lastLocationUUID := vehicle_location_uuid st in
  if negb (option_string_eqb lastLocationUUID (currentLocationUUID data))
     || driving data || isSome (vehicle_trip_id st)
  then
    match openTrip st data with
    | None => None
    | Some (tr, table, seq) =>
        let table :=
          if 0 <? odometer data - start_odometer tr - distance tr
          then putTrip table (recordDistance data tr) else table in
        let tr := recordDistance data tr in
        if negb (driving data) then
          match currentLocationUUID data with
          | Some _ =>
              (* We stopped driving at a location we know *)
              let table :=
                if distance tr <? 1000
                then deleteTrip table (trip_id tr) else table in
              Some (mkState (currentLocationUUID data) None table seq, true)
          | None =>
              if connected data
              then Some (mkState (currentLocationUUID data) None table seq, true)
              else Some (mkState (currentLocationUUID data)
                           (Some (trip_id tr)) table seq, false)
          end
        else Some (mkState (currentLocationUUID data) (Some (trip_id tr))
                     table seq, false)
    end
  else
    Some (mkState (currentLocationUUID data) (vehicle_trip_id st) (trips st)
            (trip_seq st), false).

(** A sequence of samples, one call after the other. *)
Fixpoint run (st : State) (samples : list Sample) : option State :=
  match samples with
  | [] => Some st
  | data :: rest =>
      match updateVehicleData st data with
      | Some (st', _) => run st' rest
      | None => None
      end
  end.

(** The sample closes a trip in the branch "connected" of an unknown
    location. *)
Definition connectsAway (data : Sample) : bool :=
  negb (driving data) && negb (isSome (currentLocationUUID data))
  && connected data.

(** A trip of the table that is over: it is not the trip of the vehicle. *)
Definition closedTrip (st : State) (r : DBTrip) : Prop :=
  trips st (trip_id r) = Some r /\ vehicle_trip_id st <> Some (trip_id r).

(** No closed trip of the table is shorter than 1 km. *)
Definition noShortClosedTrip (st : State) : Prop :=
  forall r, closedTrip st r -> 1000 <= distance r.

(** The table is keyed by [trip_id], the keys come from the sequence, and
    the trip of the vehicle is in the table. *)
Definition keyed (st : State) : Prop :=
  (forall id r, trips st id = Some r -> trip_id r = id /\ id <= trip_seq st)
  /\ (forall tid, vehicle_trip_id st = Some tid ->
        tid <= trip_seq st /\ exists r, trips st tid = Some r).

(** The state in which the block "moved, driving or on a trip" decides
    whether to close the trip: [tr] is the trip of the sample, stored under
    its key in [table]; all other keys are as before. *)
Definition tripInHand (st : State) (tr : DBTrip)
  (table : TripTable) (seq : Z) : Prop :=
  table (trip_id tr) = Some tr
  /\ trip_id tr <= seq
  /\ trip_seq st <= seq
  /\ (forall id, id <> trip_id tr -> table id = trips st id)
  /\ (vehicle_trip_id st = None
      \/ vehicle_trip_id st = Some (trip_id tr)).

(** The invariant of the trip state machine. *)
Definition tripsInv (st : State) : Prop :=
  keyed st
  /\ forall id r, trips st id = Some r ->
                  vehicle_trip_id st <> Some id ->
                  1000 <= distance r.

(** A vehicle parked at home, no trip so far. *)
Definition parkedAtHome : State :=
  mkState (Some "home"%string) None emptyTrips 0.

(** Out of the geofence, 400 m to a charger that is not a known location. *)
Definition toPublicCharger : list Sample :=
  [ mkSample (Plan.at_ 8 0) 70 120000 true false None;
    mkSample (Plan.at_ 8 5) 70 120400 false true None ].

(** 400 m around the block and back home. *)
Definition aroundTheBlock : list Sample :=
  [ mkSample (Plan.at_ 8 0) 70 120000 true false None;
    mkSample (Plan.at_ 8 5) 70 120400 false false (Some "home"%string) ].

End Trips.

(** ** The connection and charge state machine of [updateVehicleData] *)

Module Connection.

(** [enum ChargeConnection] *)
Inductive ChargeConnection : Type :=
| ac
| dc.

(** The object [data] of [updateVehicleData], the telemetry in database
    units, as far as the block "Are we connected?" reads it. *)
Record Data : Type := mkData {
  now : Z;
  level : Z;
  odometer : Z;
  outside_temp : Q;
  connected : option ChargeConnection;
  charging_to : option Z;
  estimate : Z;
  power : Q;
  added : Q
}.

Record DBConnected : Type := mkDBConnected {
  connected_id : Z;
  c_vehicle_uuid : string;
  c_type : option ChargeConnection;
  c_location_uuid : option string;
  c_start_ts : Z;
  c_start_level : Z;
  c_start_odometer : Z;
  c_end_ts : Z;
  c_end_level : Z;
  c_energy_used : Z;
  c_cost : Z;
  c_saved : Z;
  c_connected : bool
}.

Record DBCharge : Type := mkDBCharge {
  charge_id : Z;
  ch_connected_id : option Z;
  ch_type : option ChargeConnection;
  ch_location_uuid : option string;
  ch_start_ts : Z;
  ch_start_level : Z;
  ch_start_added : Q;
  ch_target_level : option Z;
  ch_estimate : Z;
  ch_end_ts : Z;
  ch_end_level : Z;
  ch_end_added : Q;
  ch_energy_used : Z
}.

Record DBChargeCurrent : Type := mkDBChargeCurrent {
  cur_start_ts : Z;
  cur_start_level : Z;
  cur_start_added : Q;
  powers : list Z;
  outside_deci_temperatures : list Z
}.

(** The arguments of [setChargeCurve] behind the vehicle and the charge. *)
Record CurveSample : Type := mkCurveSample {
  cs_charge_id : Z;
  cs_level : Z;
  cs_duration : Q;
  cs_avgTemp : Q;
  cs_energyUsed : Q;
  cs_energyAdded : Q
}.

(** The row of the query behind [priceLookup]. *)
Record PriceLookup : Type := mkPriceLookup {
  price_now : option Z;
  price_then : option Z
}.

(** The vehicle row as loaded at the start of the call ([location_uuid] is
    the location before this sample), the tables [connected], [charge] and
    [charge_current] keyed by their ids, and the sequences behind the
    serial keys. *)
Record State : Type := mkState {
  vehicle_uuid : string;
  location_uuid : option string;
  vehicle_connected_id : option Z;
  vehicle_charge_id : option Z;
  vehicle_charge_plan : option (list Plan.ChargePlan);
  connected_table : Z -> option DBConnected;
  charge_table : Z -> option DBCharge;
  charge_current : Z -> option DBChargeCurrent;
  connected_seq : Z;
  charge_seq : Z
}.

(** What the block hands on: [doPricePlan], the call of [setChargeCurve]
    and the call of [createNewStats] with its two arguments. *)
Record Effects : Type := mkEffects {
  doPricePlan : bool;
  curveSample : option CurveSample;
  newStats : option (string * option string)
}.

Definition put {A : Type} (t : Z -> option A) (id : Z) (r : A)
  : Z -> option A :=
  fun k => if k =? id then Some r else t k.

Definition remove {A : Type} (t : Z -> option A) (id : Z) : Z -> option A :=
  fun k => if k =? id then None else t k.

Definition isSome {A : Type} (o : option A) : bool :=
  match o with
  | Some _ => true
  | None => false
  end.

(** Truthiness of a nullable number: [null] and [0] are falsy. *)
Definition truthy (o : option Z) : bool :=
  match o with
  | Some z => negb (z =? 0)
  | None => false
  end.

(** [Math.round(x)] and [Math.trunc(x)] *)
Definition round (x : Q) : Z := Qfloor (x + (1 # 2)).

Definition trunc (x : Q) : Z :=
  if Qle_bool 0 x then Qfloor x else Qceiling x.

(** [deltaUsed]: power (W) times time (s) since the charge was last
    updated, in Wm, never negative. *)
Definition deltaUsed (data : Data) (charge : DBCharge) : Z :=
  let deltaTime := (inject_Z (now data - ch_end_ts charge) / 1000)%Q in
  round (Qmax 0 (power data * deltaTime) / 60).

(** [connection.cost += ...] and [connection.saved += ...] *)
Definition addCost (lookup : PriceLookup) (used : Z) (c : DBConnected)
  : DBConnected :=
  match price_now lookup with
  | None => c
  | Some pnow =>
      let cost :=
        c_cost c + round (inject_Z pnow * inject_Z used / 60000) in
      let saved :=
        match price_then lookup with
        | None => c_saved c
        | Some pthen =>
            c_saved c
            + round (inject_Z (pthen - pnow) * inject_Z used / 60000)
        end in
      mkDBConnected (connected_id c) (c_vehicle_uuid c) (c_type c)
        (c_location_uuid c) (c_start_ts c) (c_start_level c)
        (c_start_odometer c) (c_end_ts c) (c_end_level c) (c_energy_used c)
        cost saved (c_connected c)
  end.

Definition addEnergy (used : Z) (c : DBConnected) : DBConnected :=
  mkDBConnected (connected_id c) (c_vehicle_uuid c) (c_type c)
    (c_location_uuid c) (c_start_ts c) (c_start_level c) (c_start_odometer c)
    (c_end_ts c) (c_end_level c) (c_energy_used c + used) (c_cost c)
    (c_saved c) (c_connected c).

(** "Update charge record": the row [UPDATE charge ... RETURNING *] gives
    back. *)
Definition updateCharge (data : Data) (used : Z) (charge : DBCharge)
  : DBCharge :=
  let toSet := truthy (charging_to data) in
  let plugged := isSome (connected data) in
  mkDBCharge (charge_id charge) (ch_connected_id charge) (ch_type charge)
    (ch_location_uuid charge) (ch_start_ts charge) (ch_start_level charge)
    (ch_start_added charge)
    (if toSet then charging_to data else ch_target_level charge)
    (if toSet then estimate data else ch_estimate charge)
    (now data) (level data)
    (if plugged then added data else ch_end_added charge)
    (if plugged then ch_energy_used charge + used else ch_energy_used charge).

Section Learner.

(** [arrayMean] of [@shared/utils], which is not part of the sources at
    hand. *)
Variable arrayMean : list Z -> Q.

(** "charge_curve logic", for the charge [chid] after its update: the table
    [charge_current] afterwards, whether a new level was reached, and the
    call of [setChargeCurve]. *)
Definition learn (data : Data) (chid : Z) (charge : DBCharge)
  (table : Z -> option DBChargeCurrent)
  : (Z -> option DBChargeCurrent) * bool * option CurveSample :=
  if ch_start_level charge <? level data then
    (* Ignore first % since integer % lacks precision *)
    let current := table chid in
    let newLevel :=
      match current with
      | None => true
      | Some cur => cur_start_level cur <? level data
      end in
    let sample :=
      match current with
      | Some cur =>
          if newLevel && (level data =? cur_start_level cur + 1) then
            (* only 1% changes, or we've been offline and it's unreliable *)
            let duration := (inject_Z (now data - cur_start_ts cur) / 1000)%Q in
            let avgPower := arrayMean (powers cur) in
            Some (mkCurveSample chid (cur_start_level cur) duration
                    (arrayMean (outside_deci_temperatures cur))
                    (avgPower * duration / 60)%Q
                    (added data - cur_start_added cur)%Q)
          else None
      | None => None
      end in
    let reset :=
      if newLevel
      then Some (mkDBChargeCurrent (now data) (level data) (added data) [] [])
      else current in
    let table :=
      match reset with
      | Some cur =>
          put table chid
            (mkDBChargeCurrent (cur_start_ts cur) (cur_start_level cur)
               (cur_start_added cur) (powers cur ++ [trunc (power data)])
               (outside_deci_temperatures cur ++ [trunc (outside_temp data)]))
      | None => table
      end in
    (table, newLevel, sample)
  else (table, false, None).

(** The block [if (data.connected || vehicle.connected_id)] of
    [updateVehicleData].  [None]: the row of [vehicle.connected_id] or of
    [vehicle.charge_id] is not in its table and [pg.one] throws.  The state
    returned is the store after the call; its vehicle row has the location
    of the sample, written by the update in front of the block. *)
Definition connectionStep (st : State) (data : Data)
  (currentLocationUUID : option string) (lookup : PriceLookup)
  : option (State * Effects) :=
  if isSome (connected data) || truthy (vehicle_connected_id st) then
    (* Are we connected? *)
    let opened :=
      match vehicle_connected_id st with
      | None =>
          (* New connection, create a record *)
          let id := connected_seq st + 1 in
          Some (mkDBConnected id (vehicle_uuid st) (connected data)
                  currentLocationUUID (now data) (level data) (odometer data)
                  (now data) (level data) 0 0 0 true,
                id, id, true)
      | Some cid =>
          match connected_table st cid with
          | Some c => Some (c, cid, connected_seq st, false)
          | None => None
          end
      end in
    match opened with
    | None => None
    | Some (connection, cid, cseq, isNew) =>
        let charged :=
          if truthy (charging_to data) || truthy (vehicle_charge_id st) then
            (* Are we charging? *)
            let started :=
              match vehicle_charge_id st with
              | None =>
                  (* New charge, create a charge record *)
                  let id := charge_seq st + 1 in
                  Some (connection,
                        put (charge_table st) id
                          (mkDBCharge id (Some cid) (connected data)
                             currentLocationUUID (now data) (level data)
                             (added data) (charging_to data) (estimate data)
                             (now data) (level data) (added data) 0),
                        charge_current st, id, id, false, None)
              | Some chid =>
                  match charge_table st chid with
                  | None => None
                  | Some charge =>
                      let used := deltaUsed data charge in
                      let connection :=
                        addCost lookup used (addEnergy used connection) in
                      let charge := updateCharge data used charge in
                      let '(current, newLevel, sample) :=
                        learn data chid charge (charge_current st) in
                      Some (connection, put (charge_table st) chid charge,
                            current, chid, charge_seq st, newLevel, sample)
                  end
              end in
            match started with
            | None => None
            | Some (connection, charges, current, chid, hseq, newLevel, sample) =>
                if negb (truthy (charging_to data)) then
                  (* We stopped charging *)
                  Some (connection, charges, remove current chid, None, hseq,
                        newLevel, sample)
                else
                  Some (connection, charges, current, Some chid, hseq,
                        newLevel, sample)
            end
          else
            Some (connection, charge_table st, charge_current st,
                  vehicle_charge_id st, charge_seq st, false, None) in
        match charged with
        | None => None
        | Some (connection, charges, current, chargeId, hseq, newLevel, sample) =>
            (* Update connection record *)
            let stored :=
              mkDBConnected (connected_id connection)
                (c_vehicle_uuid connection) (c_type connection)
                (location_uuid st) (c_start_ts connection)
                (c_start_level connection) (c_start_odometer connection)
                (now data) (level data) (c_energy_used connection)
                (c_cost connection) (c_saved connection)
                (isSome (connected data)) in
            let connections := put (connected_table st) cid stored in
            let plugged := isSome (connected data) in
            Some (mkState (vehicle_uuid st) currentLocationUUID
                    (if plugged then Some cid else None) chargeId
                    (if plugged then vehicle_charge_plan st else None)
                    connections charges current cseq hseq,
                  mkEffects (isNew || newLevel) sample
                    (if plugged then None
                     else Some (c_vehicle_uuid connection,
                                c_location_uuid connection)))
        end
    end
  else
    Some (mkState (vehicle_uuid st) currentLocationUUID
            (vehicle_connected_id st) (vehicle_charge_id st)
            (vehicle_charge_plan st) (connected_table st) (charge_table st)
            (charge_current st) (connected_seq st) (charge_seq st),
          mkEffects false None None).

End Learner.

(** The vehicle has a connection when it has a charge. *)
Definition chargeImpliesConnected (st : State) : Prop :=
  vehicle_charge_id st <> None -> vehicle_connected_id st <> None.

(** The ids of the vehicle row are not 0 and their rows are in the tables;
    the ids of the tables come from the sequences. *)
Definition keyed (st : State) : Prop :=
  (forall c, vehicle_connected_id st = Some c ->
             c <> 0 /\ connected_table st c <> None)
  /\ (forall h, vehicle_charge_id st = Some h ->
                h <> 0 /\ charge_table st h <> None)
  /\ 0 <= connected_seq st /\ 0 <= charge_seq st.

(** A sample reports a charge target only while a charger is connected. *)
Definition chargesOnlyConnected (data : Data) : Prop :=
  truthy (charging_to data) = true -> isSome (connected data) = true.

Definition noTables {A : Type} : Z -> option A := fun _ => None.

(** A vehicle at home, nothing connected so far. *)
Definition unplugged : State :=
  mkState "v1" (Some "home"%string) None None None noTables noTables noTables
    0 0.

(** Plugging in at 08:00 with a target of 90 %. *)
Definition plugIn : Data :=
  mkData (Plan.at_ 8 0) 50 120000 100 (Some ac) (Some 90) 120 7000 0.

(** Ten minutes later at 51 %, then at 52 %. *)
Definition charging51 : Data :=
  mkData (Plan.at_ 8 10) 51 120000 100 (Some ac) (Some 90) 110 7000 1200.

Definition charging52 : Data :=
  mkData (Plan.at_ 8 20) 52 120000 100 (Some ac) (Some 90) 100 7000 2400.

(** Unplugged at 08:30. *)
Definition unplug : Data :=
  mkData (Plan.at_ 8 30) 52 120000 100 None None 0 0 2400.

Definition mean (l : list Z) : Q :=
  match l with
  | [] => 0
  | _ =>
      (inject_Z (fold_right Z.add 0%Z l)
       / inject_Z (Z.of_nat (List.length l)))%Q
  end.

Definition somePrices : PriceLookup := mkPriceLookup (Some 52000) (Some 61000).

(** At home with connection 1 open since 08:00, 40 Wm used so far. *)
Definition connectedAtHome : DBConnected :=
  mkDBConnected 1 "v1" (Some ac) (Some "home"%string) (Plan.at_ 8 0) 50 120000
    (Plan.at_ 8 0) 50 40 0 0 true.

Definition pluggedAtHome : State :=
  mkState "v1" (Some "home"%string) (Some 1) None None
    (put noTables 1 connectedAtHome) noTables noTables 1 0.

(** A sample with a charge target and no charger. *)
Definition targetWithoutCharger : Data :=
  mkData (Plan.at_ 8 10) 50 120000 100 None (Some 90) 0 0 0.

Definition noPrices : PriceLookup := mkPriceLookup None None.

(** Charge 1 of connection 1, started at 50 %, now at 51 % since 08:10. *)
Definition chargingAtHome : State :=
  mkState "v1" (Some "home"%string) (Some 1) (Some 1) None
    (put noTables 1 connectedAtHome)
    (put noTables 1
       (mkDBCharge 1 (Some 1) (Some ac) (Some "home"%string) (Plan.at_ 8 0) 50
          0 (Some 90) 110 (Plan.at_ 8 10) 51 1200 1167))
    (put noTables 1 (mkDBChargeCurrent (Plan.at_ 8 10) 51 1200 [7000] [100]))
    1 1.

(** What [setChargeCurve] gets for the percent from 51 % to 52 %: 600 s at
    7000 W, which is 70000 Wm used, for 1200 Wm added. *)
Definition sample51 : CurveSample :=
  mkCurveSample 1 51 (inject_Z 600000 / 1000) 100
    (7000 * (inject_Z 600000 / 1000) / 60) (2400 - 1200).

(** The samples of a run, all at one location and under one price lookup. *)
Fixpoint run (arrayMean : list Z -> Q) (st : State) (samples : list Data)
  (loc : option string) (lookup : PriceLookup) : option State :=
  match samples with
  | [] => Some st
  | data :: rest =>
      match connectionStep arrayMean st data loc lookup with
      | Some (st', _) => run arrayMean st' rest loc lookup
      | None => None
      end
  end.

End Connection.

(* ================================================================== *)
(** * Properties *)
(* ================================================================== *)

Import Plan.

(** ** Reading dates the way [nstart] and [nstop] do *)

Lemma nstart_cases (n : option Z) :
  nstart n = JS.NegInf \/ exists t, t <> 0 /\ n = Some t /\ nstart n = JS.Fin t.
Proof.
  destruct n as [t|]; [|now left].
  unfold nstart, JS.or; simpl.
  destruct (Z.eqb_spec t 0) as [->|Ht]; simpl; [now left|].
  right; exists t; auto.
Qed.

Lemma nstop_cases (n : option Z) :
  nstop n = JS.PosInf \/ exists t, t <> 0 /\ n = Some t /\ nstop n = JS.Fin t.
Proof.
  destruct n as [t|]; [|now left].
  unfold nstop, JS.or; simpl.
  destruct (Z.eqb_spec t 0) as [->|Ht]; simpl; [now left|].
  right; exists t; auto.
Qed.




(** Splits on how [nstart]/[nstop] read the dates in the goal, then decides
    the integer comparisons. *)
Ltac read_dates :=
  repeat match goal with
  | |- context [nstart ?n] =>
      let t := fresh "t" in let H0 := fresh "Hnz" in
      let He := fresh "He" in let Hn := fresh "Hn" in
      destruct (nstart_cases n) as [Hn | (t & H0 & He & Hn)]; rewrite Hn in *
  | |- context [nstop ?n] =>
      let t := fresh "t" in let H0 := fresh "Hnz" in
      let He := fresh "He" in let Hn := fresh "Hn" in
      destruct (nstop_cases n) as [Hn | (t & H0 & He & Hn)]; rewrite Hn in *
  end.

(** Case analysis on the condition of the first conditional of the goal. *)
Ltac case_if :=
  match goal with
  | |- context [if ?c then _ else _] => destruct c eqn:?
  end.


(** ** The reconciler keeps the levels it is given *)

Lemma levelsWithin_incl (L L' : list Z) (plan : list ChargePlan) :
  incl L L' -> levelsWithin L plan -> levelsWithin L' plan.
Proof.
  intros Hi H; unfold levelsWithin in *.
  rewrite Forall_forall in *; intros s Hs; apply Hi, H, Hs.
Qed.

Lemma insert_In (a x : ChargePlan) (l : list ChargePlan) :
  In x (insert a l) -> x = a \/ In x l.
Proof.
  induction l as [|b l IH]; simpl.
  - intros [<-|[]]; auto.
  - case_if; simpl.
    + intros [<-|H]; auto. destruct (IH H); auto.
    + intros [<-|H]; auto.
Qed.

Lemma sort_In (x : ChargePlan) (plan : list ChargePlan) :
  In x (sort plan) -> In x plan.
Proof.
  induction plan as [|a plan IH]; simpl; auto.
  intros H; apply insert_In in H as [->|H]; auto.
Qed.

Lemma levelsWithin_cons (L : list Z) (a : ChargePlan) (plan : list ChargePlan) :
  In (level a) L -> levelsWithin L plan -> levelsWithin L (a :: plan).
Proof. intros; constructor; auto. Qed.

Lemma consolidate_from_levels (rest : list ChargePlan) :
  forall a, levelsWithin (level a :: map level rest) (consolidate_from a rest).
Proof.
  induction rest as [|b rest IH]; intros a; simpl.
  - constructor; simpl; auto.
  - case_if; [case_if; [|case_if]|].
    + eapply levelsWithin_incl; [|apply IH].
      intros z [<-|Hz]; simpl; auto.
      case_if; simpl;
        destruct (Z.max_spec (level a) (level b)) as [[_ ->]|[_ ->]]; auto.
    + apply levelsWithin_cons; [simpl; auto|].
      eapply levelsWithin_incl; [|apply IH].
      intros z [<-|Hz]; simpl; auto.
    + apply levelsWithin_cons; [simpl; auto|].
      eapply levelsWithin_incl; [|apply IH].
      intros z Hz; simpl; auto.
    + apply levelsWithin_cons; [simpl; auto|].
      eapply levelsWithin_incl; [|apply IH].
      intros z Hz; simpl; auto.
Qed.

Lemma consolidate_levels (plan : list ChargePlan) :
  levelsWithin (map level plan) (consolidate plan).
Proof.
  destruct plan as [|a rest]; simpl; [constructor|].
  apply consolidate_from_levels.
Qed.

Lemma shiftPass_levels (plan : list ChargePlan) :
  map level (fst (shiftPass plan)) = map level plan.
Proof.
  induction plan as [|a [|b tl] IH]; auto.
  change (shiftPass (a :: b :: tl)) with
    (let '(tl', s) := shiftPass (b :: tl) in
     if shiftable a b then (shifted a b :: tl', true) else (a :: tl', s)).
  destruct (shiftPass (b :: tl)) as [tl' s]; simpl in IH.
  destruct (shiftable a b); simpl; now rewrite IH.
Qed.

Lemma levelsWithin_map (plan : list ChargePlan) (L : list Z) :
  levelsWithin L plan <-> incl (map level plan) L.
Proof.
  unfold levelsWithin; rewrite Forall_forall; split.
  - intros H z Hz; apply in_map_iff in Hz as (s & <- & Hs); auto.
  - intros H s Hs; apply H, in_map, Hs.
Qed.

Lemma cleanupPlan_levelsWithin (plan : list ChargePlan) :
  levelsWithin (map level plan) (cleanupPlan plan).
Proof.
  assert (H1 : levelsWithin (map level plan) (consolidate (sort plan))).
  { eapply levelsWithin_incl; [|apply consolidate_levels].
    intros z Hz; apply in_map_iff in Hz as (s & <- & Hs).
    apply in_map, sort_In, Hs. }
  unfold cleanupPlan.
  pose proof (shiftPass_levels (consolidate (sort plan))) as H2.
  destruct (shiftPass (consolidate (sort plan))) as [p2 s]; simpl in H2.
  assert (H3 : levelsWithin (map level plan) p2).
  { apply levelsWithin_map; rewrite H2; apply levelsWithin_map, H1. }
  destruct s; auto.
  eapply levelsWithin_incl; [|apply consolidate_levels].
  apply levelsWithin_map, H3.
Qed.

Lemma maxLevel_cons (a : ChargePlan) (plan : list ChargePlan) :
  maxLevel (a :: plan) = Z.max (level a) (maxLevel plan).
Proof. reflexivity. Qed.

Lemma maxLevel_nonneg (plan : list ChargePlan) : 0 <= maxLevel plan.
Proof.
  induction plan as [|a plan IH]; [reflexivity|].
  rewrite maxLevel_cons; lia.
Qed.

Lemma maxLevel_ge (plan : list ChargePlan) (s : ChargePlan) :
  In s plan -> level s <= maxLevel plan.
Proof.
  induction plan as [|a plan IH]; [intros []|].
  rewrite maxLevel_cons; intros [->|H]; [lia|].
  specialize (IH H); lia.
Qed.

Lemma maxLevel_le (plan : list ChargePlan) (m : Z) :
  0 <= m -> (forall s, In s plan -> level s <= m) -> maxLevel plan <= m.
Proof.
  intros Hm; induction plan as [|a plan IH]; intros H; [exact Hm|].
  rewrite maxLevel_cons.
  assert (maxLevel plan <= m) by (apply IH; intros; apply H; now right).
  assert (level a <= m) by (apply H; now left).
  lia.
Qed.

(** C10.  [cleanupPlan] never invents a battery level: every segment of the
    reconciled plan carries the level of some segment of the input, and so
    the greatest level of the plan does not grow. *)
Theorem cleanupPlan_keeps_levels (plan : list ChargePlan) :
  (forall s, In s (cleanupPlan plan) ->
     exists s0, In s0 plan /\ level s = level s0)
  /\ maxLevel (cleanupPlan plan) <= maxLevel plan.
Proof.
  pose proof (cleanupPlan_levelsWithin plan) as H.
  unfold levelsWithin in H; rewrite Forall_forall in H.
  assert (Hex : forall s, In s (cleanupPlan plan) ->
            exists s0, In s0 plan /\ level s = level s0).
  { intros s Hs; apply H, in_map_iff in Hs as (s0 & Hl & Hs0); eauto. }
  split; [exact Hex|].
  apply maxLevel_le; [apply maxLevel_nonneg|].
  intros s Hs; destruct (Hex s Hs) as (s0 & Hs0 & ->).
  apply maxLevel_ge, Hs0.
Qed.

(** ** Order of the reconciled plan *)

(** C1, evaluated on [planPushedPast].  The fill segment is pushed behind the
    routine hour (it starts at 09:00 now) and then cut off at the start of
    the trip segment (it stops at 08:20): the reconciled plan keeps a segment
    that stops before it starts, and the trip segment behind it starts
    earlier than it does.  The plan is not ordered by [chargeStart]. *)
Theorem cleanupPlan_pushed_past_unordered :
  cleanupPlan planPushedPast =
    [ seg (at_ 8 0) (at_ 9 0) 90 routine "routine charge";
      seg (at_ 9 0) (at_ 8 20) 50 fill "low price";
      seg (at_ 8 20) (at_ 11 0) 60 trip "upcoming trip" ]
  /\ orderedByStart (cleanupPlan planPushedPast) = false.
Proof. split; vm_compute; reflexivity. Qed.

(** ** Idempotence of the reconciler *)








(** ** Charge duration *)

Lemma levels_from_succ (level : Z) (n : nat) :
  map (fun k => level + Z.of_nat k) (seq 0 (S n)) =
  level :: map (fun k => level + 1 + Z.of_nat k) (seq 0 n).
Proof.
  cbn [seq map]. rewrite Z.add_0_r; f_equal.
  rewrite <- seq_shift, map_map.
  apply map_ext; intros k; lia.
Qed.

Lemma chargeDuration_loop_sum (curve : Z -> Z) (to : Z) (n : nat) :
  forall (level : Z) (sum : Q),
    level + Z.of_nat n = to + 1 ->
    to <= 100 ->
    (Curve.chargeDuration_loop n curve level to sum * 1000 ==
     sum * 1000 +
     fold_right Qplus 0
       (map (fun l => inject_Z (curve l) * (if l <? to then 1 else 0.75) * 1000)
          (map (fun k => (level + Z.of_nat k)%Z) (seq 0 n))))%Q.
Proof.
  induction n as [|n IH]; intros level sum Hn Hto.
  - simpl. ring.
  - rewrite levels_from_succ.
    cbn [Curve.chargeDuration_loop map fold_right].
    destruct (Z.leb_spec level to) as [Hle|Hgt]; [|lia].
    rewrite IH by lia.
    rewrite Z.min_r by lia.
    ring.
Qed.

(** C7.  For levels [from <= to] (percentages, so [to <= 100])
    [chargeDuration] is the sum over [l = from..to] of [curve[l]], the last
    level counted at 0.75, times 1000; [curve[l]] is the stored duration for
    level [l], or 100. *)
Theorem chargeDuration_is_spec_sum (rows : list Curve.ChargeCurveRow)
  (vehicleUUID locationUUID : string) (from to : Z) :
  from <= to -> to <= 100 ->
  (Curve.chargeDuration rows vehicleUUID locationUUID from to ==
   Curve.specDuration (Curve.getChargeCurve rows vehicleUUID locationUUID)
     from to)%Q.
Proof.
  intros Hft Hto; unfold Curve.chargeDuration, Curve.specDuration,
    Curve.levelsFromTo.
  rewrite chargeDuration_loop_sum by lia.
  ring.
Qed.

Lemma chargeDuration_is_spec_sum_witness :
  50 <= 52 /\ 52 <= 100 /\
  (Curve.chargeDuration Curve.rowsOneMinute "v1" "home" 50 52 ==
   Curve.specDuration (Curve.getChargeCurve Curve.rowsOneMinute "v1" "home")
     50 52)%Q.
Proof.
  split; [lia|]. split; [lia|].
  apply (chargeDuration_is_spec_sum Curve.rowsOneMinute "v1" "home" 50 52); lia.
Defined.

(** ** The planner *)

Lemma cleanupPlan_single (a : ChargePlan) : cleanupPlan [a] = [a].
Proof. reflexivity. Qed.

Lemma max_level_below (rows : list Curve.ChargeCurveRow) (bound : Z) :
  (forall r, In r rows -> Curve.level r < bound) ->
  match fold_right
          (fun r m => match m with
                      | Some x => Some (Z.max (Curve.level r) x)
                      | None => Some (Curve.level r)
                      end) None rows with
  | Some m => m < bound
  | None => True
  end.
Proof.
  induction rows as [|r rows IH]; intros H; simpl; auto.
  assert (Hr : Curve.level r < bound) by (apply H; now left).
  assert (IH' := IH (fun r' Hr' => H r' (or_intror Hr'))).
  destruct (fold_right _ None rows); auto; lia.
Qed.

Lemma needsCalibration_true (env : Planner.Env) (v : Schema.DBVehicle)
  (loc : string) :
  Schema.level v < Schema.maximum_charge v ->
  (forall r, In r (Curve.rowsOf (Planner.charge_curve env)
                     (Schema.vehicle_uuid v) loc) -> Curve.level r < 100) ->
  Planner.needsCalibration env v loc = true.
Proof.
  intros Hlvl Hrows; unfold Planner.needsCalibration.
  apply andb_true_iff; split; [apply Z.ltb_lt, Hlvl|].
  pose proof (max_level_below _ 100 Hrows) as Hm.
  unfold Planner.max_level.
  destruct (fold_right _ None _) as [m|]; simpl; [|reflexivity].
  destruct (m =? 0); simpl; apply Z.ltb_lt; lia.
Qed.

(** C8.  At a known location, with the level below [maximum_charge] and no
    charge-curve row of the vehicle at that location reaching level 100 (or
    no row at all), the plan written is the calibration segment alone. *)
Theorem refreshVehicleChargePlan_calibration (env : Planner.Env)
  (v : Schema.DBVehicle) (loc : string) :
  Schema.location_uuid v = Some loc ->
  Schema.level v < Schema.maximum_charge v ->
  (forall r, In r (Curve.rowsOf (Planner.charge_curve env)
                     (Schema.vehicle_uuid v) loc) -> Curve.level r < 100) ->
  Planner.refreshVehicleChargePlan env v =
    Some (Some [mkChargePlan None None 100 calibrate "Charge calibration"]).
Proof.
  intros Hloc Hlvl Hrows; unfold Planner.refreshVehicleChargePlan.
  rewrite Hloc; unfold Planner.accumulatedPlan.
  rewrite (needsCalibration_true env v loc Hlvl Hrows).
  reflexivity.
Qed.

Lemma refreshVehicleChargePlan_calibration_witness :
  Planner.refreshVehicleChargePlan Planner.envUncalibrated Planner.vehicleAt80 =
    Some (Some [mkChargePlan None None 100 calibrate "Charge calibration"]).
Proof.
  apply (refreshVehicleChargePlan_calibration Planner.envUncalibrated
           Planner.vehicleAt80 "home").
  - reflexivity.
  - simpl; lia.
  - simpl; intros r [<-|[<-|[]]]; simpl; lia.
Defined.

(** C5, as the specification states it, fails for [vehicleLow]: the plan so
    far holds the emergency segment kept from the stored plan, and the
    emergency block does not append to it. *)
Lemma emergency_segment_not_appended :
  Schema.level Planner.vehicleLow < Schema.minimum_charge Planner.vehicleLow
  /\ Planner.needsCalibration Planner.envNoPrices Planner.vehicleLow "home" = false
  /\ Planner.seedPlan Planner.vehicleLow = [Planner.staleEmergency]
  /\ Planner.emergencyStep Planner.envNoPrices Planner.vehicleLow "home"
       (Planner.seedPlan Planner.vehicleLow)
     <> Planner.seedPlan Planner.vehicleLow
        ++ [Planner.emergencySegment Planner.envNoPrices Planner.vehicleLow "home"]
  /\ ~ In Planner.staleEmergency
       (Planner.accumulatedPlan Planner.envNoPrices Planner.vehicleLow "home").
Proof.
  split; [simpl; lia|].
  split; [reflexivity|].
  split; [reflexivity|].
  split; [intros H; vm_compute in H; discriminate H|].
  intros H; vm_compute in H.
  destruct H as [H|[H|[H|[]]]]; discriminate H.
Qed.

(** C5, amended.  With the level below [minimum_charge] the emergency block
    replaces the plan so far, whatever it holds, by the emergency segment
    alone; outside the calibration case the plan handed to the reconciler is
    that segment followed by the later sub-plans. *)
Theorem emergency_segment_replaces_plan (env : Planner.Env)
  (v : Schema.DBVehicle) (loc : string) (plan : list ChargePlan) :
  Schema.level v < Schema.minimum_charge v ->
  Planner.needsCalibration env v loc = false ->
  let emergency :=
    mkChargePlan None
      (Some (Planner.dateOf
               (inject_Z (Planner.now env)
                + Planner.chargeDuration env v loc (Schema.level v)
                    (Schema.minimum_charge v))))
      (Schema.minimum_charge v) minimum "emergency charge" in
  Planner.emergencyStep env v loc plan = [emergency]
  /\ Planner.accumulatedPlan env v loc
     = emergency :: Planner.laterSubPlans env v loc.
Proof.
  intros Hlvl Hcal emergency.
  assert (Hstep : forall pl, Planner.emergencyStep env v loc pl = [emergency]).
  { intros pl; unfold Planner.emergencyStep.
    apply Z.ltb_lt in Hlvl; rewrite Hlvl; reflexivity. }
  split; [apply Hstep|].
  unfold Planner.accumulatedPlan; rewrite Hcal, Hstep; reflexivity.
Qed.

Lemma emergency_segment_replaces_plan_witness :
  Planner.accumulatedPlan Planner.envNoPrices Planner.vehicleLow "home"
  = mkChargePlan None (Some (at_ 8 0 + 3045000)) 50 minimum "emergency charge"
    :: Planner.laterSubPlans Planner.envNoPrices Planner.vehicleLow "home".
Proof.
  apply (emergency_segment_replaces_plan Planner.envNoPrices Planner.vehicleLow
           "home" (Planner.seedPlan Planner.vehicleLow)).
  - simpl; lia.
  - reflexivity.
Defined.

Lemma overMaxPrice_zero (maxPrice : Q) (p : Schema.DBPriceList) :
  (maxPrice == 0)%Q -> Planner.overMaxPrice (Some maxPrice) p = false.
Proof.
  intros H; unfold Planner.overMaxPrice, Planner.truthyQ.
  apply Qeq_bool_iff in H; rewrite H; reflexivity.
Qed.

Lemma planPrices_zero_maxPrice (maxPrice : Q) (nowMs : Z) (before : Q)
  (batteryLevel : Z) (chargeType : ChargeType) (comment : string)
  (prices : list Schema.DBPriceList) :
  (maxPrice == 0)%Q ->
  forall timeLeft,
    Planner.planPrices nowMs before (Some maxPrice) batteryLevel chargeType
      comment prices timeLeft
    = Planner.planPrices nowMs before None batteryLevel chargeType comment
        prices timeLeft.
Proof.
  intros H; induction prices as [|p rest IH]; intros timeLeft; [reflexivity|].
  cbn [Planner.planPrices].
  rewrite (overMaxPrice_zero maxPrice p H), IH; reflexivity.
Qed.

(** ** The threshold simulation *)

Lemma simulate_failed (mn mx : Z) (lct t : Q) (prev : option Stats.HistoryMap)
  (entries : list Stats.HistoryMap) (s : Stats.Sim) :
  Stats.failed s = true -> Stats.simulate mn mx lct t prev entries s = s.
Proof.
  intros H; destruct entries; cbn [Stats.simulate]; [reflexivity|].
  rewrite H; reflexivity.
Qed.

Lemma simulate_split (mn mx : Z) (lct t : Q) (p : Stats.HistoryMap)
  (rest pre : list Stats.HistoryMap) :
  forall prev s,
    Stats.simulate mn mx lct t prev (pre ++ p :: rest) s
    = Stats.simulate mn mx lct t (Some p) rest
        (Stats.simulate mn mx lct t prev (pre ++ [p]) s).
Proof.
  induction pre as [|x pre IH]; intros prev s.
  - cbn [app Stats.simulate].
    destruct (Stats.failed s) eqn:Hf;
      [now rewrite simulate_failed|].
    destruct (match prev with None => true | Some p0 => Stats.offsite p0 end);
      [reflexivity|].
    case_if; [now rewrite simulate_failed|reflexivity].
  - cbn [app Stats.simulate].
    destruct (Stats.failed s) eqn:Hf;
      [now rewrite simulate_failed|].
    destruct (match prev with None => true | Some p0 => Stats.offsite p0 end);
      [apply IH|].
    case_if; [now rewrite simulate_failed|apply IH].
Qed.

(** ** [currentStats] *)


Lemma newestStats_new_row (rows : list Schema.DBCurrentStats) (v l : string)
  (r : Schema.DBCurrentStats) :
  Stats.isFor v l r = true ->
  (forall x, In x rows -> Schema.stats_id x < Schema.stats_id r) ->
  Stats.newestStats (rows ++ [r]) v l = Some r.
Proof.
  intros Hr; induction rows as [|x rows IH]; intros Hlt; simpl.
  - rewrite Hr; reflexivity.
  - rewrite IH by (intros y Hy; apply Hlt; now right).
    destruct (Stats.isFor v l x); [|reflexivity].
    assert (Schema.stats_id x < Schema.stats_id r) by (apply Hlt; now left).
    destruct (Z.ltb_spec (Schema.stats_id r) (Schema.stats_id x)); [lia|reflexivity].
Qed.

Lemma next_stats_id_above (rows : list Schema.DBCurrentStats)
  (x : Schema.DBCurrentStats) :
  In x rows -> Schema.stats_id x < Stats.next_stats_id rows.
Proof.
  unfold Stats.next_stats_id; induction rows as [|y rows IH]; simpl; [tauto|].
  intros [->|H]; [lia|]. specialize (IH H); lia.
Qed.

Lemma isFor_refl (v l : string) (r : Schema.DBCurrentStats) :
  Schema.stats_vehicle_uuid r = v -> Schema.stats_location_uuid r = l ->
  Stats.isFor v l r = true.
Proof.
  intros <- <-; unfold Stats.isFor; now rewrite !String.eqb_refl.
Qed.





(** ** Trips *)

Lemma putTrip_same (t : Trips.TripTable) (r : Trips.DBTrip) :
  Trips.putTrip t r (Trips.trip_id r) = Some r.
Proof. unfold Trips.putTrip; now rewrite Z.eqb_refl. Qed.

Lemma putTrip_other (t : Trips.TripTable) (r : Trips.DBTrip) (id : Z) :
  id <> Trips.trip_id r -> Trips.putTrip t r id = t id.
Proof.
  intros H; unfold Trips.putTrip.
  destruct (Z.eqb_spec id (Trips.trip_id r)); [contradiction|reflexivity].
Qed.

Lemma deleteTrip_same (t : Trips.TripTable) (tid : Z) :
  Trips.deleteTrip t tid tid = None.
Proof. unfold Trips.deleteTrip; now rewrite Z.eqb_refl. Qed.

Lemma deleteTrip_other (t : Trips.TripTable) (tid id : Z) :
  id <> tid -> Trips.deleteTrip t tid id = t id.
Proof.
  intros H; unfold Trips.deleteTrip.
  destruct (Z.eqb_spec id tid); [contradiction|reflexivity].
Qed.

Lemma tripsInv_noShort (st : Trips.State) :
  Trips.tripsInv st -> Trips.noShortClosedTrip st.
Proof.
  intros [_ H] r [Hr Hc]; exact (H _ _ Hr Hc).
Qed.

Lemma tripsInv_intro (st : Trips.State) :
  Trips.keyed st -> Trips.noShortClosedTrip st -> Trips.tripsInv st.
Proof.
  intros Hk Hn; split; [exact Hk|].
  intros id r Hr Hc; apply Hn; destruct Hk as [Hk _].
  destruct (Hk _ _ Hr) as [<- _]; split; assumption.
Qed.

(** Leaving the trip open, or closing it after the check on its distance,
    keeps the invariant. *)
Lemma tripsInv_keep_open (st : Trips.State) (tr : Trips.DBTrip)
  (table : Trips.TripTable) (seq : Z) (loc : option string) :
  Trips.tripsInv st -> Trips.tripInHand st tr table seq ->
  Trips.tripsInv (Trips.mkState loc (Some (Trips.trip_id tr)) table seq).
Proof.
  intros [[K1 K2] N] (Hin & Hle & Hseq & Hother & Hcur).
  split; [split|]; cbn [Trips.trips Trips.trip_seq Trips.vehicle_trip_id].
  - intros id r Hr.
    destruct (Z.eq_dec id (Trips.trip_id tr)) as [->|Hne].
    + rewrite Hin in Hr; injection Hr as <-; auto.
    + rewrite (Hother _ Hne) in Hr. destruct (K1 _ _ Hr); split; auto; lia.
  - intros tid [= <-]; split; eauto.
  - intros id r Hr Hc.
    assert (Hne : id <> Trips.trip_id tr) by congruence.
    rewrite (Hother _ Hne) in Hr. apply (N _ _ Hr).
    destruct Hcur as [-> | ->]; congruence.
Qed.

Lemma tripsInv_close_checked (st : Trips.State) (tr : Trips.DBTrip)
  (table : Trips.TripTable) (seq : Z) (loc : option string) :
  Trips.tripsInv st -> Trips.tripInHand st tr table seq ->
  Trips.tripsInv (Trips.mkState loc None
              (if Trips.distance tr <? 1000
               then Trips.deleteTrip table (Trips.trip_id tr) else table)
              seq).
Proof.
  intros [[K1 K2] N] (Hin & Hle & Hseq & Hother & Hcur).
  assert (Hold : forall id r, id <> Trips.trip_id tr ->
                   table id = Some r ->
                   Trips.trip_id r = id /\ id <= seq /\ 1000 <= Trips.distance r).
  { intros id r Hne Hr; rewrite (Hother _ Hne) in Hr.
    destruct (K1 _ _ Hr); repeat split; auto; [lia|].
    apply (N _ _ Hr). destruct Hcur as [-> | ->]; congruence. }
  split; [split|]; cbn [Trips.trips Trips.trip_seq Trips.vehicle_trip_id].
  - intros id r Hr.
    destruct (Z.eq_dec id (Trips.trip_id tr)) as [->|Hne].
    + destruct (Trips.distance tr <? 1000).
      * rewrite deleteTrip_same in Hr; discriminate.
      * rewrite Hin in Hr; injection Hr as <-; auto.
    + assert (Hr' : table id = Some r).
      { destruct (Trips.distance tr <? 1000); auto.
        now rewrite deleteTrip_other in Hr. }
      destruct (Hold _ _ Hne Hr') as (? & ? & ?); auto.
  - discriminate.
  - intros id r Hr _.
    destruct (Z.eq_dec id (Trips.trip_id tr)) as [->|Hne].
    + destruct (Z.ltb_spec (Trips.distance tr) 1000).
      * rewrite deleteTrip_same in Hr; discriminate.
      * rewrite Hin in Hr; injection Hr as <-; auto.
    + assert (Hr' : table id = Some r).
      { destruct (Trips.distance tr <? 1000); auto.
        now rewrite deleteTrip_other in Hr. }
      destruct (Hold _ _ Hne Hr') as (? & ? & ?); auto.
Qed.

(** Writing the distance of the trip in hand. *)
Lemma tripInHand_update (st : Trips.State) (tr tr' : Trips.DBTrip)
  (table : Trips.TripTable) (seq : Z) :
  Trips.trip_id tr' = Trips.trip_id tr ->
  Trips.tripInHand st tr table seq ->
  Trips.tripInHand st tr' (Trips.putTrip table tr') seq.
Proof.
  intros Hid (Hin & Hle & Hseq & Hother & Hcur).
  unfold Trips.tripInHand; rewrite putTrip_same, Hid.
  repeat split; auto.
  intros id Hne; rewrite putTrip_other by congruence; auto.
Qed.

Lemma recordDistance_id (data : Trips.Sample) (tr : Trips.DBTrip) :
  Trips.trip_id (Trips.recordDistance data tr) = Trips.trip_id tr.
Proof. unfold Trips.recordDistance; case_if; reflexivity. Qed.

Lemma recordDistance_unchanged (data : Trips.Sample) (tr : Trips.DBTrip) :
  (0 <? Trips.odometer data - Trips.start_odometer tr - Trips.distance tr) = false ->
  Trips.recordDistance data tr = tr.
Proof. unfold Trips.recordDistance; intros ->; reflexivity. Qed.

Lemma openTrip_inHand (st : Trips.State) (data : Trips.Sample) :
  Trips.tripsInv st ->
  exists tr table seq,
    Trips.openTrip st data = Some (tr, table, seq)
    /\ Trips.tripInHand st tr table seq.
Proof.
  intros [[K1 K2] N]; unfold Trips.openTrip.
  destruct (Trips.vehicle_trip_id st) as [tid|] eqn:Hv.
  - destruct (K2 tid eq_refl) as [Hle [r Hr]]; rewrite Hr.
    exists r, (Trips.trips st), (Trips.trip_seq st); split; [reflexivity|].
    destruct (K1 _ _ Hr) as [Hid _].
    unfold Trips.tripInHand; rewrite Hid, Hv; repeat split; auto; lia.
  - eexists _, _, _; split; [reflexivity|].
    unfold Trips.tripInHand; rewrite putTrip_same, Hv; cbn [Trips.trip_id].
    repeat split; auto; try lia.
    intros id Hne; now rewrite putTrip_other.
Qed.

Lemma updateVehicleData_inv (st : Trips.State) (data : Trips.Sample) :
  Trips.tripsInv st -> Trips.connectsAway data = false ->
  exists st' b,
    Trips.updateVehicleData st data = Some (st', b) /\ Trips.tripsInv st'.
Proof.
  intros Hinv Haway.
  unfold Trips.updateVehicleData; cbv zeta.
  case_if.
  - (* moved, driving or on a trip *)
    destruct (openTrip_inHand st data Hinv) as (tr & table & seq & -> & Hhand).
    set (table' := if 0 <? _ then _ else table).
    assert (Hhand' : Trips.tripInHand st (Trips.recordDistance data tr) table' seq).
    { subst table'.
      destruct (0 <? _) eqn:Ht.
      - apply (tripInHand_update st tr); [apply recordDistance_id|exact Hhand].
      - rewrite (recordDistance_unchanged _ _ Ht); exact Hhand. }
    clearbody table'.
    unfold Trips.connectsAway in Haway.
    destruct (Trips.driving data); cbn [negb] in *.
    + eexists _, _; split; [reflexivity|].
      now apply tripsInv_keep_open with (st := st).
    + destruct (Trips.currentLocationUUID data) as [loc|]; cbn in Haway.
      * eexists _, _; split; [reflexivity|].
        now apply tripsInv_close_checked with (st := st).
      * rewrite Haway.
        eexists _, _; split; [reflexivity|].
        now apply tripsInv_keep_open with (st := st).
  - (* parked and not on a trip *)
    eexists _, _; split; [reflexivity|].
    destruct Hinv as [[K1 K2] N].
    split; [split|]; cbn [Trips.trips Trips.trip_seq Trips.vehicle_trip_id];
      auto.
Qed.

Lemma run_inv (samples : list Trips.Sample) :
  forall st,
    Trips.tripsInv st ->
    Forall (fun data => Trips.connectsAway data = false) samples ->
    exists st', Trips.run st samples = Some st' /\ Trips.tripsInv st'.
Proof.
  induction samples as [|data rest IH]; intros st Hinv Hall.
  - exists st; auto.
  - inversion Hall as [|? ? Hd Hrest]; subst.
    destruct (updateVehicleData_inv st data Hinv Hd) as (st1 & b & Hstep & Hinv1).
    cbn [Trips.run]; rewrite Hstep; now apply IH.
Qed.

(** C6, as the specification states it, fails on [toPublicCharger]: the trip
    is closed in the branch for a charger connected at an unknown location,
    which does not look at the distance, and the row stays in the table with
    its 400 m. *)
Lemma short_trip_kept_when_connected_away :
  exists st r,
    Trips.run Trips.parkedAtHome Trips.toPublicCharger = Some st
    /\ Trips.closedTrip st r
    /\ Trips.distance r = 400.
Proof.
  eexists _, (Trips.mkDBTrip 1 _ _ _ _ _ _ _ 400).
  split; [reflexivity|].
  split; [|reflexivity].
  split; [reflexivity|discriminate].
Qed.

(** C6, amended.  For every telemetry sequence in which the vehicle never
    connects a charger while stopped at an unknown location, processed from
    a store without a closed trip shorter than 1 km: every sample is
    processed, and no closed trip of the table is shorter than 1 km
    afterwards; a trip closed at a known location with less than 1000 m
    recorded is deleted. *)
Theorem short_trips_deleted_at_known_location (st : Trips.State)
  (samples : list Trips.Sample) :
  Trips.keyed st ->
  Trips.noShortClosedTrip st ->
  Forall (fun data => Trips.connectsAway data = false) samples ->
  exists st', Trips.run st samples = Some st' /\ Trips.noShortClosedTrip st'.
Proof.
  intros Hk Hn Hall.
  destruct (run_inv samples st (tripsInv_intro st Hk Hn) Hall) as (st' & Hrun & Hinv).
  exists st'; split; [exact Hrun|now apply tripsInv_noShort].
Qed.

Lemma short_trips_deleted_at_known_location_witness :
  exists st',
    Trips.run Trips.parkedAtHome Trips.aroundTheBlock = Some st'
    /\ Trips.noShortClosedTrip st'.
Proof.
  apply (short_trips_deleted_at_known_location Trips.parkedAtHome
           Trips.aroundTheBlock).
  - split; [intros id r H; discriminate H|intros tid H; discriminate H].
  - intros r [H _]; discriminate H.
  - repeat constructor.
Defined.

(* ================================================================== *)
(** * Further properties of the code *)
(* ================================================================== *)

(** ** The sort of [cleanupPlan] *)

Ltac open_compare :=
  unfold precedes, compare, JS.or, JS.sub, JS.truthy, JS.gtb, JS.ltb;
  read_dates; cbn [negb];
  repeat match goal with
  | |- context [Z.eqb ?x ?y] => destruct (Z.eqb_spec x y); cbn [negb]
  | |- context [Z.ltb ?x ?y] => destruct (Z.ltb_spec x y); cbn [negb]
  end;
  try reflexivity; try discriminate; try lia.

Lemma precedes_total (a b : ChargePlan) :
  precedes a b = false -> precedes b a = true.
Proof. open_compare. Qed.

Lemma precedes_trans (a b c : ChargePlan) :
  precedes a b = true -> precedes b c = true -> precedes a c = true.
Proof. open_compare. Qed.

Lemma insert_Permutation (a : ChargePlan) (l : list ChargePlan) :
  Permutation (insert a l) (a :: l).
Proof.
  induction l as [|b l IH]; simpl; [reflexivity|].
  case_if; [|reflexivity].
  rewrite IH; apply perm_swap.
Qed.

Lemma sort_Permutation (plan : list ChargePlan) : Permutation (sort plan) plan.
Proof.
  induction plan as [|a plan IH]; simpl; [reflexivity|].
  rewrite insert_Permutation; now constructor.
Qed.

Lemma insert_sorted (a : ChargePlan) (l : list ChargePlan) :
  StronglySorted (fun x y => precedes x y = true) l ->
  StronglySorted (fun x y => precedes x y = true) (insert a l).
Proof.
  induction 1 as [|b l Hs IH Hb]; cbn [insert]; [repeat constructor|].
  destruct (JS.gtb (compare a b) (JS.Fin 0)) eqn:Hgt.
  - constructor; [exact IH|].
    rewrite Forall_forall in *; intros x Hx.
    apply insert_In in Hx as [->|Hx]; [|now apply Hb].
    apply precedes_total; unfold precedes; now rewrite Hgt.
  - assert (Hab : precedes a b = true) by (unfold precedes; now rewrite Hgt).
    constructor; [now constructor|].
    constructor; [exact Hab|].
    rewrite Forall_forall in *; intros x Hx.
    apply (precedes_trans a b x Hab), Hb, Hx.
Qed.

Lemma sort_sorted (plan : list ChargePlan) :
  StronglySorted (fun x y => precedes x y = true) (sort plan).
Proof.
  induction plan as [|a plan IH]; simpl; [constructor|].
  now apply insert_sorted.
Qed.

(** X1.  [plan.sort(...)] in [cleanupPlan] rearranges the plan and leaves it
    in the order of the comparator: every segment may stay in front of every
    segment behind it. *)
Theorem sort_sorted_permutation (plan : list ChargePlan) :
  Permutation (sort plan) plan
  /\ StronglySorted (fun a b => precedes a b = true) (sort plan).
Proof. split; [apply sort_Permutation|apply sort_sorted]. Qed.

(** ** Neighbours in the reconciled plan *)

Lemma precedes_null (a b : ChargePlan) :
  precedes a b = true ->
  nstart (chargeStart b) = JS.NegInf ->
  nstart (chargeStart a) = JS.NegInf
  /\ JS.leb (nstop (chargeStop b)) (nstop (chargeStop a)) = true.
Proof.
  unfold precedes, compare, JS.or, JS.sub, JS.truthy, JS.gtb, JS.ltb, JS.leb.
  intros Hp Hb; rewrite Hb in *; revert Hp.
  destruct (nstart_cases (chargeStart a)) as [Hn | (t & Ht & He & Hn)];
    rewrite Hn; [|discriminate].
  destruct (nstop_cases (chargeStop a)) as [Hs | (s & Hs0 & Hes & Hs)];
    rewrite Hs;
    destruct (nstop_cases (chargeStop b)) as [Hs' | (s' & Hs0' & Hes' & Hs')];
    rewrite Hs'; cbn [negb]; try (split; [reflexivity|reflexivity]);
    try discriminate.
  destruct (Z.eqb_spec (s' - s) 0); cbn [negb]; intros Hp;
    (split; [reflexivity|apply Z.leb_le]); [lia|].
  destruct (Z.ltb_spec 0 (s' - s)); [discriminate|lia].
Qed.

Lemma nstart_set (n : option Z) : nstart n <> JS.NegInf -> n <> None.
Proof. intros H ->; now apply H. Qed.

Lemma sorted_tame (a : ChargePlan) (rest : list ChargePlan) :
  Forall (fun y => precedes a y = true) rest ->
  StronglySorted (fun x y => precedes x y = true) rest ->
  tame (nstop (chargeStop a)) rest.
Proof.
  induction rest as [|b r IH]; intros Ha Hs; [apply tame_set; constructor|].
  inversion Ha as [|? ? Hab Har]; subst.
  inversion Hs as [|? ? Hsr Hbr]; subst.
  destruct (nstart_cases (chargeStart b)) as [Hn | (t & Ht & He & Hn)].
  - apply tame_null; [exact Hn| |now apply IH].
    now apply precedes_null.
  - apply tame_set; constructor; [rewrite He; discriminate|].
    rewrite Forall_forall in *; intros c Hc.
    apply nstart_set; intros Hcn.
    destruct (precedes_null b c (Hbr c Hc) Hcn) as [Hbn _]; congruence.
Qed.

Lemma consolidate_from_head (rest : list ChargePlan) :
  forall a, exists h t,
    consolidate_from a rest = h :: t /\ chargeStart h = chargeStart a.
Proof.
  induction rest as [|b r IH]; intros a; cbn [consolidate_from]; [eauto|].
  case_if; [case_if; [|case_if]|]; eauto.
  destruct (IH (set_level
                  (if JS.gtb (nstop (chargeStop b)) (nstop (chargeStop a))
                   then set_chargeStop a (chargeStop b) else a)
                  (Z.max
                     (level (if JS.gtb (nstop (chargeStop b)) (nstop (chargeStop a))
                             then set_chargeStop a (chargeStop b) else a))
                     (level b)))) as (h & t & -> & Hh).
  exists h, t; split; [reflexivity|]; rewrite Hh.
  case_if; reflexivity.
Qed.

Lemma nonOverlapping_cons (a h : ChargePlan) (t : list ChargePlan) :
  nonOverlapping (a :: h :: t)
  = JS.leb (stopOf a) (startOf h) && nonOverlapping (h :: t).
Proof. reflexivity. Qed.

Lemma nstop_leb_PosInf (n : option Z) : JS.leb (nstop n) JS.PosInf = true.
Proof. destruct (nstop_cases n) as [-> | (t & _ & _ & ->)]; reflexivity. Qed.

Lemma nstart_leb_nstop_null (n : option Z) :
  JS.leb JS.NegInf (nstop n) = true.
Proof. destruct (nstop_cases n) as [-> | (t & _ & _ & ->)]; reflexivity. Qed.

(** What [consolidate()] emits in front of the segment it moves on to. *)
Lemma emitted_in_front (a' bstar : ChargePlan) (r : list ChargePlan) :
  JS.leb (stopOf a') (startOf bstar) = true ->
  chargeStart bstar <> None ->
  nonOverlapping (consolidate_from bstar r) = true
  /\ tailSet (consolidate_from bstar r) ->
  nonOverlapping (a' :: consolidate_from bstar r) = true
  /\ tailSet (a' :: consolidate_from bstar r).
Proof.
  intros Hle Hset [Hno Htail].
  destruct (consolidate_from_head r bstar) as (h & t & Hout & Hh).
  rewrite Hout in *; rewrite nonOverlapping_cons, Hno, andb_true_r.
  unfold startOf in *; rewrite Hh.
  split; [exact Hle|].
  cbn [tailSet] in *; constructor; [congruence|exact Htail].
Qed.

Lemma consolidate_from_neighbours (rest : list ChargePlan) :
  forall a,
    tame (nstop (chargeStop a)) rest ->
    nonOverlapping (consolidate_from a rest) = true
    /\ tailSet (consolidate_from a rest).
Proof.
  induction rest as [|b r IH]; intros a Ht;
    [split; [reflexivity|constructor]|].
  cbn [consolidate_from].
  inversion Ht as [rest0 Hall | b0 r0 Hnull Hle Htame]; subst.
  - (* every segment behind has a start *)
    inversion Hall as [|? ? Hb Hr]; subst.
    destruct (chargeStart b) as [t|] eqn:Hbs; [clear Hb|contradiction].
    assert (Hset : forall x, tame x r) by (intros; now apply tame_set).
    destruct (JS.leb (nstart (Some t)) (nstop (chargeStop a))) eqn:Hov.
    + destruct (ChargeType_eqb (chargeType a) (chargeType b)
                || JS.leb (nstop (chargeStop b)) (nstop (chargeStop a))) eqn:Hm.
      * apply IH, Hset.
      * apply orb_false_iff in Hm as [_ Hm].
        destruct (chargeStop a) as [s|] eqn:Has;
          [|now rewrite nstop_leb_PosInf in Hm].
        case_if.
        -- (* Push the next segment forward *)
           apply emitted_in_front; [| |apply IH, Hset].
           ++ unfold stopOf, startOf; cbn; rewrite Has; apply Z.leb_refl.
           ++ cbn; discriminate.
        -- (* Cut off the current segment *)
           apply emitted_in_front; [| |apply IH, Hset].
           ++ unfold stopOf, startOf; cbn; rewrite Hbs; apply Z.leb_refl.
           ++ rewrite Hbs; discriminate.
    + apply emitted_in_front; [| |apply IH, Hset].
      * unfold stopOf, startOf; rewrite Hbs.
        revert Hov; unfold nstart, nstop, JS.or, JS.truthy.
        destruct (chargeStop a) as [s|]; [|destruct (negb (t =? 0)); discriminate].
        destruct (Z.eqb_spec t 0), (Z.eqb_spec s 0); cbn; try discriminate.
        intros Hov; apply Z.leb_gt in Hov; apply Z.leb_le; lia.
      * rewrite Hbs; discriminate.
  - (* the next segment reads as starting now and is merged *)
    rewrite Hnull, nstart_leb_nstop_null, Hle, orb_true_r.
    assert (Hgt : JS.gtb (nstop (chargeStop b)) (nstop (chargeStop a)) = false).
    { revert Hle; unfold JS.gtb; read_dates; cbn; try discriminate; auto.
      intros H; apply Z.leb_le in H; apply Z.ltb_ge; lia. }
    rewrite Hgt; apply IH; exact Htame.
Qed.

Lemma JS_leb_trans (x y z : JS.num) :
  JS.leb x y = true -> JS.leb y z = true -> JS.leb x z = true.
Proof.
  destruct x, y, z; cbn; try discriminate; auto.
  intros H1 H2; apply Z.leb_le in H1, H2; apply Z.leb_le; lia.
Qed.

Lemma startOf_leb_refl (a : ChargePlan) : JS.leb (startOf a) (startOf a) = true.
Proof. unfold startOf; destruct (chargeStart a); cbn; auto using Z.leb_refl. Qed.

(** A shift happens between finite dates only, and moves the start of the
    segment forward. *)
Lemma shiftable_shifted (a b : ChargePlan) :
  shiftable a b = true ->
  exists ta tb sh,
    chargeStart a = Some ta /\ chargeStart b = Some tb /\ 0 < sh
    /\ chargeStart (shifted a b) = Some (ta + sh)
    /\ chargeStop (shifted a b) = Some tb.
Proof.
  unfold shiftable, shifted, shiftOf; intros H.
  apply andb_true_iff in H as [Hpos _]; revert Hpos.
  destruct (nstart_cases (chargeStart a)) as [Hn | (ta & Hta & Hea & Hn)];
    rewrite Hn;
    destruct (nstop_cases (chargeStop a)) as [Hs | (sa & Hsa & Hesa & Hs)];
    rewrite Hs;
    destruct (nstart_cases (chargeStart b)) as [Hb | (tb & Htb & Heb & Hb)];
    rewrite Hb; cbn; try discriminate.
  unfold JS.gtb, JS.min; cbn.
  destruct (tb - sa <=? ta - sa + 3600000); cbn; intros Hpos;
    apply Z.ltb_lt in Hpos; rewrite Hea, Heb.
  - exists ta, tb, (tb - sa); auto.
  - exists ta, tb, (ta - sa + 3600000); auto.
Qed.

Lemma shiftPass_head (b : ChargePlan) (tl : list ChargePlan) :
  exists h t,
    fst (shiftPass (b :: tl)) = h :: t
    /\ JS.leb (startOf b) (startOf h) = true
    /\ (chargeStart b <> None -> chargeStart h <> None).
Proof.
  destruct tl as [|c tl]; [exists b, []; auto using startOf_leb_refl|].
  change (shiftPass (b :: c :: tl)) with
    (let '(tl', s) := shiftPass (c :: tl) in
     if shiftable b c then (shifted b c :: tl', true) else (b :: tl', s)).
  destruct (shiftPass (c :: tl)) as [tl' s].
  destruct (shiftable b c) eqn:Hsh; cbn [fst].
  - destruct (shiftable_shifted b c Hsh) as (ta & tb & sh & Ha & Hb & Hpos & Hs & _).
    exists (shifted b c), tl'; split; [reflexivity|].
    unfold startOf; rewrite Ha, Hs; cbn.
    split; [apply Z.leb_le; lia|discriminate].
  - exists b, tl'; auto using startOf_leb_refl.
Qed.

Lemma shiftPass_neighbours (plan : list ChargePlan) :
  nonOverlapping plan = true -> tailSet plan ->
  nonOverlapping (fst (shiftPass plan)) = true
  /\ tailSet (fst (shiftPass plan)).
Proof.
  induction plan as [|a [|b tl] IH]; intros Hno Htail; auto.
  rewrite nonOverlapping_cons in Hno; apply andb_true_iff in Hno as [Hab Hno].
  cbn [tailSet] in Htail; inversion Htail as [|? ? Hb Htl]; subst.
  destruct (IH Hno Htl) as [Hno' Htail'].
  destruct (shiftPass_head b tl) as (h & t & Hout & Hbh & Hset).
  change (shiftPass (a :: b :: tl)) with
    (let '(tl', s) := shiftPass (b :: tl) in
     if shiftable a b then (shifted a b :: tl', true) else (a :: tl', s)).
  destruct (shiftPass (b :: tl)) as [tl' s]; cbn [fst] in *; subst tl'.
  assert (Hfront : forall a', JS.leb (stopOf a') (startOf b) = true ->
            nonOverlapping (a' :: h :: t) = true /\ tailSet (a' :: h :: t)).
  { intros a' Ha'; rewrite nonOverlapping_cons, Hno', andb_true_r.
    split; [now apply (JS_leb_trans _ (startOf b))|].
    cbn [tailSet] in *; constructor; auto. }
  destruct (shiftable a b) eqn:Hsh; cbn [fst]; apply Hfront; [|exact Hab].
  destruct (shiftable_shifted a b Hsh) as (ta & tb & sh & _ & Hbs & _ & _ & Hs).
  unfold stopOf, startOf; rewrite Hs, Hbs; apply Z.leb_refl.
Qed.

Lemma consolidate_neighbours_sorted (plan : list ChargePlan) :
  nonOverlapping (consolidate (sort plan)) = true
  /\ tailSet (consolidate (sort plan)).
Proof.
  pose proof (sort_sorted plan) as Hs.
  destruct (sort plan) as [|a rest]; [split; [reflexivity|exact I]|].
  inversion Hs as [|? ? Hrest Ha]; subst.
  apply consolidate_from_neighbours, sorted_tame; assumption.
Qed.

Lemma cleanupPlan_nonOverlapping (plan : list ChargePlan) :
  nonOverlapping (cleanupPlan plan) = true.
Proof.
  unfold cleanupPlan.
  destruct (consolidate_neighbours_sorted plan) as [Hno Htail].
  destruct (shiftPass_neighbours _ Hno Htail) as [Hno' Htail'].
  destruct (shiftPass (consolidate (sort plan))) as [p2 s]; cbn [fst] in *.
  destruct s; [|exact Hno'].
  destruct p2 as [|a rest]; [reflexivity|].
  apply consolidate_from_neighbours, tame_set, Htail'.
Qed.

Lemma nonOverlapping_ordered (plan : list ChargePlan) :
  nonOverlapping plan = true -> forwardInTime plan = true ->
  orderedByStart plan = true.
Proof.
  induction plan as [|a [|b tl] IH]; intros Hno Hfw; auto.
  rewrite nonOverlapping_cons in Hno; apply andb_true_iff in Hno as [Hab Hno].
  cbn [forwardInTime forallb] in Hfw; apply andb_true_iff in Hfw as [Ha Hfw].
  change (orderedByStart (a :: b :: tl))
    with (JS.leb (startOf a) (startOf b) && orderedByStart (b :: tl)).
  rewrite (IH Hno Hfw), andb_true_r.
  now apply (JS_leb_trans _ (stopOf a)).
Qed.

(** X2.  In the plan [cleanupPlan] returns no segment stops after the segment
    behind it starts: [segments[i].chargeStop <= segments[i+1].chargeStart]
    for every [i] ([null] stop = [Infinity], [null] start = [-Infinity]),
    for every input. *)
Theorem cleanupPlan_neighbours_do_not_overlap (plan : list ChargePlan) :
  nonOverlapping (cleanupPlan plan) = true.
Proof. apply cleanupPlan_nonOverlapping. Qed.

(** X3.  The plan [cleanupPlan] returns is ordered by [chargeStart] whenever
    none of its segments stops before it starts. *)
Theorem cleanupPlan_ordered_when_forward (plan : list ChargePlan) :
  forwardInTime (cleanupPlan plan) = true ->
  orderedByStart (cleanupPlan plan) = true.
Proof. apply nonOverlapping_ordered, cleanupPlan_nonOverlapping. Qed.

Lemma cleanupPlan_ordered_when_forward_witness :
  forwardInTime (cleanupPlan planThreeHalfHours) = true
  /\ orderedByStart (cleanupPlan planThreeHalfHours) = true.
Proof.
  split; [vm_compute; reflexivity|].
  apply (cleanupPlan_ordered_when_forward planThreeHalfHours).
  vm_compute; reflexivity.
Defined.

(** ** Size and content of the reconciled plan *)

Lemma consolidate_from_length (rest : list ChargePlan) :
  forall a,
    (1 <= List.length (consolidate_from a rest) <= S (List.length rest))%nat.
Proof.
  induction rest as [|b r IH]; intros a; cbn [consolidate_from List.length]; [lia|].
  case_if; [case_if; [|case_if]|]; cbn [List.length];
    match goal with
    | |- context [consolidate_from ?x r] => specialize (IH x); lia
    end.
Qed.

Lemma consolidate_length (plan : list ChargePlan) :
  (List.length (consolidate plan) <= List.length plan)%nat
  /\ (consolidate plan = [] -> plan = []).
Proof.
  destruct plan as [|a rest]; [auto|]; cbn [consolidate List.length].
  pose proof (consolidate_from_length rest a) as H.
  split; [lia|]. intros E; rewrite E in H; cbn in H; lia.
Qed.

Lemma shiftPass_length (plan : list ChargePlan) :
  List.length (fst (shiftPass plan)) = List.length plan.
Proof.
  rewrite <- (length_map level), shiftPass_levels; apply length_map.
Qed.

Lemma cleanupPlan_length (plan : list ChargePlan) :
  (List.length (cleanupPlan plan) <= List.length plan)%nat
  /\ (cleanupPlan plan = [] -> plan = []).
Proof.
  unfold cleanupPlan.
  pose proof (Permutation_length (sort_Permutation plan)) as Hs.
  destruct (consolidate_length (sort plan)) as [H1 E1].
  pose proof (shiftPass_length (consolidate (sort plan))) as H2.
  destruct (shiftPass (consolidate (sort plan))) as [p2 s]; cbn [fst] in H2.
  assert (Hend : p2 = [] -> plan = []).
  { intros ->; cbn in H2.
    destruct (consolidate (sort plan)); [|discriminate].
    specialize (E1 eq_refl); rewrite E1 in Hs.
    destruct plan; [reflexivity|discriminate]. }
  destruct s; [|split; [lia|exact Hend]].
  destruct (consolidate_length p2) as [H3 E3].
  split; [lia|auto].
Qed.

(** X4.  [cleanupPlan] never adds a segment, and it returns the empty plan
    for the empty plan only. *)
Theorem cleanupPlan_never_longer (plan : list ChargePlan) :
  (List.length (cleanupPlan plan) <= List.length plan)%nat
  /\ (cleanupPlan plan = [] <-> plan = []).
Proof.
  destruct (cleanupPlan_length plan) as [H E].
  split; [exact H|]. split; [exact E|intros ->; reflexivity].
Qed.

Lemma consolidate_from_tags (rest : list ChargePlan) :
  forall a s, In s (consolidate_from a rest) ->
              In (tagOf s) (tagOf a :: map tagOf rest).
Proof.
  induction rest as [|b r IH]; intros a s; cbn [consolidate_from].
  - intros [<-|[]]; now left.
  - case_if; [case_if; [|case_if]|].
    + intros H; apply IH in H as [H|H]; [left|right; now right].
      rewrite <- H; case_if; reflexivity.
    + intros [<-|H]; [now left|].
      apply IH in H as [H|H]; right; [left|now right].
      rewrite <- H; reflexivity.
    + intros [<-|H]; [now left|].
      apply IH in H; now right.
    + intros [<-|H]; [now left|].
      apply IH in H; now right.
Qed.

Lemma consolidate_tags (plan : list ChargePlan) (s : ChargePlan) :
  In s (consolidate plan) -> In (tagOf s) (map tagOf plan).
Proof.
  destruct plan as [|a rest]; [intros []|apply consolidate_from_tags].
Qed.

Lemma shiftPass_tags (plan : list ChargePlan) :
  map tagOf (fst (shiftPass plan)) = map tagOf plan.
Proof.
  induction plan as [|a [|b tl] IH]; auto.
  change (shiftPass (a :: b :: tl)) with
    (let '(tl', s) := shiftPass (b :: tl) in
     if shiftable a b then (shifted a b :: tl', true) else (a :: tl', s)).
  destruct (shiftPass (b :: tl)) as [tl' s]; cbn [fst] in IH.
  destruct (shiftable a b); cbn [fst map]; now rewrite IH.
Qed.

Lemma cleanupPlan_tags (plan : list ChargePlan) (s : ChargePlan) :
  In s (cleanupPlan plan) -> In (tagOf s) (map tagOf plan).
Proof.
  assert (H1 : forall x, In x (consolidate (sort plan)) ->
                         In (tagOf x) (map tagOf plan)).
  { intros x Hx; apply consolidate_tags, in_map_iff in Hx as (y & <- & Hy).
    apply in_map, sort_In, Hy. }
  unfold cleanupPlan.
  pose proof (shiftPass_tags (consolidate (sort plan))) as H2.
  destruct (shiftPass (consolidate (sort plan))) as [p2 sh]; cbn [fst] in H2.
  assert (H3 : forall x, In x p2 -> In (tagOf x) (map tagOf plan)).
  { intros x Hx; apply (in_map tagOf) in Hx; rewrite H2 in Hx.
    apply in_map_iff in Hx as (y & <- & Hy); auto. }
  destruct sh; [|apply H3].
  intros Hs; apply consolidate_tags, in_map_iff in Hs as (y & <- & Hy); auto.
Qed.

(** X5.  Every segment [cleanupPlan] returns has the charge type and the
    comment of one and the same segment of the input: merging changes stops
    and levels, pushing and shifting change starts, nothing changes what a
    segment is for. *)
Theorem cleanupPlan_keeps_type_and_comment (plan : list ChargePlan)
  (s : ChargePlan) :
  In s (cleanupPlan plan) ->
  exists s0, In s0 plan /\ chargeType s = chargeType s0
             /\ comment s = comment s0.
Proof.
  intros H; apply cleanupPlan_tags, in_map_iff in H as (s0 & Ht & Hs0).
  exists s0; injection Ht as -> ->; auto.
Qed.

Lemma cleanupPlan_keeps_type_and_comment_witness :
  exists s0, In s0 planShiftScenario
             /\ fill = chargeType s0 /\ "low price"%string = comment s0.
Proof.
  apply (cleanupPlan_keeps_type_and_comment planShiftScenario
           (seg (at_ 7 30) (at_ 8 0) 60 fill "low price")).
  vm_compute; auto.
Defined.

(** ** A segment without start and stop *)

Lemma set_level_set_level (a : ChargePlan) (x y : Z) :
  set_level (set_level a x) y = set_level a y.
Proof. reflexivity. Qed.

Lemma nstart_leb_PosInf (n : option Z) : JS.leb (nstart n) JS.PosInf = true.
Proof. destruct (nstart_cases n) as [-> | (t & _ & _ & ->)]; reflexivity. Qed.

Lemma nstop_not_gt_PosInf (n : option Z) : JS.gtb (nstop n) JS.PosInf = false.
Proof. destruct (nstop_cases n) as [-> | (t & _ & _ & ->)]; reflexivity. Qed.

(** A segment that reads as never stopping absorbs every segment behind
    it. *)
Lemma consolidate_from_open_end (rest : list ChargePlan) :
  forall a,
    nstop (chargeStop a) = JS.PosInf ->
    consolidate_from a rest
    = [set_level a (fold_left Z.max (map level rest) (level a))].
Proof.
  induction rest as [|b r IH]; intros a Ha; cbn [consolidate_from].
  - destruct a; reflexivity.
  - rewrite Ha, nstart_leb_PosInf, nstop_leb_PosInf, orb_true_r,
      nstop_not_gt_PosInf.
    rewrite IH by exact Ha.
    rewrite set_level_set_level; reflexivity.
Qed.

Lemma fold_max_ge (l : list Z) :
  forall m, m <= fold_left Z.max l m
            /\ (forall x, In x l -> x <= fold_left Z.max l m)
            /\ (fold_left Z.max l m = m \/ In (fold_left Z.max l m) l).
Proof.
  induction l as [|y l IH]; intros m; cbn [fold_left].
  - repeat split; [lia|intros x []|now left].
  - destruct (IH (Z.max m y)) as (H1 & H2 & H3).
    split; [lia|]. split.
    + intros x [->|Hx]; [lia|now apply H2].
    + destruct H3 as [H3|H3]; [|right; now right].
      rewrite H3. destruct (Z.max_spec m y) as [[_ ->]|[_ ->]];
        [right; now left|now left].
Qed.

Lemma sorted_head_open_end (h0 s : ChargePlan) (rest : list ChargePlan) :
  StronglySorted (fun x y => precedes x y = true) (h0 :: rest) ->
  In s (h0 :: rest) ->
  chargeStart s = None -> chargeStop s = None ->
  nstart (chargeStart h0) = JS.NegInf /\ nstop (chargeStop h0) = JS.PosInf.
Proof.
  intros Hs [->|Hin] Hs1 Hs2; [rewrite Hs1, Hs2; auto|].
  inversion Hs as [|? ? _ Hall]; subst.
  rewrite Forall_forall in Hall.
  destruct (precedes_null h0 s (Hall s Hin)) as [Hn Hle];
    [now rewrite Hs1|].
  split; [exact Hn|].
  rewrite Hs2 in Hle; cbn [nstop] in Hle.
  destruct (nstop_cases (chargeStop h0)) as [H | (t & _ & _ & H)];
    [exact H|rewrite H in Hle; discriminate].
Qed.

Lemma cleanupPlan_open_end (plan : list ChargePlan) (s : ChargePlan) :
  In s plan -> chargeStart s = None -> chargeStop s = None ->
  exists h,
    cleanupPlan plan = [h]
    /\ nstart (chargeStart h) = JS.NegInf
    /\ nstop (chargeStop h) = JS.PosInf
    /\ (forall x, In x plan -> level x <= level h)
    /\ (exists x, In x plan /\ level h = level x).
Proof.
  intros Hin Hs1 Hs2.
  pose proof (sort_sorted plan) as Hsorted.
  pose proof (sort_Permutation plan) as Hperm.
  assert (Hin' : In s (sort plan))
    by (apply (Permutation_in s (Permutation_sym Hperm)), Hin).
  unfold cleanupPlan.
  destruct (sort plan) as [|h0 rest]; [destruct Hin'|].
  destruct (sorted_head_open_end h0 s rest Hsorted Hin' Hs1 Hs2) as [Hn Hp].
  cbn [consolidate]; rewrite (consolidate_from_open_end rest h0 Hp).
  cbn [shiftPass].
  destruct (fold_max_ge (map level rest) (level h0)) as (H1 & H2 & H3).
  eexists; split; [reflexivity|].
  cbn [set_level chargeStart chargeStop level].
  split; [exact Hn|]. split; [exact Hp|]. split.
  - intros x Hx; apply (Permutation_in x (Permutation_sym Hperm)) in Hx.
    destruct Hx as [<-|Hx]; [exact H1|].
    apply H2, in_map, Hx.
  - destruct H3 as [H3|H3].
    + exists h0; split; [apply (Permutation_in h0 Hperm); now left|exact H3].
    + apply in_map_iff in H3 as (x & Hx & Hxin).
      exists x; split; [apply (Permutation_in x Hperm); now right|now rewrite Hx].
Qed.

(** X6.  A segment without start and stop ("from now on, until done")
    anywhere in the plan makes [cleanupPlan] return a single segment, which
    reads as starting now and never stopping and has the highest level of
    the plan. *)
Theorem cleanupPlan_open_end_absorbs (plan : list ChargePlan) (s : ChargePlan) :
  In s plan -> chargeStart s = None -> chargeStop s = None ->
  exists h,
    cleanupPlan plan = [h]
    /\ nstart (chargeStart h) = JS.NegInf
    /\ nstop (chargeStop h) = JS.PosInf
    /\ (forall x, In x plan -> level x <= level h)
    /\ (exists x, In x plan /\ level h = level x).
Proof. apply cleanupPlan_open_end. Qed.

Lemma cleanupPlan_open_end_absorbs_witness :
  exists h,
    cleanupPlan planWithOpenEnd = [h]
    /\ nstart (chargeStart h) = JS.NegInf
    /\ nstop (chargeStop h) = JS.PosInf
    /\ (forall x, In x planWithOpenEnd -> level x <= level h)
    /\ (exists x, In x planWithOpenEnd /\ level h = level x).
Proof.
  apply (cleanupPlan_open_end_absorbs planWithOpenEnd
           (mkChargePlan None None 100 calibrate "Charge calibration")).
  - right; left; reflexivity.
  - reflexivity.
  - reflexivity.
Defined.

(** ** [chargeDuration] on all levels *)

Lemma chargeDuration_loop_sum_clamped (curve : Z -> Z) (to : Z) (n : nat) :
  forall (level : Z) (sum : Q),
    level + Z.of_nat n = to + 1 ->
    (Curve.chargeDuration_loop n curve level to sum * 1000 ==
     sum * 1000 +
     fold_right Qplus 0
       (map (fun l => inject_Z (curve (Z.min 100 l))
                      * (if l <? to then 1 else 0.75) * 1000)
          (map (fun k => (level + Z.of_nat k)%Z) (seq 0 n))))%Q.
Proof.
  induction n as [|n IH]; intros level sum Hn.
  - simpl. ring.
  - rewrite levels_from_succ.
    cbn [Curve.chargeDuration_loop map fold_right].
    destruct (Z.leb_spec level to) as [Hle|Hgt]; [|lia].
    rewrite IH by lia.
    ring.
Qed.

(** X7.  For all levels, [chargeDuration] is the sum over [l = from..to] of
    [curve[Math.min(100, l)]], the last level counted at 0.75, times 1000:
    levels above 100 are charged at the duration of level 100, and the sum
    is empty for [from > to]. *)
Theorem chargeDuration_clamps_levels (rows : list Curve.ChargeCurveRow)
  (vehicleUUID locationUUID : string) (from to : Z) :
  (Curve.chargeDuration rows vehicleUUID locationUUID from to ==
   Curve.specDuration
     (fun l => Curve.getChargeCurve rows vehicleUUID locationUUID (Z.min 100 l))
     from to)%Q.
Proof.
  unfold Curve.chargeDuration, Curve.specDuration, Curve.levelsFromTo.
  destruct (Z.le_gt_cases from to) as [Hle|Hgt].
  - rewrite chargeDuration_loop_sum_clamped by lia. ring.
  - replace (Z.to_nat (to - from + 1)) with 0%nat by lia.
    cbn. ring.
Qed.

Lemma getChargeCurve_pos (rows : list Curve.ChargeCurveRow) (v l : string)
  (lvl : Z) :
  (forall r, In r rows -> 0 < Curve.duration r) ->
  0 < Curve.getChargeCurve rows v l lvl.
Proof.
  intros H; unfold Curve.getChargeCurve.
  destruct (find _ _) as [r|] eqn:Hf; [|lia].
  apply find_some in Hf as [Hr _].
  apply H; unfold Curve.rowsOf in Hr; apply filter_In in Hr; tauto.
Qed.

Lemma term_pos (c : Z) (b : bool) :
  0 < c -> (0 < inject_Z c * (if b then 1 else 0.75))%Q.
Proof.
  intros Hc; apply Qmult_lt_0_compat.
  - unfold Qlt; cbn; lia.
  - destruct b; reflexivity.
Qed.

Lemma chargeDuration_loop_mono (curve : Z -> Z) (to : Z) (n : nat) :
  (forall l, 0 < curve l) ->
  forall level sum,
    (sum <= Curve.chargeDuration_loop n curve level to sum)%Q.
Proof.
  intros Hc; induction n as [|n IH]; intros level sum;
    cbn [Curve.chargeDuration_loop]; [apply Qle_refl|].
  case_if; [|apply Qle_refl].
  eapply Qle_trans; [|apply IH].
  rewrite <- (Qplus_0_r sum) at 1.
  apply Qplus_le_r, Qlt_le_weak, term_pos, Hc.
Qed.

Lemma chargeDuration_loop_pos (curve : Z -> Z) (to : Z) (n : nat) :
  (forall l, 0 < curve l) ->
  forall level, level <= to ->
    (0 < Curve.chargeDuration_loop (S n) curve level to 0)%Q.
Proof.
  intros Hc level Hle; cbn [Curve.chargeDuration_loop].
  apply Z.leb_le in Hle; rewrite Hle.
  eapply Qlt_le_trans; [|apply chargeDuration_loop_mono, Hc].
  rewrite Qplus_0_l; apply term_pos, Hc.
Qed.

Lemma chargeDuration_pos (rows : list Curve.ChargeCurveRow) (v l : string)
  (from to : Z) :
  (forall r, In r rows -> 0 < Curve.duration r) ->
  from <= to ->
  (0 < Curve.chargeDuration rows v l from to)%Q.
Proof.
  intros Hrows Hft; unfold Curve.chargeDuration.
  destruct (Z.to_nat (to - from + 1)) as [|n] eqn:Hn; [lia|].
  apply Qmult_lt_0_compat; [|reflexivity].
  apply chargeDuration_loop_pos; [|exact Hft].
  intros lvl; now apply getChargeCurve_pos.
Qed.

Lemma chargeDuration_none (rows : list Curve.ChargeCurveRow) (v l : string)
  (from to : Z) :
  to < from -> Curve.chargeDuration rows v l from to = (0 * 1000)%Q.
Proof.
  intros H; unfold Curve.chargeDuration.
  replace (Z.to_nat (to - from + 1)) with 0%nat by lia; reflexivity.
Qed.

(** X8.  With positive stored durations, [chargeDuration] is positive for
    every [from <= to], also for [from = to] where no percent is missing,
    and it is 0 for [from > to]. *)
Theorem chargeDuration_sign (rows : list Curve.ChargeCurveRow)
  (vehicleUUID locationUUID : string) (from to : Z) :
  (forall r, In r rows -> 0 < Curve.duration r) ->
  if from <=? to
  then (0 < Curve.chargeDuration rows vehicleUUID locationUUID from to)%Q
  else (Curve.chargeDuration rows vehicleUUID locationUUID from to == 0)%Q.
Proof.
  intros Hrows; destruct (Z.leb_spec from to).
  - now apply chargeDuration_pos.
  - rewrite chargeDuration_none by lia; reflexivity.
Qed.

Lemma chargeDuration_sign_witness :
  (0 < Curve.chargeDuration Curve.rowsOneMinute "v1" "home" 51 51)%Q.
Proof.
  apply (chargeDuration_sign Curve.rowsOneMinute "v1" "home" 51 51).
  intros r [<-|[<-|[<-|[<-|[]]]]]; reflexivity.
Defined.

(** ** [generateChargePlan] *)

Lemma Qltb_true (a b : Q) : Planner.Qltb a b = true <-> (a < b)%Q.
Proof.
  unfold Planner.Qltb; rewrite negb_true_iff; split.
  - intros H; apply Qnot_le_lt; intros Hle.
    apply Qle_bool_iff in Hle; congruence.
  - intros H; destruct (Qle_bool b a) eqn:E; [|reflexivity].
    apply Qle_bool_iff in E; now apply Qlt_not_le in H.
Qed.

Lemma Qltb_false (a b : Q) : Planner.Qltb a b = false <-> (b <= a)%Q.
Proof.
  unfold Planner.Qltb; rewrite negb_false_iff; apply Qle_bool_iff.
Qed.

Lemma dateOf_le (x : Q) (n : Z) : (x <= inject_Z n)%Q -> Planner.dateOf x <= n.
Proof.
  intros H; unfold Planner.dateOf; case_if.
  - rewrite <- (Qfloor_Z n); now apply Qfloor_resp_le.
  - rewrite <- (Qceiling_Z n); now apply Qceiling_resp_le.
Qed.

Lemma insertByPrice_In (p x : Schema.DBPriceList) (l : list Schema.DBPriceList) :
  In x (Planner.insertByPrice p l) -> x = p \/ In x l.
Proof.
  induction l as [|q l IH]; cbn [Planner.insertByPrice].
  - intros [<-|[]]; auto.
  - case_if.
    + intros [<-|H]; [right; now left|].
      destruct (IH H); auto; right; now right.
    + intros [<-|H]; auto.
Qed.

Lemma priceMap_In (env : Planner.Env) (loc : string) (before : Q)
  (p : Schema.DBPriceList) :
  In p (Planner.priceMap env loc before) ->
  In p (Schema.my_price_list (Planner.locations env) (Planner.price_list env) loc)
  /\ Planner.now env - 3600000 <= Schema.ts p
  /\ Schema.ts p < Planner.dateOf before.
Proof.
  unfold Planner.priceMap.
  generalize (Schema.my_price_list (Planner.locations env)
                (Planner.price_list env) loc) as l.
  induction l as [|q l IH]; cbn [filter fold_right]; [intros []|].
  case_if;
    [|intros H; destruct (IH H) as (? & ? & ?); split; [now right|auto]].
  intros H; cbn [fold_right] in H.
  apply insertByPrice_In in H as [->|H].
  - apply andb_true_iff in Heqb as [H1 H2].
    apply Z.leb_le in H1; apply Z.ltb_lt in H2; split; [now left|auto].
  - destruct (IH H) as (? & ? & ?); split; [now right|auto].
Qed.

Lemma planPrices_segments (nowMs : Z) (before : Q) (maxPrice : option Q)
  (batteryLevel : Z) (chargeType : ChargeType) (comment : string)
  (prices : list Schema.DBPriceList) :
  forall timeLeft s,
    In s (Planner.planPrices nowMs before maxPrice batteryLevel chargeType
            comment prices timeLeft) ->
    exists p e,
      In p prices
      /\ Planner.overMaxPrice maxPrice p = false
      /\ s = mkChargePlan (Some (Schema.ts p)) (Some e) batteryLevel chargeType
               comment
      /\ e <= Schema.ts p + 3600000.
Proof.
  induction prices as [|p rest IH]; intros timeLeft s;
    cbn [Planner.planPrices]; [intros []|].
  case_if; [intros []|].
  destruct (Planner.overMaxPrice maxPrice p) eqn:Hmax; [intros []|].
  intros [<-|H].
  - eexists p, _; split; [now left|]. split; [exact Hmax|]. split.
    + f_equal. f_equal.
      destruct (Z.ltb_spec (Schema.ts p) nowMs) as [Hlt|Hge].
      * apply Z.ltb_lt in Hlt; rewrite Hlt; reflexivity.
      * rewrite Z.ltb_irrefl; reflexivity.
    + apply dateOf_le, Q.le_min_r.
  - destruct (IH _ _ H) as (q & e & Hq & Hm & Hs & He).
    exists q, e; split; [now right|auto].
Qed.

(** X9.  [generateChargePlan] returns no segment for a target level below
    the level of the vehicle. *)
Theorem generateChargePlan_target_below_level (env : Planner.Env)
  (v : Schema.DBVehicle) (loc : string) (batteryLevel : Z)
  (chargeType : ChargeType) (comment : string) (before maxPrice : option Q) :
  batteryLevel < Schema.level v ->
  Planner.generateChargePlan env v loc batteryLevel chargeType comment before
    maxPrice = [].
Proof.
  intros H; unfold Planner.generateChargePlan, Planner.chargeDuration.
  rewrite chargeDuration_none by exact H; reflexivity.
Qed.

Lemma generateChargePlan_target_below_level_witness :
  Planner.generateChargePlan Planner.envPrices Planner.vehicleAt80 "home" 70
    fill "low price" None None = [].
Proof.
  apply (generateChargePlan_target_below_level Planner.envPrices
           Planner.vehicleAt80 "home" 70 fill "low price" None None).
  simpl; lia.
Defined.

(** X10.  With positive stored durations and no price cap,
    [generateChargePlan] returns at least one segment for every target at or
    above the level of the vehicle: a vehicle that is at the target already
    still gets a segment (three quarters of the duration of that percent). *)
Theorem generateChargePlan_target_reached_still_plans (env : Planner.Env)
  (v : Schema.DBVehicle) (loc : string) (batteryLevel : Z)
  (chargeType : ChargeType) (comment : string) (before : option Q) :
  (forall r, In r (Planner.charge_curve env) -> 0 < Curve.duration r) ->
  Schema.level v <= batteryLevel ->
  Planner.generateChargePlan env v loc batteryLevel chargeType comment before
    None <> [].
Proof.
  intros Hrows Hlvl; unfold Planner.generateChargePlan.
  assert (Hpos : (0 < Planner.chargeDuration env v loc (Schema.level v)
                        batteryLevel)%Q)
    by (apply chargeDuration_pos; assumption).
  pose proof Hpos as Hb; apply Qltb_true in Hb; rewrite Hb.
  destruct (Planner.priceMap env loc _) as [|p rest]; [discriminate|].
  cbn [Planner.planPrices].
  destruct (Qle_bool _ 0) eqn:Hle; [|discriminate].
  apply Qle_bool_iff in Hle; now apply Qlt_not_le in Hpos.
Qed.

Lemma generateChargePlan_target_reached_still_plans_witness :
  Planner.generateChargePlan Planner.envPrices Planner.vehicleAt80 "home" 80
    fill "low price" None None <> [].
Proof.
  apply (generateChargePlan_target_reached_still_plans Planner.envPrices
           Planner.vehicleAt80 "home" 80 fill "low price" None).
  - intros r [<-|[<-|[]]]; reflexivity.
  - simpl; lia.
Defined.

Lemma generateChargePlan_uniform (env : Planner.Env)
  (v : Schema.DBVehicle) (loc : string) (batteryLevel : Z)
  (ty : ChargeType) (cmt : string) (before maxPrice : option Q)
  (s : ChargePlan) :
  In s (Planner.generateChargePlan env v loc batteryLevel ty cmt before
          maxPrice) ->
  level s = batteryLevel /\ comment s = cmt /\ chargeStop s <> None
  /\ (chargeType s = ty \/ (chargeType s = routine /\ chargeStart s = None)).
Proof.
  unfold Planner.generateChargePlan.
  case_if; [|intros []].
  destruct (Planner.priceMap env loc _) as [|p rest].
  - intros [<-|[]]; cbn; repeat split; auto; discriminate.
  - intros H; apply planPrices_segments in H as (q & e & _ & _ & -> & _).
    cbn; repeat split; auto; discriminate.
Qed.

(** X11.  Every segment [generateChargePlan] returns is for the target level
    with the comment handed in and has a stop; it has the charge type handed
    in, or it is the one segment of a location without prices, which starts
    now and is always of type [routine]. *)
Theorem generateChargePlan_segments_uniform (env : Planner.Env)
  (v : Schema.DBVehicle) (loc : string) (batteryLevel : Z)
  (ty : ChargeType) (cmt : string) (before maxPrice : option Q)
  (s : ChargePlan) :
  In s (Planner.generateChargePlan env v loc batteryLevel ty cmt before
          maxPrice) ->
  level s = batteryLevel /\ comment s = cmt /\ chargeStop s <> None
  /\ (chargeType s = ty \/ (chargeType s = routine /\ chargeStart s = None)).
Proof. apply generateChargePlan_uniform. Qed.

Lemma generateChargePlan_segments_uniform_witness :
  level (mkChargePlan None (Some (at_ 8 0 + 1075000)) 90 routine "low price") = 90
  /\ comment (mkChargePlan None (Some (at_ 8 0 + 1075000)) 90 routine "low price")
     = "low price"%string
  /\ chargeStop (mkChargePlan None (Some (at_ 8 0 + 1075000)) 90 routine
                   "low price") <> None
  /\ (chargeType (mkChargePlan None (Some (at_ 8 0 + 1075000)) 90 routine
                    "low price") = fill
      \/ (chargeType (mkChargePlan None (Some (at_ 8 0 + 1075000)) 90 routine
                        "low price") = routine
          /\ chargeStart (mkChargePlan None (Some (at_ 8 0 + 1075000)) 90
                            routine "low price") = None)).
Proof.
  apply (generateChargePlan_segments_uniform Planner.envNoPrices
           Planner.vehicleAt80 "home" 90 fill "low price" None None).
  vm_compute; auto.
Defined.

(** X12.  A segment of [generateChargePlan] that has a start begins at a
    price point of the location that is at most one hour old, stops one hour
    after that point at the latest, and, under a price cap that is not 0,
    that price point is not above the cap. *)
Theorem generateChargePlan_within_price_hours (env : Planner.Env)
  (v : Schema.DBVehicle) (loc : string) (batteryLevel : Z)
  (ty : ChargeType) (cmt : string) (before maxPrice : option Q)
  (s : ChargePlan) :
  In s (Planner.generateChargePlan env v loc batteryLevel ty cmt before
          maxPrice) ->
  chargeStart s <> None ->
  exists p e,
    In p (Schema.my_price_list (Planner.locations env)
            (Planner.price_list env) loc)
    /\ chargeStart s = Some (Schema.ts p)
    /\ chargeStop s = Some e
    /\ Planner.now env - 3600000 <= Schema.ts p
    /\ e <= Schema.ts p + 3600000
    /\ match maxPrice with
       | Some m => ~ (m == 0)%Q -> (inject_Z (Schema.price p) <= m)%Q
       | None => True
       end.
Proof.
  unfold Planner.generateChargePlan.
  case_if; [|intros []].
  destruct (Planner.priceMap env loc _) as [|p0 rest] eqn:Hmap.
  - intros [<-|[]] Hs; now contradiction Hs.
  - intros H _; apply planPrices_segments in H as (q & e & Hq & Hmax & -> & He).
    rewrite <- Hmap in Hq; apply priceMap_In in Hq as (Hin & Hts & _).
    exists q, e; repeat split; auto.
    destruct maxPrice as [m|]; [|exact I].
    intros Hm; unfold Planner.overMaxPrice, Planner.truthyQ in Hmax.
    destruct (Qeq_bool m 0) eqn:Hz; [apply Qeq_bool_iff in Hz; contradiction|].
    cbn in Hmax; now apply Qltb_false in Hmax.
Qed.

Lemma generateChargePlan_within_price_hours_witness :
  exists p e,
    In p (Schema.my_price_list (Planner.locations Planner.envPrices)
            (Planner.price_list Planner.envPrices) "home")
    /\ Some (at_ 9 0) = Some (Schema.ts p)
    /\ Some (at_ 9 0 + 1075000) = Some e
    /\ Planner.now Planner.envPrices - 3600000 <= Schema.ts p
    /\ e <= Schema.ts p + 3600000
    /\ (~ (40000 == 0)%Q -> (inject_Z (Schema.price p) <= 40000)%Q).
Proof.
  apply (generateChargePlan_within_price_hours Planner.envPrices
           Planner.vehicleAt80 "home" 90 fill "low price" None (Some 40000%Q)
           (mkChargePlan (Some (at_ 9 0)) (Some (at_ 9 0 + 1075000)) 90 fill
              "low price")).
  - vm_compute; auto.
  - discriminate.
Defined.

(** X13.  Where the location has no price point younger than an hour,
    [generateChargePlan] returns one segment that starts now, stops after
    the time needed and is of type [routine], whatever type was asked for. *)
Theorem generateChargePlan_without_prices (env : Planner.Env)
  (v : Schema.DBVehicle) (loc : string) (batteryLevel : Z)
  (ty : ChargeType) (cmt : string) (before maxPrice : option Q) :
  (forall p, In p (Schema.my_price_list (Planner.locations env)
                     (Planner.price_list env) loc) ->
             Schema.ts p < Planner.now env - 3600000) ->
  (0 < Planner.chargeDuration env v loc (Schema.level v) batteryLevel)%Q ->
  Planner.generateChargePlan env v loc batteryLevel ty cmt before maxPrice
  = [ mkChargePlan None
        (Some (Planner.dateOf
                 (inject_Z (Planner.now env)
                  + Planner.chargeDuration env v loc (Schema.level v)
                      batteryLevel)))
        batteryLevel routine cmt ].
Proof.
  intros Hold Hpos; unfold Planner.generateChargePlan.
  apply Qltb_true in Hpos; rewrite Hpos.
  destruct (Planner.priceMap env loc _) as [|p rest] eqn:Hmap; [reflexivity|].
  assert (Hin : In p (Planner.priceMap env loc
                        match before with
                        | Some b => if Planner.truthyQ before then b
                                    else inject_Z (10 ^ 14)
                        | None => inject_Z (10 ^ 14)
                        end)) by (rewrite Hmap; now left).
  apply priceMap_In in Hin as (Hin & Hts & _).
  specialize (Hold p Hin); lia.
Qed.

Lemma generateChargePlan_without_prices_witness :
  Planner.generateChargePlan Planner.envNoPrices Planner.vehicleAt80 "home" 90
    fill "low price" None None
  = [ mkChargePlan None (Some (at_ 8 0 + 1075000)) 90 routine "low price" ].
Proof.
  apply (generateChargePlan_without_prices Planner.envNoPrices
           Planner.vehicleAt80 "home" 90 fill "low price" None None).
  - intros p [].
  - reflexivity.
Defined.

(** ** [refreshVehicleChargePlan] *)

Lemma filter_none {A : Type} (f : A -> bool) (l : list A) :
  (forall x, f x = false) -> filter f l = [].
Proof.
  intros H; induction l as [|x l IH]; cbn [filter]; [reflexivity|].
  now rewrite H.
Qed.

Lemma seedPlan_empty (v : Schema.DBVehicle) :
  Schema.minimum_charge v + 1 <= Schema.level v -> Planner.seedPlan v = [].
Proof.
  intros H; unfold Planner.seedPlan.
  destruct (Schema.charge_plan v) as [cp|]; [|reflexivity].
  rewrite filter_none; [reflexivity|].
  intros f; apply andb_false_iff; right; apply Z.ltb_ge; lia.
Qed.

Lemma tripStep_none (env : Planner.Env) (v : Schema.DBVehicle) (loc : string)
  (d : Q) :
  Schema.scheduled_trip v = None -> Planner.tripStep env v loc d = ([], d).
Proof. intros H; unfold Planner.tripStep; now rewrite H. Qed.

Lemma round_le (x : Q) (n : Z) : (x <= inject_Z n)%Q -> Planner.round x <= n.
Proof.
  intros H; unfold Planner.round.
  destruct (Z.le_gt_cases (Qfloor (x + (1 # 2))) n) as [|Hgt]; [assumption|].
  exfalso. pose proof (Qfloor_le (x + (1 # 2))) as Hf.
  assert (Hn : (inject_Z (n + 1) <= inject_Z (Qfloor (x + (1 # 2))))%Q)
    by (rewrite <- Zle_Qle; lia).
  rewrite inject_Z_plus in Hn; change (inject_Z 1) with 1%Q in Hn.
  generalize dependent (inject_Z (Qfloor (x + (1 # 2)))).
  generalize dependent (inject_Z n). intros; lra.
Qed.

Lemma midpoint_le (m M : Z) :
  m <= M -> (inject_Z m + inject_Z (M - m) / 2 <= inject_Z M)%Q.
Proof.
  intros H; rewrite Zle_Qle in H.
  unfold Z.sub; rewrite inject_Z_plus, inject_Z_opp.
  unfold Qdiv; change (/ 2)%Q with (1 # 2)%Q.
  generalize dependent (inject_Z m); generalize (inject_Z M); intros; lra.
Qed.

Lemma routineStep_levels (env : Planner.Env) (v : Schema.DBVehicle)
  (loc : string) (s : ChargePlan) :
  In s (fst (Planner.routineStep env v loc)) ->
  level s <= Schema.maximum_charge v.
Proof.
  unfold Planner.routineStep.
  assert (Hlearn : In s [mkChargePlan None None (Schema.maximum_charge v) fill
                           "learning"] -> level s <= Schema.maximum_charge v)
    by (intros [<-|[]]; cbn; lia).
  case_if; [|intros []].
  destruct (Planner.stats env) as [st|]; [|exact Hlearn].
  case_if; [exact Hlearn|].
  destruct (Planner.guess_before env) as [gb|]; [|exact Hlearn].
  destruct (Planner.guess_charge env) as [gc|]; [|exact Hlearn].
  case_if; [exact Hlearn|].
  cbn [fst]; intros H; apply in_app_or in H as [H|H].
  - apply generateChargePlan_uniform in H as [-> _]; lia.
  - revert H; case_if; [|intros []].
    intros H; apply generateChargePlan_uniform in H as [-> _].
    case_if; [lia|].
    apply round_le, midpoint_le; lia.
Qed.

Lemma fillStep_levels (env : Planner.Env) (v : Schema.DBVehicle) (loc : string)
  (d : Q) (s : ChargePlan) :
  In s (Planner.fillStep env v loc d) -> level s = Schema.maximum_charge v.
Proof.
  unfold Planner.fillStep; destruct (Planner.stats env); [|intros []].
  intros H; now apply generateChargePlan_uniform in H as [-> _].
Qed.

Lemma accumulatedPlan_levels (env : Planner.Env) (v : Schema.DBVehicle)
  (loc : string) (s : ChargePlan) :
  Schema.scheduled_trip v = None ->
  Schema.minimum_charge v <= Schema.maximum_charge v ->
  Schema.level v < Schema.minimum_charge v
  \/ Schema.minimum_charge v + 1 <= Schema.level v ->
  Planner.needsCalibration env v loc = false ->
  In s (Planner.accumulatedPlan env v loc) ->
  level s <= Schema.maximum_charge v.
Proof.
  intros Htrip Hmm Hseed Hcal; unfold Planner.accumulatedPlan.
  rewrite Hcal; intros H; apply in_app_or in H as [H|H].
  - unfold Planner.emergencyStep in H; revert H; case_if.
    + intros [<-|[]]; cbn; lia.
    + apply Z.ltb_ge in Heqb. rewrite seedPlan_empty by lia. intros [].
  - unfold Planner.laterSubPlans in H.
    pose proof (routineStep_levels env v loc s) as Hr.
    destruct (Planner.routineStep env v loc) as [rp d]; cbn [fst] in Hr.
    rewrite (tripStep_none env v loc d Htrip) in H.
    apply in_app_or in H as [H|H]; [auto|].
    cbn [app] in H; apply fillStep_levels in H; lia.
Qed.

Lemma refreshVehicleChargePlan_written (env : Planner.Env)
  (v : Schema.DBVehicle) (loc : string) :
  Schema.location_uuid v = Some loc ->
  Planner.refreshVehicleChargePlan env v
  = Some (match Planner.accumulatedPlan env v loc with
          | [] => None
          | _ :: _ => Some (cleanupPlan (Planner.accumulatedPlan env v loc))
          end)
  /\ (Planner.accumulatedPlan env v loc <> [] ->
      cleanupPlan (Planner.accumulatedPlan env v loc) <> []).
Proof.
  intros Hloc; unfold Planner.refreshVehicleChargePlan; rewrite Hloc.
  assert (Hne : Planner.accumulatedPlan env v loc <> [] ->
                cleanupPlan (Planner.accumulatedPlan env v loc) <> [])
    by (intros Hacc E; apply cleanupPlan_length in E; contradiction).
  split; [|exact Hne].
  destruct (Planner.accumulatedPlan env v loc) as [|a acc]; [reflexivity|].
  destruct (cleanupPlan (a :: acc)) eqn:E; [|reflexivity].
  exfalso; apply Hne; [discriminate|reflexivity].
Qed.


(** X15.  Without a scheduled trip, outside the calibration case and with
    no segment taken over from the stored plan (the level is not exactly
    [minimum_charge]), no segment of the plan written asks for more than
    [maximum_charge]. *)
Theorem refreshVehicleChargePlan_levels_capped (env : Planner.Env)
  (v : Schema.DBVehicle) (loc : string) (plan : list ChargePlan)
  (s : ChargePlan) :
  Schema.location_uuid v = Some loc ->
  Schema.scheduled_trip v = None ->
  Schema.minimum_charge v <= Schema.maximum_charge v ->
  Schema.level v < Schema.minimum_charge v
  \/ Schema.minimum_charge v + 1 <= Schema.level v ->
  Planner.needsCalibration env v loc = false ->
  Planner.refreshVehicleChargePlan env v = Some (Some plan) ->
  In s plan ->
  level s <= Schema.maximum_charge v.
Proof.
  intros Hloc Htrip Hmm Hseed Hcal Hplan Hs.
  destruct (refreshVehicleChargePlan_written env v loc Hloc) as [E _].
  rewrite E in Hplan.
  destruct (Planner.accumulatedPlan env v loc) as [|a acc] eqn:Hacc;
    [discriminate|].
  injection Hplan as <-.
  pose proof (cleanupPlan_levelsWithin (a :: acc)) as Hl.
  unfold levelsWithin in Hl; rewrite Forall_forall in Hl.
  apply Hl, in_map_iff in Hs as (s0 & <- & Hs0).
  apply (accumulatedPlan_levels env v loc s0 Htrip Hmm Hseed Hcal).
  now rewrite Hacc.
Qed.

Lemma refreshVehicleChargePlan_levels_capped_witness :
  level (mkChargePlan None None 90 fill "learning") <= 90.
Proof.
  apply (refreshVehicleChargePlan_levels_capped Planner.envNoPrices
           Planner.vehicleAt80 "home"
           [mkChargePlan None None 90 fill "learning"]
           (mkChargePlan None None 90 fill "learning")).
  - reflexivity.
  - reflexivity.
  - simpl; lia.
  - right; simpl; lia.
  - reflexivity.
  - vm_compute; reflexivity.
  - now left.
Defined.

(** ** The plan while the planner is learning *)

Lemma cleanupPlan_open_end_strong (plan : list ChargePlan) (s : ChargePlan) :
  In s plan -> chargeStart s = None -> chargeStop s = None ->
  exists h0 L,
    In h0 plan
    /\ nstop (chargeStop h0) = JS.PosInf
    /\ cleanupPlan plan = [set_level h0 L]
    /\ (forall x, In x plan -> level x <= L)
    /\ (exists x, In x plan /\ L = level x).
Proof.
  intros Hin Hs1 Hs2.
  pose proof (sort_sorted plan) as Hsorted.
  pose proof (sort_Permutation plan) as Hperm.
  assert (Hin' : In s (sort plan))
    by (apply (Permutation_in s (Permutation_sym Hperm)), Hin).
  unfold cleanupPlan.
  destruct (sort plan) as [|h0 rest]; [destruct Hin'|].
  destruct (sorted_head_open_end h0 s rest Hsorted Hin' Hs1 Hs2) as [Hn Hp].
  cbn [consolidate]; rewrite (consolidate_from_open_end rest h0 Hp).
  cbn [shiftPass].
  destruct (fold_max_ge (map level rest) (level h0)) as (H1 & H2 & H3).
  exists h0, (fold_left Z.max (map level rest) (level h0)).
  split; [apply (Permutation_in h0 Hperm); now left|].
  split; [exact Hp|]. split; [reflexivity|]. split.
  - intros x Hx; apply (Permutation_in x (Permutation_sym Hperm)) in Hx.
    destruct Hx as [<-|Hx]; [exact H1|].
    apply H2, in_map, Hx.
  - destruct H3 as [H3|H3].
    + exists h0; split; [apply (Permutation_in h0 Hperm); now left|exact H3].
    + apply in_map_iff in H3 as (x & Hx & Hxin).
      exists x; split; [apply (Permutation_in x Hperm); now right|now rewrite Hx].
Qed.

Lemma dateOf_ge (x : Q) (n : Z) : (inject_Z n <= x)%Q -> n <= Planner.dateOf x.
Proof.
  intros H; unfold Planner.dateOf; case_if.
  - rewrite <- (Qfloor_Z n) at 1; now apply Qfloor_resp_le.
  - rewrite <- (Qceiling_Z n) at 1; now apply Qceiling_resp_le.
Qed.

Lemma dateOf_ge_inv (x : Q) : 1 <= Planner.dateOf x -> (1 <= x)%Q.
Proof.
  unfold Planner.dateOf; destruct (Qle_bool 0 x) eqn:E; intros H.
  - eapply Qle_trans; [|apply Qfloor_le].
    change 1%Q with (inject_Z 1); rewrite <- Zle_Qle; exact H.
  - exfalso.
    assert (Hx : (x <= inject_Z 0)%Q).
    { apply Qlt_le_weak, Qnot_le_lt; intros Hle.
      change (inject_Z 0) with 0%Q in Hle.
      apply Qle_bool_iff in Hle; congruence. }
    apply Qceiling_resp_le in Hx; rewrite Qceiling_Z in Hx; lia.
Qed.

Lemma planPrices_stops_positive (nowMs : Z) (before : Q) (maxPrice : option Q)
  (batteryLevel : Z) (ty : ChargeType) (cmt : string)
  (prices : list Schema.DBPriceList) :
  0 < nowMs -> (1 <= before)%Q ->
  (forall p, In p prices -> 0 < Schema.ts p) ->
  forall timeLeft s,
    In s (Planner.planPrices nowMs before maxPrice batteryLevel ty cmt prices
            timeLeft) ->
    exists e, chargeStop s = Some e /\ 0 < e.
Proof.
  intros Hnow Hbefore; induction prices as [|p rest IH]; intros Hts timeLeft s;
    cbn [Planner.planPrices]; [intros []|].
  destruct (Qle_bool timeLeft 0) eqn:Hleft; [intros []|].
  case_if; [intros []|].
  intros [<-|H]; [|apply (IH (fun q Hq => Hts q (or_intror Hq)) _ _ H)].
  eexists; split; [reflexivity|].
  assert (Hp : 0 < Schema.ts p) by (apply Hts; now left).
  assert (Htl : (0 < timeLeft)%Q).
  { apply Qnot_le_lt; intros Hle; apply Qle_bool_iff in Hle; congruence. }
  apply Z.lt_le_trans with 1; [lia|].
  apply dateOf_ge, Q.min_glb; [apply Q.min_glb; [|exact Hbefore]|].
  - assert (Hs : (inject_Z 1 <= inject_Z (if Schema.ts p <? nowMs then nowMs
                                           else Schema.ts p))%Q)
      by (rewrite <- Zle_Qle; case_if; lia).
    generalize dependent (inject_Z (if Schema.ts p <? nowMs then nowMs
                                    else Schema.ts p)).
    change (inject_Z 1) with 1%Q; intros; lra.
  - rewrite <- Zle_Qle; lia.
Qed.

Lemma generateChargePlan_stops_positive (env : Planner.Env)
  (v : Schema.DBVehicle) (loc : string) (batteryLevel : Z) (ty : ChargeType)
  (cmt : string) (before maxPrice : option Q) (s : ChargePlan) :
  3600000 < Planner.now env ->
  In s (Planner.generateChargePlan env v loc batteryLevel ty cmt before
          maxPrice) ->
  exists e, chargeStop s = Some e /\ 0 < e.
Proof.
  intros Hnow; unfold Planner.generateChargePlan.
  destruct (Planner.Qltb 0 _) eqn:Hpos; [|intros []].
  apply Qltb_true in Hpos.
  destruct (Planner.priceMap env loc _) as [|p rest] eqn:Hmap.
  - intros [<-|[]]; eexists; split; [reflexivity|].
    apply Z.lt_le_trans with (Planner.now env); [lia|].
    apply dateOf_ge.
    generalize dependent (Planner.chargeDuration env v loc (Schema.level v)
                            batteryLevel).
    generalize (inject_Z (Planner.now env)); intros; lra.
  - rewrite <- Hmap.
    assert (Hall : forall q, In q (p :: rest) ->
              0 < Schema.ts q
              /\ (1 <= match before with
                       | Some b => if Planner.truthyQ before then b
                                   else inject_Z (10 ^ 14)
                       | None => inject_Z (10 ^ 14)
                       end)%Q).
    { intros q Hq; rewrite <- Hmap in Hq.
      apply priceMap_In in Hq as (_ & H1 & H2).
      split; [lia|apply dateOf_ge_inv; lia]. }
    apply planPrices_stops_positive; [lia| |].
    + apply (Hall p); now left.
    + rewrite Hmap; intros q Hq; now apply Hall.
Qed.

Lemma routineStep_learning (env : Planner.Env) (v : Schema.DBVehicle)
  (loc : string) :
  Schema.level v <= Schema.maximum_charge v ->
  Planner.isLearning env = true ->
  Planner.routineStep env v loc = ([Planner.learningSegment v], 0%Q).
Proof.
  intros Hlvl; unfold Planner.isLearning, Planner.routineStep.
  apply Z.leb_le in Hlvl; rewrite Hlvl.
  destruct (Planner.stats env) as [st|]; [|reflexivity].
  destruct (negb (Planner.truthyZ (Schema.level_charge_time st)));
    [reflexivity|]; cbn [orb].
  destruct (Planner.guess_before env) as [gb|]; [|reflexivity].
  destruct (Planner.guess_charge env) as [gc|]; [|reflexivity].
  intros ->; reflexivity.
Qed.

Lemma learning_accumulated (env : Planner.Env) (v : Schema.DBVehicle)
  (loc : string) :
  Schema.level v <= Schema.maximum_charge v ->
  Planner.isLearning env = true ->
  Schema.scheduled_trip v = None ->
  Schema.level v < Schema.minimum_charge v
  \/ Schema.minimum_charge v + 1 <= Schema.level v ->
  Planner.needsCalibration env v loc = false ->
  3600000 < Planner.now env ->
  (forall r, In r (Planner.charge_curve env) -> 0 < Curve.duration r) ->
  In (Planner.learningSegment v) (Planner.accumulatedPlan env v loc)
  /\ forall x, In x (Planner.accumulatedPlan env v loc) ->
               x = Planner.learningSegment v
               \/ exists e, chargeStop x = Some e /\ 0 < e.
Proof.
  intros Hlvl Hlearn Htrip Hseed Hcal Hnow Hrows.
  unfold Planner.accumulatedPlan, Planner.laterSubPlans; rewrite Hcal.
  rewrite (routineStep_learning env v loc Hlvl Hlearn).
  rewrite (tripStep_none env v loc _ Htrip).
  split; [apply in_or_app; right; now left|].
  intros x Hx; apply in_app_or in Hx as [Hx|[<-|Hx]]; [|now left|].
  - right; unfold Planner.emergencyStep in Hx; revert Hx; case_if.
    + intros [<-|[]]; eexists; split; [reflexivity|].
      apply Z.ltb_lt in Heqb.
      apply Z.lt_le_trans with (Planner.now env); [lia|].
      apply dateOf_ge.
      assert (Hpos : (0 < Planner.chargeDuration env v loc (Schema.level v)
                            (Schema.minimum_charge v))%Q)
        by (apply chargeDuration_pos; [exact Hrows|lia]).
      generalize dependent (Planner.chargeDuration env v loc (Schema.level v)
                              (Schema.minimum_charge v)).
      generalize (inject_Z (Planner.now env)); intros; lra.
    + apply Z.ltb_ge in Heqb. rewrite seedPlan_empty by lia. intros [].
  - right; cbn [app] in Hx; unfold Planner.fillStep in Hx.
    destruct (Planner.stats env); [|destruct Hx].
    now apply generateChargePlan_stops_positive in Hx.
Qed.

(** X16.  While the planner is learning (no statistics or no prediction
    yet), with no scheduled trip, outside the calibration case, with the
    level at most [maximum_charge] and not exactly [minimum_charge], the
    plan written is the single segment
    [{null, null, maximum_charge, fill, "learning"}]: the emergency segment
    and the low-price segments are merged into it.  (The clock is past the
    first hour of 1970 and the stored durations are positive.) *)
Theorem refreshVehicleChargePlan_learning (env : Planner.Env)
  (v : Schema.DBVehicle) (loc : string) :
  Schema.location_uuid v = Some loc ->
  Planner.needsCalibration env v loc = false ->
  Planner.isLearning env = true ->
  Schema.scheduled_trip v = None ->
  Schema.level v <= Schema.maximum_charge v ->
  Schema.minimum_charge v <= Schema.maximum_charge v ->
  Schema.level v < Schema.minimum_charge v
  \/ Schema.minimum_charge v + 1 <= Schema.level v ->
  3600000 < Planner.now env ->
  (forall r, In r (Planner.charge_curve env) -> 0 < Curve.duration r) ->
  Planner.refreshVehicleChargePlan env v
  = Some (Some [mkChargePlan None None (Schema.maximum_charge v) fill
                  "learning"]).
Proof.
  intros Hloc Hcal Hlearn Htrip Hlvl Hmm Hseed Hnow Hrows.
  destruct (learning_accumulated env v loc Hlvl Hlearn Htrip Hseed Hcal Hnow
              Hrows) as [Hin Hothers].
  pose proof (accumulatedPlan_levels env v loc) as Hlevels.
  destruct (refreshVehicleChargePlan_written env v loc Hloc) as [-> _].
  destruct (cleanupPlan_open_end_strong _ _ Hin eq_refl eq_refl)
    as (h0 & L & Hh0 & Hstop & Hclean & Hmax & (x & Hx & HL)).
  assert (Eh : h0 = Planner.learningSegment v).
  { destruct (Hothers h0 Hh0) as [E|(e & He & Hpos)]; [exact E|].
    rewrite He in Hstop; unfold nstop, JS.or in Hstop; cbn in Hstop.
    destruct (Z.eqb_spec e 0); [lia|discriminate]. }
  assert (EL : L = Schema.maximum_charge v).
  { apply Z.le_antisymm.
    - rewrite HL; now apply (Hlevels x Htrip Hmm Hseed Hcal).
    - apply (Hmax _ Hin). }
  rewrite Hclean, Eh, EL.
  destruct (Planner.accumulatedPlan env v loc); [destruct Hin|reflexivity].
Qed.

Lemma refreshVehicleChargePlan_learning_witness :
  Planner.refreshVehicleChargePlan Planner.envNoPrices Planner.vehicleLow
  = Some (Some [mkChargePlan None None 90 fill "learning"]).
Proof.
  apply (refreshVehicleChargePlan_learning Planner.envNoPrices
           Planner.vehicleLow "home").
  - reflexivity.
  - reflexivity.
  - reflexivity.
  - reflexivity.
  - simpl; lia.
  - simpl; lia.
  - left; simpl; lia.
  - vm_compute; reflexivity.
  - intros r [<-|[<-|[]]]; reflexivity.
Defined.

(** ** Candidates of the threshold simulation *)

Lemma insertQ_In (x y : Q) (l : list Q) :
  In x (Stats.insertQ y l) -> x = y \/ In x l.
Proof.
  induction l as [|z l IH]; cbn [Stats.insertQ].
  - intros [<-|[]]; auto.
  - case_if.
    + intros [<-|H]; [right; now left|].
      destruct (IH H); auto; right; now right.
    + intros [<-|H]; auto.
Qed.

Lemma sortQ_In (x : Q) (l : list Q) :
  In x (fold_right Stats.insertQ [] l) -> In x l.
Proof.
  induction l as [|y l IH]; cbn [fold_right]; [auto|].
  intros H; apply insertQ_In in H as [->|H]; [now left|right; auto].
Qed.

Lemma uniqueQ_In (x : Q) (l : list Q) :
  forall seen, In x (Stats.uniqueQ seen l) -> In x l.
Proof.
  induction l as [|y l IH]; intros seen; cbn [Stats.uniqueQ]; [auto|].
  case_if.
  - intros H; right; eauto.
  - intros [<-|H]; [now left|right; eauto].
Qed.

Lemma thresholds_observed (x : Q) (historyMap : list Stats.HistoryMap) :
  forall acc,
    In x (fold_left
            (fun p c => map Stats.hour_threshold (Stats.hours c) ++ p)
            historyMap acc) ->
    In x acc
    \/ exists e hr, In e historyMap /\ In hr (Stats.hours e)
                    /\ x = Stats.hour_threshold hr.
Proof.
  induction historyMap as [|c h IH]; intros acc; cbn [fold_left]; [auto|].
  intros H; apply IH in H as [H|(e & hr & He & Hhr & Hx)].
  - apply in_app_or in H as [H|H]; [|now left].
    apply in_map_iff in H as (hr & <- & Hhr).
    right; exists c, hr; split; [now left|auto].
  - right; exists e, hr; split; [now right|auto].
Qed.

Lemma thresholdList_observed (x : Q) (historyMap : list Stats.HistoryMap) :
  In x (Stats.thresholdList historyMap) ->
  exists e hr, In e historyMap /\ In hr (Stats.hours e)
               /\ x = Stats.hour_threshold hr.
Proof.
  unfold Stats.thresholdList; intros H.
  apply sortQ_In, uniqueQ_In, thresholds_observed in H as [[]|H]; exact H.
Qed.

Lemma selected_from_candidates (mn mx : Z) (lct : Q)
  (historyMap : list Stats.HistoryMap) (candidates : list Q) :
  forall best,
    snd (fold_left (Stats.consider mn mx lct historyMap) candidates best)
    = snd best
    \/ In (snd (fold_left (Stats.consider mn mx lct historyMap) candidates
                  best)) candidates.
Proof.
  induction candidates as [|t l IH]; intros best; cbn [fold_left];
    [now left|].
  destruct (IH (Stats.consider mn mx lct historyMap best t)) as [H|H];
    [|right; now right].
  rewrite H; unfold Stats.consider; case_if; [right; now left|now left].
Qed.

(** X17.  The threshold [createNewStats] selects is the initial 1 or the
    threshold of an hour of the history: no other candidate is tried. *)
Theorem selectThreshold_is_observed (mn mx : Z) (lct : Q)
  (historyMap : list Stats.HistoryMap) :
  Stats.selectThreshold mn mx lct historyMap = 1%Q
  \/ exists e hr,
       In e historyMap /\ In hr (Stats.hours e)
       /\ Stats.selectThreshold mn mx lct historyMap = Stats.hour_threshold hr.
Proof.
  unfold Stats.selectThreshold.
  destruct (selected_from_candidates mn mx lct historyMap
              (Stats.thresholdList historyMap) (Stats.RPosInf, 1%Q)) as [H|H];
    [now left|right].
  now apply thresholdList_observed.
Qed.

(** ** Levels of the simulation *)

Lemma Stats_Qltb_true (a b : Q) : Stats.Qltb a b = true -> (a < b)%Q.
Proof.
  unfold Stats.Qltb; rewrite negb_true_iff; intros H.
  apply Qnot_le_lt; intros Hle; apply Qle_bool_iff in Hle; congruence.
Qed.

Lemma neededLevel_le_max (mn mx : Z) (e : Stats.HistoryMap) :
  (Stats.neededLevel mn mx e <= inject_Z mx)%Q.
Proof. apply Q.le_min_l. Qed.

Lemma chargeHour_level (mn mx : Z) (lct t : Q) (e : Stats.HistoryMap)
  (s : Stats.Sim) (h : Stats.HistoryHour) :
  (0 < lct)%Q -> (0 <= Stats.fraction h)%Q ->
  (Stats.lvl s <= inject_Z mx)%Q ->
  (Stats.lvl s <= Stats.lvl (Stats.chargeHour mn mx lct t e s h))%Q
  /\ (Stats.lvl (Stats.chargeHour mn mx lct t e s h) <= inject_Z mx)%Q.
Proof.
  intros Hlct Hf Hmx; unfold Stats.chargeHour.
  set (charge := if Qle_bool (Stats.hour_threshold h) t then _ else _).
  destruct (Stats.Qltb 0 charge) eqn:Hc;
    [|split; [apply Qle_refl|exact Hmx]].
  apply Stats_Qltb_true in Hc; cbn [Stats.lvl].
  split; [|apply Q.le_min_l].
  apply Q.min_glb; [exact Hmx|].
  assert (Htime : (0 <= Qmin (3600 * Stats.fraction h) (charge * lct))%Q).
  { apply Q.min_glb.
    - apply Qmult_le_0_compat; [discriminate|exact Hf].
    - apply Qlt_le_weak, Qmult_lt_0_compat; assumption. }
  assert (Hdiv : (0 <= Qmin (3600 * Stats.fraction h) (charge * lct) / lct)%Q).
  { apply Qmult_le_0_compat; [exact Htime|].
    apply Qlt_le_weak, Qinv_lt_0_compat, Hlct. }
  generalize dependent (Qmin (3600 * Stats.fraction h) (charge * lct) / lct)%Q.
  intros; lra.
Qed.

Lemma insertByThreshold_In (h x : Stats.HistoryHour) (l : list Stats.HistoryHour) :
  In x (Stats.insertByThreshold h l) -> x = h \/ In x l.
Proof.
  induction l as [|g l IH]; cbn [Stats.insertByThreshold].
  - intros [<-|[]]; auto.
  - case_if.
    + intros [<-|H]; [right; now left|].
      destruct (IH H); auto; right; now right.
    + intros [<-|H]; auto.
Qed.

Lemma sortByThreshold_In (x : Stats.HistoryHour) (l : list Stats.HistoryHour) :
  In x (Stats.sortByThreshold l) -> In x l.
Proof.
  unfold Stats.sortByThreshold.
  induction l as [|y l IH]; cbn [fold_right]; [auto|].
  intros H; apply insertByThreshold_In in H as [->|H]; [now left|right; auto].
Qed.

Lemma smartHours_level (mn mx : Z) (lct t : Q) (e : Stats.HistoryMap)
  (hs : list Stats.HistoryHour) :
  (0 < lct)%Q ->
  (forall h, In h hs -> (0 <= Stats.fraction h)%Q) ->
  forall s,
    (Stats.lvl s <= inject_Z mx)%Q ->
    (Stats.lvl s <= Stats.lvl (fold_left (Stats.chargeHour mn mx lct t e) hs s))%Q
    /\ (Stats.lvl (fold_left (Stats.chargeHour mn mx lct t e) hs s)
        <= inject_Z mx)%Q.
Proof.
  intros Hlct; induction hs as [|h hs IH]; intros Hf s Hmx; cbn [fold_left];
    [split; [apply Qle_refl|exact Hmx]|].
  destruct (chargeHour_level mn mx lct t e s h Hlct (Hf h (or_introl eq_refl))
              Hmx) as [H1 H2].
  destruct (IH (fun g Hg => Hf g (or_intror Hg)) _ H2) as [H3 H4].
  split; [eapply Qle_trans; eassumption|exact H4].
Qed.

Lemma chargeHours_level (mn mx : Z) (lct t : Q) (e : Stats.HistoryMap)
  (hs : list Stats.HistoryHour) :
  (0 < lct)%Q ->
  (forall h, In h hs -> (0 <= Stats.fraction h)%Q) ->
  forall s,
    (Stats.lvl s <= inject_Z mx)%Q ->
    (Stats.lvl s <= Stats.lvl (Stats.chargeHours mn mx lct t e hs s))%Q
    /\ (Stats.lvl (Stats.chargeHours mn mx lct t e hs s) <= inject_Z mx)%Q.
Proof.
  intros Hlct; induction hs as [|h hs IH]; intros Hf s Hmx;
    cbn [Stats.chargeHours]; [split; [apply Qle_refl|exact Hmx]|].
  case_if.
  - apply smartHours_level; [exact Hlct| |exact Hmx].
    intros g Hg; apply Hf, sortByThreshold_In, Hg.
  - destruct (chargeHour_level mn mx lct t e s h Hlct (Hf h (or_introl eq_refl))
                Hmx) as [H1 H2].
    destruct (IH (fun g Hg => Hf g (or_intror Hg)) _ H2) as [H3 H4].
    split; [eapply Qle_trans; eassumption|exact H4].
Qed.

(** X18.  Over the hours of a connection the simulated level never drops
    and never passes [maximum_charge], for a positive [level_charge_time],
    hour fractions that are not negative and a level that starts at or
    below [maximum_charge]. *)
Theorem chargeHours_level_bounds (mn mx : Z) (lct t : Q)
  (e : Stats.HistoryMap) (s : Stats.Sim) :
  (0 < lct)%Q ->
  (forall h, In h (Stats.hours e) -> (0 <= Stats.fraction h)%Q) ->
  (Stats.lvl s <= inject_Z mx)%Q ->
  (Stats.lvl s <= Stats.lvl (Stats.chargeHours mn mx lct t e (Stats.hours e) s))%Q
  /\ (Stats.lvl (Stats.chargeHours mn mx lct t e (Stats.hours e) s)
      <= inject_Z mx)%Q.
Proof. intros; now apply chargeHours_level. Qed.

Lemma chargeHours_level_bounds_witness :
  (5 <= Stats.lvl (Stats.chargeHours 20 90 36 (1 # 2)
                     (Stats.mkHistoryMap 2 2 None false
                        [Stats.mkHistoryHour (at_ 22 0) 1 10 (1 # 2)])
                     [Stats.mkHistoryHour (at_ 22 0) 1 10 (1 # 2)]
                     (Stats.mkSim 5 0 0 false)))%Q
  /\ (Stats.lvl (Stats.chargeHours 20 90 36 (1 # 2)
                   (Stats.mkHistoryMap 2 2 None false
                      [Stats.mkHistoryHour (at_ 22 0) 1 10 (1 # 2)])
                   [Stats.mkHistoryHour (at_ 22 0) 1 10 (1 # 2)]
                   (Stats.mkSim 5 0 0 false)) <= inject_Z 90)%Q.
Proof.
  apply (chargeHours_level_bounds 20 90 36 (1 # 2)
           (Stats.mkHistoryMap 2 2 None false
              [Stats.mkHistoryHour (at_ 22 0) 1 10 (1 # 2)])
           (Stats.mkSim 5 0 0 false)).
  - reflexivity.
  - intros h [<-|[]]; discriminate.
  - discriminate.
Defined.

(** ** Rows of [current_stats] *)

(** X19.  [currentStats] returns the newest row the store holds for the
    vehicle and the location when it returns, in every store; it leaves
    locations and prices alone and adds at most the row it returns to
    [current_stats]. *)
Theorem currentStats_returns_newest_row (st : Stats.Store)
  (q : Stats.StatsQueries) (v l : string) :
  let st' := fst (Stats.currentStats st q v l) in
  let r := snd (Stats.currentStats st q v l) in
  Stats.newestStats (Stats.current_stats st') v l = Some r
  /\ Stats.locations st' = Stats.locations st
  /\ Stats.price_list st' = Stats.price_list st
  /\ (Stats.current_stats st' = Stats.current_stats st
      \/ Stats.current_stats st' = Stats.current_stats st ++ [r]).
Proof.
  assert (Hnew : forall st0,
            Stats.newestStats
              (Stats.current_stats (fst (Stats.createNewStats st0 q v l))) v l
            = Some (snd (Stats.createNewStats st0 q v l))).
  { intros st0; cbn [Stats.createNewStats fst snd Stats.current_stats].
    apply newestStats_new_row; [now apply isFor_refl|].
    intros x Hx; cbn [Schema.stats_id]; now apply next_stats_id_above. }
  cbv zeta; unfold Stats.currentStats.
  destruct (Stats.newestStats (Stats.current_stats st) v l) as [r0|] eqn:Hn;
    [destruct (Stats.fresh st r0)|].
  - cbn [fst snd]; auto.
  - split; [apply Hnew|]. cbn; auto.
  - split; [apply Hnew|]. cbn; auto.
Qed.

(** ** The trip table under any telemetry *)

Lemma openTrip_keyed (st : Trips.State) (data : Trips.Sample) :
  Trips.keyed st ->
  exists tr table seq,
    Trips.openTrip st data = Some (tr, table, seq)
    /\ Trips.tripInHand st tr table seq.
Proof.
  intros [K1 K2]; unfold Trips.openTrip.
  destruct (Trips.vehicle_trip_id st) as [tid|] eqn:Hv.
  - destruct (K2 tid eq_refl) as [Hle [r Hr]]; rewrite Hr.
    exists r, (Trips.trips st), (Trips.trip_seq st); split; [reflexivity|].
    destruct (K1 _ _ Hr) as [Hid _].
    unfold Trips.tripInHand; rewrite Hid, Hv; repeat split; auto; lia.
  - eexists _, _, _; split; [reflexivity|].
    unfold Trips.tripInHand; rewrite putTrip_same, Hv; cbn [Trips.trip_id].
    repeat split; auto; try lia.
    intros id Hne; now rewrite putTrip_other.
Qed.

Lemma keyed_after (st : Trips.State) (tr : Trips.DBTrip)
  (table : Trips.TripTable) (seq : Z) (loc : option string) :
  Trips.keyed st -> Trips.tripInHand st tr table seq ->
  Trips.keyed (Trips.mkState loc (Some (Trips.trip_id tr)) table seq)
  /\ Trips.keyed (Trips.mkState loc None table seq)
  /\ Trips.keyed (Trips.mkState loc None
                    (Trips.deleteTrip table (Trips.trip_id tr)) seq).
Proof.
  intros [K1 K2] (Hin & Hle & Hseq & Hother & Hcur).
  assert (Htab : forall id r, table id = Some r ->
                              Trips.trip_id r = id /\ id <= seq).
  { intros id r Hr.
    destruct (Z.eq_dec id (Trips.trip_id tr)) as [->|Hne].
    - rewrite Hin in Hr; injection Hr as <-; auto.
    - rewrite (Hother _ Hne) in Hr. destruct (K1 _ _ Hr); split; auto; lia. }
  unfold Trips.keyed; cbn [Trips.trips Trips.trip_seq Trips.vehicle_trip_id].
  repeat split; try discriminate; try (now apply (Htab id r)).
  - injection H as <-; exact Hle.
  - injection H as <-; eauto.
  - unfold Trips.deleteTrip in H; destruct (id =? Trips.trip_id tr);
      [discriminate|now apply (Htab id r)].
  - unfold Trips.deleteTrip in H; destruct (id =? Trips.trip_id tr);
      [discriminate|now apply (Htab id r)].
Qed.

Lemma updateVehicleData_keyed (st : Trips.State) (data : Trips.Sample) :
  Trips.keyed st ->
  exists st' b,
    Trips.updateVehicleData st data = Some (st', b) /\ Trips.keyed st'.
Proof.
  intros Hk.
  unfold Trips.updateVehicleData; cbv zeta.
  case_if.
  - destruct (openTrip_keyed st data Hk) as (tr & table & seq & -> & Hhand).
    set (table' := if 0 <? _ then _ else table).
    assert (Hhand' : Trips.tripInHand st (Trips.recordDistance data tr) table' seq).
    { subst table'.
      destruct (0 <? _) eqn:Ht.
      - apply (tripInHand_update st tr); [apply recordDistance_id|exact Hhand].
      - rewrite (recordDistance_unchanged _ _ Ht); exact Hhand. }
    clearbody table'.
    destruct (keyed_after st _ _ _ (Trips.currentLocationUUID data) Hk Hhand')
      as (Kopen & Kclosed & Kdeleted).
    destruct (Trips.driving data); cbn [negb];
      [eexists _, _; split; [reflexivity|exact Kopen]|].
    destruct (Trips.currentLocationUUID data) as [loc|].
    + eexists _, _; split; [reflexivity|].
      case_if; assumption.
    + destruct (Trips.connected data);
        eexists _, _; split; try reflexivity; assumption.
  - eexists _, _; split; [reflexivity|].
    destruct Hk as [K1 K2].
    split; cbn [Trips.trips Trips.trip_seq Trips.vehicle_trip_id]; auto.
Qed.

Lemma run_keyed (samples : list Trips.Sample) :
  forall st, Trips.keyed st ->
             exists st', Trips.run st samples = Some st' /\ Trips.keyed st'.
Proof.
  induction samples as [|data rest IH]; intros st Hk; [exists st; auto|].
  destruct (updateVehicleData_keyed st data Hk) as (st1 & b & Hstep & Hk1).
  cbn [Trips.run]; rewrite Hstep; now apply IH.
Qed.

(** X20.  From a store whose trip table is keyed by [trip_id] and holds the
    trip of the vehicle, every telemetry sequence is processed: the lookup
    of the trip never fails, and the store stays that way. *)
Theorem trips_every_sample_processed (st : Trips.State)
  (samples : list Trips.Sample) :
  Trips.keyed st ->
  exists st', Trips.run st samples = Some st' /\ Trips.keyed st'.
Proof. apply run_keyed. Qed.

Lemma trips_every_sample_processed_witness :
  exists st',
    Trips.run Trips.parkedAtHome Trips.toPublicCharger = Some st'
    /\ Trips.keyed st'.
Proof.
  apply (trips_every_sample_processed Trips.parkedAtHome Trips.toPublicCharger).
  split; [intros id r H; discriminate H|intros tid H; discriminate H].
Defined.

Lemma recordDistance_max (data : Trips.Sample) (tr : Trips.DBTrip) :
  Trips.distance (Trips.recordDistance data tr)
  = Z.max (Trips.distance tr) (Trips.odometer data - Trips.start_odometer tr)
  /\ Trips.start_odometer (Trips.recordDistance data tr) = Trips.start_odometer tr
  /\ Trips.start_ts (Trips.recordDistance data tr) = Trips.start_ts tr
  /\ Trips.trip_id (Trips.recordDistance data tr) = Trips.trip_id tr.
Proof.
  unfold Trips.recordDistance.
  destruct (Z.ltb_spec 0 (Trips.odometer data - Trips.start_odometer tr
                          - Trips.distance tr)); cbn; repeat split; lia.
Qed.

(** What a sample does to the trip the vehicle is on. *)
Lemma updateVehicleData_on_trip (st : Trips.State) (data : Trips.Sample)
  (tr : Trips.DBTrip) :
  Trips.vehicle_trip_id st = Some (Trips.trip_id tr) ->
  Trips.trips st (Trips.trip_id tr) = Some tr ->
  exists st' b,
    Trips.updateVehicleData st data = Some (st', b)
    /\ ((Trips.vehicle_trip_id st' = Some (Trips.trip_id tr) /\ b = false
         /\ Trips.trips st' (Trips.trip_id tr)
            = Some (Trips.recordDistance data tr))
        \/ (Trips.vehicle_trip_id st' = None /\ b = true
            /\ Trips.driving data = false
            /\ Trips.trips st' (Trips.trip_id tr)
               = match Trips.currentLocationUUID data with
                 | Some _ =>
                     if Trips.distance (Trips.recordDistance data tr) <? 1000
                     then None else Some (Trips.recordDistance data tr)
                 | None => Some (Trips.recordDistance data tr)
                 end)).
Proof.
  intros Hv Hr.
  unfold Trips.updateVehicleData, Trips.openTrip; cbv zeta.
  rewrite Hv, Hr; cbn [Trips.isSome]; rewrite orb_true_r.
  set (table' := if 0 <? _ then _ else Trips.trips st).
  assert (Hlook : table' (Trips.trip_id tr) = Some (Trips.recordDistance data tr)).
  { subst table'; destruct (0 <? _) eqn:Ht.
    - rewrite <- (recordDistance_id data tr) at 1; apply putTrip_same.
    - now rewrite (recordDistance_unchanged _ _ Ht). }
  clearbody table'.
  rewrite recordDistance_id.
  destruct (Trips.driving data); cbn [negb].
  - eexists _, _; split; [reflexivity|left]; cbn; auto.
  - destruct (Trips.currentLocationUUID data) as [loc|].
    + eexists _, _; split; [reflexivity|right]; cbn; repeat split.
      case_if; [apply deleteTrip_same|exact Hlook].
    + destruct (Trips.connected data);
        eexists _, _; (split; [reflexivity|]); [right|left]; cbn; auto.
Qed.

(** X21.  A sample never lowers the distance recorded for the trip the
    vehicle is on: the row, as long as it is in the table, holds the greater
    of the distance recorded so far and the odometer less the odometer at
    the start; an odometer that runs backwards changes nothing. *)
Theorem trip_distance_never_decreases (st : Trips.State)
  (data : Trips.Sample) (tr : Trips.DBTrip) :
  Trips.vehicle_trip_id st = Some (Trips.trip_id tr) ->
  Trips.trips st (Trips.trip_id tr) = Some tr ->
  exists st' b,
    Trips.updateVehicleData st data = Some (st', b)
    /\ forall tr', Trips.trips st' (Trips.trip_id tr) = Some tr' ->
         Trips.distance tr'
         = Z.max (Trips.distance tr)
             (Trips.odometer data - Trips.start_odometer tr)
         /\ Trips.start_odometer tr' = Trips.start_odometer tr.
Proof.
  intros Hv Hr.
  destruct (updateVehicleData_on_trip st data tr Hv Hr)
    as (st' & b & Hstep & Hcases).
  exists st', b; split; [exact Hstep|].
  destruct (recordDistance_max data tr) as (Hd & Ho & _ & _).
  intros tr' Htr'.
  assert (E : tr' = Trips.recordDistance data tr).
  { destruct Hcases as [(_ & _ & Hl)|(_ & _ & _ & Hl)]; rewrite Hl in Htr'.
    - congruence.
    - destruct (Trips.currentLocationUUID data); [revert Htr'; case_if|];
        congruence. }
  subst tr'; auto.
Qed.

Lemma trip_distance_never_decreases_witness :
  exists st' b,
    Trips.updateVehicleData
      (Trips.mkState None (Some 1)
         (Trips.putTrip Trips.emptyTrips
            (Trips.mkDBTrip 1 (at_ 8 0) 70 (Some "home"%string) 120000
               (at_ 8 0) 70 None 300)) 1)
      (Trips.mkSample (at_ 8 5) 70 120100 true false None)
    = Some (st', b)
    /\ forall tr', Trips.trips st' 1 = Some tr' ->
         Trips.distance tr' = Z.max 300 (120100 - 120000)
         /\ Trips.start_odometer tr' = 120000.
Proof.
  apply (trip_distance_never_decreases
           (Trips.mkState None (Some 1)
              (Trips.putTrip Trips.emptyTrips
                 (Trips.mkDBTrip 1 (at_ 8 0) 70 (Some "home"%string) 120000
                    (at_ 8 0) 70 None 300)) 1)
           (Trips.mkSample (at_ 8 5) 70 120100 true false None)
           (Trips.mkDBTrip 1 (at_ 8 0) 70 (Some "home"%string) 120000
              (at_ 8 0) 70 None 300)).
  - reflexivity.
  - reflexivity.
Defined.

(** X22.  A trip of 1 km or more that ends with the vehicle stopped at a
    known location is closed and kept: the vehicle has no trip any more, a
    replan is requested, and the row stays in the table with its
    distance. *)
Theorem long_trip_kept_at_known_location (st : Trips.State)
  (data : Trips.Sample) (tr : Trips.DBTrip) (loc : string) :
  Trips.vehicle_trip_id st = Some (Trips.trip_id tr) ->
  Trips.trips st (Trips.trip_id tr) = Some tr ->
  Trips.driving data = false ->
  Trips.currentLocationUUID data = Some loc ->
  1000 <= Z.max (Trips.distance tr)
            (Trips.odometer data - Trips.start_odometer tr) ->
  exists st' tr',
    Trips.updateVehicleData st data = Some (st', true)
    /\ Trips.vehicle_trip_id st' = None
    /\ Trips.trips st' (Trips.trip_id tr) = Some tr'
    /\ Trips.distance tr'
       = Z.max (Trips.distance tr)
           (Trips.odometer data - Trips.start_odometer tr).
Proof.
  intros Hv Hr Hd Hloc Hlong.
  destruct (updateVehicleData_on_trip st data tr Hv Hr)
    as (st' & b & Hstep & Hcases).
  destruct (recordDistance_max data tr) as (Hdist & _).
  assert (Hstays : forall t, Trips.vehicle_trip_id st' = Some t -> False).
  { intros t Ht; revert Hstep.
    unfold Trips.updateVehicleData, Trips.openTrip; cbv zeta.
    rewrite Hv, Hr, Hd, Hloc; cbn [Trips.isSome negb]; rewrite orb_true_r.
    intros [= <- _]; discriminate Ht. }
  destruct Hcases as [(Hopen & _)|(Hclosed & -> & _ & Hl)];
    [exfalso; eapply Hstays; eassumption|].
  rewrite Hloc in Hl.
  destruct (Z.ltb_spec (Trips.distance (Trips.recordDistance data tr)) 1000);
    [lia|].
  exists st', (Trips.recordDistance data tr); auto.
Qed.

Lemma long_trip_kept_at_known_location_witness :
  exists st' tr',
    Trips.updateVehicleData
      (Trips.mkState None (Some 1)
         (Trips.putTrip Trips.emptyTrips
            (Trips.mkDBTrip 1 (at_ 8 0) 70 (Some "home"%string) 120000
               (at_ 8 0) 70 None 300)) 1)
      (Trips.mkSample (at_ 8 30) 65 125000 false false (Some "work"%string))
    = Some (st', true)
    /\ Trips.vehicle_trip_id st' = None
    /\ Trips.trips st' 1 = Some tr'
    /\ Trips.distance tr' = Z.max 300 (125000 - 120000).
Proof.
  apply (long_trip_kept_at_known_location
           (Trips.mkState None (Some 1)
              (Trips.putTrip Trips.emptyTrips
                 (Trips.mkDBTrip 1 (at_ 8 0) 70 (Some "home"%string) 120000
                    (at_ 8 0) 70 None 300)) 1)
           (Trips.mkSample (at_ 8 30) 65 125000 false false
              (Some "work"%string))
           (Trips.mkDBTrip 1 (at_ 8 0) 70 (Some "home"%string) 120000
              (at_ 8 0) 70 None 300) "work").
  - reflexivity.
  - reflexivity.
  - reflexivity.
  - reflexivity.
  - simpl; lia.
Defined.

(** ** Connection and charge *)

Lemma put_same {A : Type} (t : Z -> option A) (id : Z) (r : A) :
  Connection.put t id r id = Some r.
Proof. unfold Connection.put; now rewrite Z.eqb_refl. Qed.

Lemma truthy_id (z : Z) : z <> 0 -> Connection.truthy (Some z) = true.
Proof.
  intros H; cbn; destruct (Z.eqb_spec z 0); [contradiction|reflexivity].
Qed.

Ltac keyed_id :=
  let E := fresh "E" in
  intros ? E;
  first
    [ discriminate E
    | injection E as <-;
      split; [first [assumption | lia] | first [rewrite put_same; discriminate | congruence]]
    | rewrite E in *; split; first [assumption | congruence] ].

Ltac keyed_after_step :=
  unfold Connection.keyed, Connection.chargeImpliesConnected;
  cbn [Connection.vehicle_connected_id Connection.vehicle_charge_id
       Connection.connected_table Connection.charge_table
       Connection.connected_seq Connection.charge_seq];
  split; [split; [keyed_id | split; [keyed_id | split; lia]]|];
  try discriminate; try (intros E; now contradiction E).

Lemma connectionStep_invariant (arrayMean : list Z -> Q) (st : Connection.State)
  (data : Connection.Data) (loc : option string)
  (lookup : Connection.PriceLookup) :
  Connection.keyed st ->
  Connection.chargeImpliesConnected st ->
  Connection.chargesOnlyConnected data ->
  exists st' eff,
    Connection.connectionStep arrayMean st data loc lookup = Some (st', eff)
    /\ Connection.keyed st'
    /\ Connection.chargeImpliesConnected st'.
Proof.
  intros (K1 & K2 & Ks1 & Ks2) Hinv Honly.
  unfold Connection.chargesOnlyConnected in Honly.
  unfold Connection.connectionStep.
  destruct (Connection.vehicle_connected_id st) as [c|] eqn:Hc.
  - (* a connection is open *)
    destruct (K1 c eq_refl) as [Hc0 Hrow].
    destruct (Connection.connected_table st c) as [cn|] eqn:Hcn;
      [clear Hrow|contradiction].
    rewrite (truthy_id c Hc0), orb_true_r.
    destruct (Connection.vehicle_charge_id st) as [h|] eqn:Hh.
    + destruct (K2 h eq_refl) as [Hh0 Hrow].
      destruct (Connection.charge_table st h) as [ch|] eqn:Hch;
        [clear Hrow|contradiction].
      rewrite (truthy_id h Hh0), orb_true_r.
      destruct (Connection.learn arrayMean data h _ _) as [[cur nl] smp].
      destruct (Connection.truthy (Connection.charging_to data)) eqn:Hto;
        cbn [negb];
        [rewrite (Honly eq_refl)|destruct (Connection.connected data)];
        cbn [Connection.isSome];
        eexists _, _; (split; [reflexivity|]); keyed_after_step.
    + cbn [Connection.truthy]; rewrite orb_false_r.
      destruct (Connection.truthy (Connection.charging_to data)) eqn:Hto;
        cbn [negb];
        [rewrite (Honly eq_refl)|destruct (Connection.connected data)];
        cbn [Connection.isSome];
        eexists _, _; (split; [reflexivity|]); keyed_after_step.
  - (* no connection, hence no charge *)
    assert (Hh : Connection.vehicle_charge_id st = None).
    { destruct (Connection.vehicle_charge_id st) eqn:E; [|reflexivity].
      exfalso; apply Hinv; [rewrite E; discriminate|exact Hc]. }
    rewrite Hh; cbn [Connection.truthy]; rewrite !orb_false_r.
    destruct (Connection.connected data) as [kind|] eqn:Hplug;
      cbn [Connection.isSome].
    + destruct (Connection.truthy (Connection.charging_to data)) eqn:Hto;
        cbn [negb];
        eexists _, _; (split; [reflexivity|]); keyed_after_step.
    + eexists _, _; split; [reflexivity|].
      keyed_after_step.
Qed.

(** X23.  A sample that reports a charge target only while a charger is
    connected keeps the vehicle row consistent: the call does not fail, and
    a vehicle with a charge still has a connection ([charge_id] is set only
    if [connected_id] is). *)
Theorem connection_kept_while_charging (arrayMean : list Z -> Q)
  (st : Connection.State) (data : Connection.Data) (loc : option string)
  (lookup : Connection.PriceLookup) :
  Connection.keyed st ->
  Connection.chargeImpliesConnected st ->
  Connection.chargesOnlyConnected data ->
  exists st' eff,
    Connection.connectionStep arrayMean st data loc lookup = Some (st', eff)
    /\ Connection.keyed st'
    /\ Connection.chargeImpliesConnected st'.
Proof. apply connectionStep_invariant. Qed.

Lemma connection_kept_while_charging_witness :
  exists st' eff,
    Connection.connectionStep Connection.mean Connection.unplugged
      Connection.plugIn (Some "home"%string) Connection.somePrices
    = Some (st', eff)
    /\ Connection.keyed st'
    /\ Connection.chargeImpliesConnected st'.
Proof.
  apply (connection_kept_while_charging Connection.mean Connection.unplugged
           Connection.plugIn (Some "home"%string) Connection.somePrices).
  - unfold Connection.keyed; cbn; repeat split; try discriminate; lia.
  - intros H; now contradiction H.
  - intros _; reflexivity.
Defined.

Lemma pluggedAtHome_keyed : Connection.keyed Connection.pluggedAtHome.
Proof.
  unfold Connection.keyed; cbn.
  split; [intros c [= <-]; split; [lia|cbn; discriminate]|].
  split; [intros h H; discriminate|lia].
Qed.

(** X24.  A sample that reports a charge target without a connected charger,
    for a vehicle that has a connection, closes the connection and leaves
    the charge open: afterwards [connected_id] is [null] and [charge_id] is
    not. *)
Theorem charge_outlives_connection (arrayMean : list Z -> Q)
  (st : Connection.State) (data : Connection.Data) (loc : option string)
  (lookup : Connection.PriceLookup) (c : Z) :
  Connection.keyed st ->
  Connection.vehicle_connected_id st = Some c ->
  Connection.connected data = None ->
  Connection.truthy (Connection.charging_to data) = true ->
  exists st' eff,
    Connection.connectionStep arrayMean st data loc lookup = Some (st', eff)
    /\ Connection.vehicle_connected_id st' = None
    /\ Connection.vehicle_charge_id st' <> None.
Proof.
  intros (K1 & K2 & Ks1 & Ks2) Hc Hplug Hto.
  unfold Connection.connectionStep.
  destruct (K1 c Hc) as [Hc0 Hrow]; rewrite Hc.
  destruct (Connection.connected_table st c) as [cn|] eqn:Hcn;
    [clear Hrow|contradiction].
  rewrite (truthy_id c Hc0), orb_true_r, Hto, Hplug; cbn [orb negb].
  destruct (Connection.vehicle_charge_id st) as [h|] eqn:Hh.
  - destruct (K2 h eq_refl) as [Hh0 Hrow].
    destruct (Connection.charge_table st h) as [ch|] eqn:Hch;
      [clear Hrow|contradiction].
    destruct (Connection.learn arrayMean data h _ _) as [[cur nl] smp].
    eexists _, _; split; [reflexivity|]; cbn; split; [reflexivity|discriminate].
  - eexists _, _; split; [reflexivity|]; cbn; split; [reflexivity|discriminate].
Qed.

Lemma charge_outlives_connection_witness :
  exists st' eff,
    Connection.connectionStep Connection.mean Connection.pluggedAtHome
      Connection.targetWithoutCharger (Some "home"%string)
      Connection.somePrices
    = Some (st', eff)
    /\ Connection.vehicle_connected_id st' = None
    /\ Connection.vehicle_charge_id st' <> None.
Proof.
  apply (charge_outlives_connection Connection.mean Connection.pluggedAtHome
           Connection.targetWithoutCharger (Some "home"%string)
           Connection.somePrices 1).
  - exact pluggedAtHome_keyed.
  - reflexivity.
  - reflexivity.
  - reflexivity.
Defined.

Lemma connection_round_nonneg (x : Q) : (0 <= x)%Q -> 0 <= Connection.round x.
Proof.
  intros H; unfold Connection.round.
  rewrite <- (Qfloor_Z 0); apply Qfloor_resp_le.
  change (inject_Z 0) with 0%Q; lra.
Qed.

Lemma deltaUsed_nonneg (data : Connection.Data) (ch : Connection.DBCharge) :
  0 <= Connection.deltaUsed data ch.
Proof.
  unfold Connection.deltaUsed; apply connection_round_nonneg.
  apply Qmult_le_0_compat; [apply Q.le_max_l|discriminate].
Qed.

(** X25.  A sample never lowers the energy recorded for the open connection,
    whatever the power and the clock are; it keeps the start of the
    connection, stamps its end with the sample and records whether a charger
    is still connected; without a current price cost and saving stay as they
    are. *)
Theorem connection_energy_never_decreases (arrayMean : list Z -> Q)
  (st : Connection.State) (data : Connection.Data) (loc : option string)
  (lookup : Connection.PriceLookup) (c : Z) (cn : Connection.DBConnected) :
  Connection.keyed st ->
  Connection.vehicle_connected_id st = Some c ->
  Connection.connected_table st c = Some cn ->
  exists st' eff cn',
    Connection.connectionStep arrayMean st data loc lookup = Some (st', eff)
    /\ Connection.connected_table st' c = Some cn'
    /\ Connection.c_energy_used cn <= Connection.c_energy_used cn'
    /\ Connection.c_start_ts cn' = Connection.c_start_ts cn
    /\ Connection.c_start_level cn' = Connection.c_start_level cn
    /\ Connection.c_end_ts cn' = Connection.now data
    /\ Connection.c_connected cn'
       = Connection.isSome (Connection.connected data)
    /\ match Connection.price_now lookup with
       | None => Connection.c_cost cn' = Connection.c_cost cn
                 /\ Connection.c_saved cn' = Connection.c_saved cn
       | Some _ => True
       end.
Proof.
  intros (K1 & K2 & Ks1 & Ks2) Hc Hcn.
  unfold Connection.connectionStep.
  destruct (K1 c Hc) as [Hc0 _]; rewrite Hc, Hcn.
  rewrite (truthy_id c Hc0), orb_true_r.
  destruct (Connection.vehicle_charge_id st) as [h|] eqn:Hh.
  - destruct (K2 h eq_refl) as [Hh0 Hrow].
    destruct (Connection.charge_table st h) as [ch|] eqn:Hch;
      [clear Hrow|contradiction].
    rewrite (truthy_id h Hh0), orb_true_r.
    destruct (Connection.learn arrayMean data h _ _) as [[cur nl] smp].
    pose proof (deltaUsed_nonneg data ch) as Hused.
    unfold Connection.addCost.
    destruct (Connection.price_now lookup);
      destruct (negb (Connection.truthy (Connection.charging_to data)));
      eexists _, _, _; (split; [reflexivity|]);
      cbn [Connection.connected_table]; rewrite put_same;
      (split; [reflexivity|]); cbn -[Connection.deltaUsed];
      repeat split; auto; lia.
  - cbn [Connection.truthy]; rewrite orb_false_r.
    assert (Hsame : match Connection.price_now lookup with
                    | None => Connection.c_cost cn = Connection.c_cost cn
                              /\ Connection.c_saved cn = Connection.c_saved cn
                    | Some _ => True
                    end) by (destruct (Connection.price_now lookup); auto).
    destruct (Connection.truthy (Connection.charging_to data)); cbn [negb];
      eexists _, _, _; (split; [reflexivity|]);
      cbn [Connection.connected_table]; rewrite put_same;
      (split; [reflexivity|]); cbn; repeat split; auto; lia.
Qed.

Lemma connection_energy_never_decreases_witness :
  exists st' eff cn',
    Connection.connectionStep Connection.mean Connection.pluggedAtHome
      Connection.unplug (Some "home"%string) Connection.noPrices
    = Some (st', eff)
    /\ Connection.connected_table st' 1 = Some cn'
    /\ 40 <= Connection.c_energy_used cn'
    /\ Connection.c_start_ts cn' = at_ 8 0
    /\ Connection.c_start_level cn' = 50
    /\ Connection.c_end_ts cn' = at_ 8 30
    /\ Connection.c_connected cn' = false
    /\ Connection.c_cost cn' = 0 /\ Connection.c_saved cn' = 0.
Proof.
  apply (connection_energy_never_decreases Connection.mean
           Connection.pluggedAtHome Connection.unplug (Some "home"%string)
           Connection.noPrices 1 Connection.connectedAtHome).
  - exact pluggedAtHome_keyed.
  - reflexivity.
  - reflexivity.
Defined.

Lemma learn_sample (arrayMean : list Z -> Q) (data : Connection.Data)
  (chid : Z) (charge : Connection.DBCharge)
  (table : Z -> option Connection.DBChargeCurrent)
  (table' : Z -> option Connection.DBChargeCurrent) (newLevel : bool)
  (cs : Connection.CurveSample) :
  Connection.learn arrayMean data chid charge table
  = (table', newLevel, Some cs) ->
  newLevel = true
  /\ Connection.ch_start_level charge < Connection.level data
  /\ exists cur,
       table chid = Some cur
       /\ Connection.level data = Connection.cur_start_level cur + 1
       /\ cs = Connection.mkCurveSample chid (Connection.cur_start_level cur)
                 (inject_Z (Connection.now data - Connection.cur_start_ts cur)
                  / 1000)
                 (arrayMean (Connection.outside_deci_temperatures cur))
                 (arrayMean (Connection.powers cur)
                  * (inject_Z
                       (Connection.now data - Connection.cur_start_ts cur)
                     / 1000) / 60)
                 (Connection.added data - Connection.cur_start_added cur).
Proof.
  unfold Connection.learn.
  destruct (Z.ltb_spec (Connection.ch_start_level charge)
              (Connection.level data)) as [Hfirst|_]; [|discriminate].
  destruct (table chid) as [cur|]; [|discriminate].
  destruct (Z.ltb_spec (Connection.cur_start_level cur)
              (Connection.level data)) as [Hnew|_]; cbn [andb];
    [|discriminate].
  destruct (Z.eqb_spec (Connection.level data)
              (Connection.cur_start_level cur + 1)) as [Hone|_];
    [|discriminate].
  intros [= _ <- <-]; repeat split; auto.
  exists cur; auto.
Qed.

Lemma connectionStep_sample (arrayMean : list Z -> Q) (st : Connection.State)
  (data : Connection.Data) (loc : option string)
  (lookup : Connection.PriceLookup) (eff : Connection.Effects)
  (cs : Connection.CurveSample) :
  option_map snd (Connection.connectionStep arrayMean st data loc lookup)
  = Some eff ->
  Connection.curveSample eff = Some cs ->
  Connection.doPricePlan eff = true
  /\ exists h ch cur,
       Connection.vehicle_charge_id st = Some h
       /\ Connection.charge_table st h = Some ch
       /\ Connection.charge_current st h = Some cur
       /\ Connection.ch_start_level ch < Connection.level data
       /\ Connection.level data = Connection.cur_start_level cur + 1
       /\ Connection.cs_charge_id cs = h
       /\ Connection.cs_level cs = Connection.cur_start_level cur
       /\ Connection.cs_energyAdded cs
          = (Connection.added data - Connection.cur_start_added cur)%Q.
Proof.
  unfold Connection.connectionStep.
  case_if; [|intros [= <-]; discriminate].
  destruct (Connection.vehicle_connected_id st) as [c|].
  - destruct (Connection.connected_table st c) as [cn|]; [|discriminate].
    case_if; [|intros [= <-]; discriminate].
    destruct (Connection.vehicle_charge_id st) as [h|].
    + destruct (Connection.charge_table st h) as [ch|] eqn:Hch;
        [|discriminate].
      destruct (Connection.learn arrayMean data h _ _) as [[cur' nl] smp]
        eqn:Hlearn.
      assert (Hs : forall e, Connection.curveSample e = smp ->
                        Connection.doPricePlan e = (false || nl)%bool ->
                        Connection.curveSample e = Some cs ->
                        Connection.doPricePlan e = true
                        /\ exists h0 ch0 cur0,
                             Some h = Some h0
                             /\ Connection.charge_table st h0 = Some ch0
                             /\ Connection.charge_current st h0 = Some cur0
                             /\ Connection.ch_start_level ch0
                                < Connection.level data
                             /\ Connection.level data
                                = Connection.cur_start_level cur0 + 1
                             /\ Connection.cs_charge_id cs = h0
                             /\ Connection.cs_level cs
                                = Connection.cur_start_level cur0
                             /\ Connection.cs_energyAdded cs
                                = (Connection.added data
                                   - Connection.cur_start_added cur0)%Q).
      { intros e Hsmp Hplan Hcs; rewrite Hsmp in Hcs; rewrite Hcs in Hlearn.
        apply learn_sample in Hlearn.
        destruct Hlearn as (-> & Hfirst & cur & Hcur & Hone & ->).
        split; [exact Hplan|].
        exists h, ch, cur; cbn; repeat split; auto. }
      case_if; intros [= <-]; apply Hs; reflexivity.
    + case_if; intros [= <-]; discriminate.
  - case_if; [|intros [= <-]; discriminate].
    destruct (Connection.vehicle_charge_id st) as [h|].
    + destruct (Connection.charge_table st h) as [ch|] eqn:Hch;
        [|discriminate].
      destruct (Connection.learn arrayMean data h _ _) as [[cur' nl] smp]
        eqn:Hlearn.
      intros Heff Hcs.
      assert (Hsmp : smp = Some cs)
        by (revert Heff; case_if; intros [= <-]; exact Hcs).
      subst smp; apply learn_sample in Hlearn.
      destruct Hlearn as (-> & Hfirst & cur & Hcur & Hone & ->).
      split; [revert Heff; case_if; intros [= <-]; reflexivity|].
      exists h, ch, cur; cbn; repeat split; auto.
    + case_if; intros [= <-]; discriminate.
Qed.

(** X26.  [setChargeCurve] is called only during a charge that was already
    open, above its first percent, and only when the level is exactly one
    percent above the level of the [charge_current] row: the sample is for
    that row's level and the energy added since that row, and the call goes
    with a new price plan. *)
Theorem curve_sample_only_for_one_percent (arrayMean : list Z -> Q)
  (st : Connection.State) (data : Connection.Data) (loc : option string)
  (lookup : Connection.PriceLookup) (eff : Connection.Effects)
  (cs : Connection.CurveSample) :
  option_map snd (Connection.connectionStep arrayMean st data loc lookup)
  = Some eff ->
  Connection.curveSample eff = Some cs ->
  Connection.doPricePlan eff = true
  /\ exists h ch cur,
       Connection.vehicle_charge_id st = Some h
       /\ Connection.charge_table st h = Some ch
       /\ Connection.charge_current st h = Some cur
       /\ Connection.ch_start_level ch < Connection.level data
       /\ Connection.level data = Connection.cur_start_level cur + 1
       /\ Connection.cs_charge_id cs = h
       /\ Connection.cs_level cs = Connection.cur_start_level cur
       /\ Connection.cs_energyAdded cs
          = (Connection.added data - Connection.cur_start_added cur)%Q.
Proof. apply connectionStep_sample. Qed.

Lemma curve_sample_only_for_one_percent_witness :
  Connection.doPricePlan
    (Connection.mkEffects true (Some Connection.sample51) None) = true
  /\ exists h ch cur,
       Connection.vehicle_charge_id Connection.chargingAtHome = Some h
       /\ Connection.charge_table Connection.chargingAtHome h = Some ch
       /\ Connection.charge_current Connection.chargingAtHome h = Some cur
       /\ Connection.ch_start_level ch
          < Connection.level Connection.charging52
       /\ Connection.level Connection.charging52
          = Connection.cur_start_level cur + 1
       /\ Connection.cs_charge_id Connection.sample51 = h
       /\ Connection.cs_level Connection.sample51
          = Connection.cur_start_level cur
       /\ Connection.cs_energyAdded Connection.sample51
          = (Connection.added Connection.charging52
             - Connection.cur_start_added cur)%Q.
Proof.
  apply (curve_sample_only_for_one_percent Connection.mean
           Connection.chargingAtHome Connection.charging52
           (Some "home"%string) Connection.somePrices
           (Connection.mkEffects true (Some Connection.sample51) None)
           Connection.sample51).
  - vm_compute; reflexivity.
  - reflexivity.
Defined.

Lemma connectionStep_disconnect (arrayMean : list Z -> Q)
  (st : Connection.State) (data : Connection.Data) (loc : option string)
  (lookup : Connection.PriceLookup) (c : Z) (cn : Connection.DBConnected) :
  Connection.keyed st ->
  Connection.vehicle_connected_id st = Some c ->
  Connection.connected_table st c = Some cn ->
  Connection.connected data = None ->
  Connection.truthy (Connection.charging_to data) = false ->
  exists st' eff cn',
    Connection.connectionStep arrayMean st data loc lookup = Some (st', eff)
    /\ Connection.vehicle_connected_id st' = None
    /\ Connection.vehicle_charge_id st' = None
    /\ Connection.vehicle_charge_plan st' = None
    /\ (forall h, Connection.vehicle_charge_id st = Some h ->
                  Connection.charge_current st' h = None)
    /\ Connection.connected_table st' c = Some cn'
    /\ Connection.c_connected cn' = false
    /\ Connection.c_location_uuid cn' = Connection.location_uuid st
    /\ Connection.newStats eff
       = Some (Connection.c_vehicle_uuid cn, Connection.c_location_uuid cn).
Proof.
  intros (K1 & K2 & Ks1 & Ks2) Hc Hcn Hplug Hto.
  unfold Connection.connectionStep.
  destruct (K1 c Hc) as [Hc0 _]; rewrite Hc, Hcn.
  rewrite (truthy_id c Hc0), orb_true_r, Hplug, Hto; cbn [orb negb].
  destruct (Connection.vehicle_charge_id st) as [h|] eqn:Hh.
  - destruct (K2 h eq_refl) as [Hh0 Hrow].
    destruct (Connection.charge_table st h) as [ch|] eqn:Hch;
      [clear Hrow|contradiction].
    rewrite (truthy_id h Hh0).
    destruct (Connection.learn arrayMean data h _ _) as [[cur nl] smp].
    unfold Connection.addCost.
    destruct (Connection.price_now lookup);
      eexists _, _, _; (split; [reflexivity|]);
      cbn [Connection.connected_table]; rewrite put_same;
      cbn -[Connection.deltaUsed]; repeat split; auto;
      intros ? [= <-]; unfold Connection.remove; now rewrite Z.eqb_refl.
  - cbn [Connection.truthy].
    eexists _, _, _; (split; [reflexivity|]);
      cbn [Connection.connected_table]; rewrite put_same;
      cbn; repeat split; auto; intros ? [=].
Qed.

(** X27.  A sample without a charger and without a charge target, for a
    vehicle that has a connection, ends it: the vehicle row loses
    [connected_id], [charge_id] and [charge_plan], the [charge_current] row
    of the charge is deleted, the connection row is marked not connected and
    gets the location the vehicle row had before the sample, and
    [createNewStats] is called with the vehicle and the location the
    connection row had when it was read. *)
Theorem disconnect_ends_connection_and_charge (arrayMean : list Z -> Q)
  (st : Connection.State) (data : Connection.Data) (loc : option string)
  (lookup : Connection.PriceLookup) (c : Z) (cn : Connection.DBConnected) :
  Connection.keyed st ->
  Connection.vehicle_connected_id st = Some c ->
  Connection.connected_table st c = Some cn ->
  Connection.connected data = None ->
  Connection.truthy (Connection.charging_to data) = false ->
  exists st' eff cn',
    Connection.connectionStep arrayMean st data loc lookup = Some (st', eff)
    /\ Connection.vehicle_connected_id st' = None
    /\ Connection.vehicle_charge_id st' = None
    /\ Connection.vehicle_charge_plan st' = None
    /\ (forall h, Connection.vehicle_charge_id st = Some h ->
                  Connection.charge_current st' h = None)
    /\ Connection.connected_table st' c = Some cn'
    /\ Connection.c_connected cn' = false
    /\ Connection.c_location_uuid cn' = Connection.location_uuid st
    /\ Connection.newStats eff
       = Some (Connection.c_vehicle_uuid cn, Connection.c_location_uuid cn).
Proof. apply connectionStep_disconnect. Qed.

Lemma chargingAtHome_keyed : Connection.keyed Connection.chargingAtHome.
Proof.
  unfold Connection.keyed; cbn.
  split; [intros c [= <-]; split; [lia|cbn; discriminate]|].
  split; [intros h [= <-]; split; [lia|cbn; discriminate]|lia].
Qed.

Lemma disconnect_ends_connection_and_charge_witness :
  exists st' eff cn',
    Connection.connectionStep Connection.mean Connection.chargingAtHome
      Connection.unplug None Connection.somePrices = Some (st', eff)
    /\ Connection.vehicle_connected_id st' = None
    /\ Connection.vehicle_charge_id st' = None
    /\ Connection.vehicle_charge_plan st' = None
    /\ (forall h, Connection.vehicle_charge_id Connection.chargingAtHome
                  = Some h ->
                  Connection.charge_current st' h = None)
    /\ Connection.connected_table st' 1 = Some cn'
    /\ Connection.c_connected cn' = false
    /\ Connection.c_location_uuid cn' = Some "home"%string
    /\ Connection.newStats eff = Some ("v1"%string, Some "home"%string).
Proof.
  apply (disconnect_ends_connection_and_charge Connection.mean
           Connection.chargingAtHome Connection.unplug None
           Connection.somePrices 1 Connection.connectedAtHome).
  - exact chargingAtHome_keyed.
  - reflexivity.
  - reflexivity.
  - reflexivity.
  - reflexivity.
Defined.

(* ================================================================== *)
(** * Idempotence, the price cap of 0 and the line of the simulation *)
(* ================================================================== *)

(** ** Plans the reconciler is idempotent on *)





















(** Beyond these plans a second run can change the plan: three half-hour
    segments of one type, three overlapping segments of more than an hour
    of two types, and two segments one of which stops when it starts. *)
Lemma cleanupPlan_idempotence_limits :
  (typesApart planHalfHoursOneType = true
   /\ forallb stopsLater planHalfHoursOneType = true
   /\ cleanupPlan (cleanupPlan planHalfHoursOneType)
      <> cleanupPlan planHalfHoursOneType)
  /\ (forallb lastsAnHour planLongMixed = true
      /\ cleanupPlan (cleanupPlan planLongMixed) <> cleanupPlan planLongMixed)
  /\ ((List.length planZeroLength <= 2)%nat
      /\ cleanupPlan (cleanupPlan planZeroLength)
         <> cleanupPlan planZeroLength).
Proof.
  repeat split; try (vm_compute; reflexivity); try (cbn; lia);
    intros H; vm_compute in H; discriminate H.
Qed.

(** ** A price cap of 0 *)

(** The first turn of the loop over the price map, when time is left and the
    price is not over the cap: a segment that starts at the price point. *)
Lemma planPrices_first (nowMs : Z) (before : Q) (maxPrice : option Q)
  (batteryLevel : Z) (chargeType : ChargeType) (comment : string)
  (p : Schema.DBPriceList) (rest : list Schema.DBPriceList) (timeLeft : Q) :
  (0 < timeLeft)%Q ->
  Planner.overMaxPrice maxPrice p = false ->
  exists stop more,
    Planner.planPrices nowMs before maxPrice batteryLevel chargeType comment
      (p :: rest) timeLeft
    = mkChargePlan (Some (Schema.ts p)) (Some stop) batteryLevel chargeType
        comment :: more.
Proof.
  intros Hpos Hcap; cbn [Planner.planPrices]; rewrite Hcap.
  assert (Hleft : Qle_bool timeLeft 0 = false).
  { destruct (Qle_bool timeLeft 0) eqn:E; [|reflexivity].
    apply Qle_bool_iff in E; lra. }
  rewrite Hleft.
  eexists _, _; f_equal; f_equal; f_equal.
  destruct (Z.ltb_spec (Schema.ts p) nowMs) as [Hlt|Hge].
  - apply Z.ltb_lt in Hlt; rewrite Hlt; reflexivity.
  - rewrite Z.ltb_irrefl; reflexivity.
Qed.

(** The first turn of the loop under a cap that is not 0 and below the
    price: the loop is left. *)
Lemma planPrices_over_cap (nowMs : Z) (before : Q) (cap : Q)
  (batteryLevel : Z) (chargeType : ChargeType) (comment : string)
  (p : Schema.DBPriceList) (rest : list Schema.DBPriceList) (timeLeft : Q) :
  (0 < cap)%Q -> (cap < inject_Z (Schema.price p))%Q ->
  Planner.planPrices nowMs before (Some cap) batteryLevel chargeType comment
    (p :: rest) timeLeft = [].
Proof.
  intros Hcap Hprice; cbn [Planner.planPrices].
  assert (Hover : Planner.overMaxPrice (Some cap) p = true).
  { unfold Planner.overMaxPrice, Planner.truthyQ.
    apply andb_true_iff; split; [|apply Qltb_true, Hprice].
    apply negb_true_iff.
    destruct (Qeq_bool cap 0) eqn:E; [|reflexivity].
    apply Qeq_bool_iff in E; rewrite E in Hcap; discriminate Hcap. }
  rewrite Hover; destruct (Qle_bool timeLeft 0); reflexivity.
Qed.

(** C9.  A [maxPrice] of 0 is no price cap.  [generateChargePlan] returns
    what it returns without [maxPrice]; when time is needed and the location
    has price points, that plan starts with a segment at the cheapest price
    point, whatever its price is; a cap that is above 0 and below that price
    gives no segment at all. *)
Theorem generateChargePlan_zero_maxPrice (env : Planner.Env)
  (v : Schema.DBVehicle) (loc : string) (batteryLevel : Z)
  (chargeType : ChargeType) (comment : string) (before : option Q)
  (maxPrice : Q) :
  (maxPrice == 0)%Q ->
  let capped :=
    Planner.generateChargePlan env v loc batteryLevel chargeType comment
      before (Some maxPrice) in
  capped
  = Planner.generateChargePlan env v loc batteryLevel chargeType comment
      before None
  /\ forall p rest,
       (0 < Planner.chargeDuration env v loc (Schema.level v) batteryLevel)%Q ->
       Planner.priceMap env loc (Planner.horizon before) = p :: rest ->
       (exists stop more,
          capped
          = mkChargePlan (Some (Schema.ts p)) (Some stop) batteryLevel
              chargeType comment :: more)
       /\ forall cap,
            (0 < cap)%Q -> (cap < inject_Z (Schema.price p))%Q ->
            Planner.generateChargePlan env v loc batteryLevel chargeType
              comment before (Some cap) = [].
Proof.
  intros H capped; split.
  - unfold capped, Planner.generateChargePlan.
    case_if; [|reflexivity].
    destruct (Planner.priceMap env loc _); [reflexivity|].
    apply planPrices_zero_maxPrice, H.
  - intros p rest Hpos Hmap.
    unfold capped, Planner.generateChargePlan.
    fold (Planner.horizon before); rewrite Hmap.
    pose proof Hpos as Hb; apply Qltb_true in Hb; rewrite Hb.
    split.
    + apply planPrices_first; [exact Hpos|apply overMaxPrice_zero, H].
    + intros cap Hcap Hprice; apply planPrices_over_cap; assumption.
Qed.

Lemma generateChargePlan_zero_maxPrice_witness :
  (Planner.generateChargePlan Planner.envPrices Planner.vehicleLow "home" 90
     fill "low price" None (Some 0%Q)
   = [ seg (at_ 9 0) (at_ 10 0) 90 fill "low price";
       seg (at_ 10 0) (at_ 10 0 + 3435000) 90 fill "low price" ])
  /\ (Planner.generateChargePlan Planner.envPrices Planner.vehicleLow "home" 90
        fill "low price" None (Some 0%Q)
      = Planner.generateChargePlan Planner.envPrices Planner.vehicleLow "home"
          90 fill "low price" None None)
  /\ (exists stop more,
        Planner.generateChargePlan Planner.envPrices Planner.vehicleLow "home"
          90 fill "low price" None (Some 0%Q)
        = mkChargePlan (Some (at_ 9 0)) (Some stop) 90 fill "low price" :: more)
  /\ Planner.generateChargePlan Planner.envPrices Planner.vehicleLow "home" 90
       fill "low price" None (Some (inject_Z 30000)) = [].
Proof.
  split; [vm_compute; reflexivity|].
  destruct (generateChargePlan_zero_maxPrice Planner.envPrices
              Planner.vehicleLow "home" 90 fill "low price" None 0%Q
              (Qeq_refl 0)) as [Hsame Hfirst].
  split; [exact Hsame|].
  destruct (Hfirst (Schema.mkDBPriceList "SE3" (at_ 9 0) 31000)
              [ Schema.mkDBPriceList "SE3" (at_ 10 0) 47000;
                Schema.mkDBPriceList "SE3" (at_ 8 0) 52000 ])
    as [Hseg Hcap]; [reflexivity|vm_compute; reflexivity|].
  split; [exact Hseg|].
  apply Hcap; reflexivity.
Defined.

(** ** Where the threshold simulation draws the line *)

Lemma belowTheLine_iff (mn : Z) (e : Stats.HistoryMap) (l : Q) :
  Stats.belowTheLine mn e l = true
  <-> (l < inject_Z (Stats.start_level e))%Q /\ (l < inject_Z mn / 2)%Q.
Proof.
  unfold Stats.belowTheLine, Stats.Qltb.
  rewrite andb_true_iff, !negb_true_iff.
  assert (Hlt : forall a b, Qle_bool b a = false <-> (a < b)%Q).
  { intros a b; split; intros H.
    - apply Qnot_le_lt; intros Hle; apply Qle_bool_iff in Hle; congruence.
    - destruct (Qle_bool b a) eqn:E; [|reflexivity].
      apply Qle_bool_iff in E; lra. }
  rewrite !Hlt; reflexivity.
Qed.

(** The turn of the loop over the history at an entry [e] behind an onsite
    entry [p], in the rational reading of the simulation. *)
Lemma simulate_at_entry (mn mx : Z) (lct t : Q)
  (pre post : list Stats.HistoryMap) (p e : Stats.HistoryMap) :
  Stats.offsite p = false ->
  let s := Stats.simulate mn mx lct t None (pre ++ [p]) Stats.initSim in
  Stats.failed s = false ->
  let l := (Stats.lvl s - Stats.neededQ p)%Q in
  Stats.simulate mn mx lct t None (pre ++ p :: e :: post) Stats.initSim
  = if Stats.belowTheLine mn e l
    then Stats.mkSim (-1) (Stats.totalCharged s) (Stats.totalCost s) true
    else Stats.simulate mn mx lct t (Some e) post
           (Stats.chargeHours mn mx lct t e (Stats.hours e)
              (Stats.set_lvl s l)).
Proof.
  intros Hp s Hs l.
  rewrite simulate_split; fold s.
  cbn [Stats.simulate]; rewrite Hs, Hp; fold l.
  destruct (Stats.belowTheLine mn e l); reflexivity.
Qed.

Lemma failed_run_not_selected (mn mx : Z) (lct t : Q)
  (historyMap : list Stats.HistoryMap) (charged cost : Q) :
  0 <= mn ->
  Stats.simulate mn mx lct t None historyMap Stats.initSim
  = Stats.mkSim (-1) charged cost true ->
  forall best, Stats.consider mn mx lct historyMap best t = best.
Proof.
  intros Hmn Hrun best; unfold Stats.consider; rewrite Hrun.
  cbn [Stats.lvl].
  replace (Stats.Qltb (inject_Z mn) (-1)) with false; [reflexivity|].
  symmetry; unfold Stats.Qltb; apply negb_false_iff, Qle_bool_iff.
  unfold Qle; simpl; lia.
Qed.

(** The same turn in the numbers of the source. *)

Lemma doubles_simulate_failed (mn mx lct t : float)
  (prev : option Doubles.HistoryMap) (entries : list Doubles.HistoryMap)
  (s : Doubles.Sim) :
  Doubles.failed s = true -> Doubles.simulate mn mx lct t prev entries s = s.
Proof.
  intros H; destruct entries; cbn [Doubles.simulate]; [reflexivity|].
  rewrite H; reflexivity.
Qed.

Lemma doubles_simulate_split (mn mx lct t : float) (p : Doubles.HistoryMap)
  (rest pre : list Doubles.HistoryMap) :
  forall prev s,
    Doubles.simulate mn mx lct t prev (pre ++ p :: rest) s
    = Doubles.simulate mn mx lct t (Some p) rest
        (Doubles.simulate mn mx lct t prev (pre ++ [p]) s).
Proof.
  induction pre as [|x pre IH]; intros prev s.
  - cbn [app Doubles.simulate].
    destruct (Doubles.failed s) eqn:Hf;
      [now rewrite doubles_simulate_failed|].
    destruct (match prev with None => true | Some p0 => Doubles.offsite p0 end);
      [reflexivity|].
    case_if; [now rewrite doubles_simulate_failed|reflexivity].
  - cbn [app Doubles.simulate].
    destruct (Doubles.failed s) eqn:Hf;
      [now rewrite doubles_simulate_failed|].
    destruct (match prev with None => true | Some p0 => Doubles.offsite p0 end);
      [apply IH|].
    case_if; [now rewrite doubles_simulate_failed|apply IH].
Qed.

Lemma doubles_simulate_at_entry (mn mx lct t : float)
  (pre post : list Doubles.HistoryMap) (p e : Doubles.HistoryMap) :
  Doubles.offsite p = false ->
  let s := Doubles.simulate mn mx lct t None (pre ++ [p]) Doubles.initSim in
  Doubles.failed s = false ->
  let l := (Doubles.lvl s - Doubles.neededNum p)%float in
  Doubles.simulate mn mx lct t None (pre ++ p :: e :: post) Doubles.initSim
  = if (l <? Doubles.start_level e)%float && (l <? mn / 2)%float
    then Doubles.mkSim (-1) (Doubles.totalCharged s) (Doubles.totalCost s) true
    else Doubles.simulate mn mx lct t (Some e) post
           (Doubles.chargeHours mn mx lct t e (Doubles.hours e)
              (Doubles.set_lvl s l)).
Proof.
  intros Hp s Hs l.
  rewrite doubles_simulate_split; fold s.
  cbn [Doubles.simulate]; rewrite Hs, Hp; fold l.
  destruct ((l <? Doubles.start_level e)%float && (l <? mn / 2)%float);
    reflexivity.
Qed.

Lemma doubles_failed_run_not_selected (mn mx lct t : float)
  (historyMap : list Doubles.HistoryMap) (charged cost : float) :
  (mn <? -1)%float = false ->
  Doubles.simulate mn mx lct t None historyMap Doubles.initSim
  = Doubles.mkSim (-1) charged cost true ->
  forall best, Doubles.consider mn mx lct historyMap best t = best.
Proof.
  intros Hmn Hrun best; unfold Doubles.consider; rewrite Hrun.
  cbn [Doubles.lvl]; rewrite Hmn; reflexivity.
Qed.

(** C4, as the specification states it, fails on the history built from
    [rowsDip], with [minimum_charge = 20]: for the candidate 0.5 the first
    connection is charged to 90 %, the level carried into the second
    connection is [90 - 85 = 5], below [minimum_charge / 2 = 10], yet the
    run goes on (the connection really started at 2 %, which is not above
    5) and 0.5 becomes the selected threshold. *)
Lemma simulation_below_half_minimum_selected :
  let historyMap := Doubles.buildHistoryMap "home" Doubles.rowsDip in
  let p := Doubles.firstConnection in
  let s := Doubles.simulate 20 90 36 0.5 None [p] Doubles.initSim in
  let l := (Doubles.lvl s - Doubles.neededNum p)%float in
  (exists e, historyMap = [p; e])
  /\ Doubles.thresholdList historyMap = [0.5%float]
  /\ Doubles.offsite p = false
  /\ Doubles.failed s = false
  /\ l = 5%float
  /\ (l <? 20 / 2)%float = true
  /\ Doubles.failed
       (Doubles.simulate 20 90 36 0.5 None historyMap Doubles.initSim) = false
  /\ Doubles.selectThreshold 20 90 36 historyMap = 0.5%float.
Proof.
  cbv zeta.
  split; [eexists; vm_compute; reflexivity|].
  repeat split; vm_compute; reflexivity.
Qed.

(** C4, amended.  In the history built from the rows of the history query,
    at an entry [e] behind an onsite entry [p] the carried level is the
    level after [p] less [p.needed].  If that level is below both the
    [start_level] of [e] and [minimum_charge / 2], the run ends there with
    level -1 and the candidate [t] is not selected; if it is not, the hours
    of [e] are charged from that level and the run goes on.  (The numbers
    are those of the source; [minimum_charge], a percentage, is not below
    -1.) *)
Theorem simulation_fails_below_the_line (mn mx lct t : float)
  (locationUUID : string) (history : list Doubles.HistoryRow)
  (pre post : list Doubles.HistoryMap) (p e : Doubles.HistoryMap) :
  (mn <? -1)%float = false ->
  Doubles.buildHistoryMap locationUUID history = pre ++ p :: e :: post ->
  Doubles.offsite p = false ->
  let historyMap := Doubles.buildHistoryMap locationUUID history in
  let s := Doubles.simulate mn mx lct t None (pre ++ [p]) Doubles.initSim in
  Doubles.failed s = false ->
  let l := (Doubles.lvl s - Doubles.neededNum p)%float in
  let final := Doubles.simulate mn mx lct t None historyMap Doubles.initSim in
  ((l <? Doubles.start_level e)%float = true /\ (l <? mn / 2)%float = true ->
   final
   = Doubles.mkSim (-1) (Doubles.totalCharged s) (Doubles.totalCost s) true
   /\ forall best, Doubles.consider mn mx lct historyMap best t = best)
  /\ ((l <? Doubles.start_level e)%float = false
      \/ (l <? mn / 2)%float = false ->
      final
      = Doubles.simulate mn mx lct t (Some e) post
          (Doubles.chargeHours mn mx lct t e (Doubles.hours e)
             (Doubles.set_lvl s l))).
Proof.
  intros Hmn Hbuilt Hp historyMap s Hs l final.
  assert (Hfinal :
            final
            = if (l <? Doubles.start_level e)%float && (l <? mn / 2)%float
              then Doubles.mkSim (-1) (Doubles.totalCharged s)
                     (Doubles.totalCost s) true
              else Doubles.simulate mn mx lct t (Some e) post
                     (Doubles.chargeHours mn mx lct t e (Doubles.hours e)
                        (Doubles.set_lvl s l))).
  { unfold final, historyMap; rewrite Hbuilt.
    apply doubles_simulate_at_entry; assumption. }
  split.
  - intros [Hstart Hhalf]; rewrite Hstart, Hhalf in Hfinal.
    split; [exact Hfinal|].
    apply (doubles_failed_run_not_selected mn mx lct t historyMap _ _ Hmn
             Hfinal).
  - intros [Hstart|Hhalf]; [rewrite Hstart in Hfinal; exact Hfinal|].
    rewrite Hhalf, andb_false_r in Hfinal; exact Hfinal.
Qed.

Lemma simulation_fails_below_the_line_witness :
  let historyMap := Doubles.buildHistoryMap "home" Doubles.rowsFail in
  let final :=
    Doubles.simulate 20 90 36 0.5 None historyMap Doubles.initSim in
  final = Doubles.mkSim (-1) 40 4 true
  /\ (forall best, Doubles.consider 20 90 36 historyMap best 0.5 = best)
  /\ Doubles.selectThreshold 20 90 36 historyMap = 1%float.
Proof.
  cbv zeta.
  destruct (simulation_fails_below_the_line 20 90 36 0.5 "home"
              Doubles.rowsFail [] [] Doubles.firstConnection
              (Doubles.mkHistoryMap 2 30 None false
                 [Doubles.mkHistoryHour (at_ 22 0) 1 10 0.5]))
    as [Hfail _]; [reflexivity|reflexivity|reflexivity|reflexivity|].
  destruct Hfail as [Hfinal Hbest]; [split; vm_compute; reflexivity|].
  split; [exact Hfinal|].
  split; [exact Hbest|vm_compute; reflexivity].
Defined.
